(** * Confronto SEFAZ x Uniconta

    A shallow embedding of the extraction and reconciliation code of the
    repository (src/types.ts with the utilities appended to it, the parser
    service, and the two versions of [handleCompare]), followed by the
    properties of the specification that were checked against it.

    Conventions of the embedding.
    - A JavaScript string is a [string]: a sequence of code units, one
      [ascii] per unit.  The authority document is read with
      [readAsText(file, "ISO-8859-1")], so its code units are the 256
      Latin-1 ones; the functions below are defined on exactly that range.
    - [undefined] and [null] are [None].
    - A JavaScript number is a [JsNumber], an IEEE 754 double: [NaN], an
      infinity, or a finite value with its sign, significand and binary
      exponent.  [parseFloat] rounds the decimal it reads to the nearest
      double, to the even significand on a tie ([Js.ofDecimal]).
    - A [Map] is an association list in insertion order without repeated
      keys, because [Map.prototype.forEach] visits entries in that order. *)

From Stdlib Require Import Bool Arith List Lia NArith ZArith.
From Stdlib Require Import Ascii String.
Import ListNotations.

Local Open Scope string_scope.
Local Open Scope list_scope.
Local Open Scope nat_scope.

(* ================================================================= *)
(** ** JavaScript primitives used by the sources *)

Module Js.

(** Code units, by number. *)
Definition code (c : ascii) : nat := nat_of_ascii c.

Definition between (lo hi : nat) (c : ascii) : bool :=
  (lo <=? code c) && (code c <=? hi).

(** The character class [0-9]. *)
Definition isDigit (c : ascii) : bool := between 48 57 c.

(** The character class [a-z]. *)
Definition isLowerAz (c : ascii) : bool := between 97 122 c.

(** [length === 0] and truthiness of a string. *)
Definition isEmpty (s : string) : bool :=
  match s with EmptyString => true | String _ _ => false end.

(** A string value used as a condition: [undefined], [null] and [''] are
    falsy. *)
Definition truthy (v : option string) : bool :=
  match v with None => false | Some s => negb (isEmpty s) end.

(** [a || b] on strings. *)
Definition orElse (v : option string) (d : string) : string :=
  match v with
  | Some s => if isEmpty s then d else s
  | None => d
  end.

Fixpoint filter (p : ascii -> bool) (s : string) : string :=
  match s with
  | EmptyString => EmptyString
  | String c r => if p c then String c (filter p r) else filter p r
  end.

Fixpoint count (p : ascii -> bool) (s : string) : nat :=
  match s with
  | EmptyString => 0
  | String c r => (if p c then 1 else 0) + count p r
  end.

Fixpoint all (p : ascii -> bool) (s : string) : bool :=
  match s with
  | EmptyString => true
  | String c r => p c && all p r
  end.

Fixpoint mapStr (f : ascii -> ascii) (s : string) : string :=
  match s with
  | EmptyString => EmptyString
  | String c r => String (f c) (mapStr f r)
  end.

(** [s.startsWith(p)]. *)
Fixpoint startsWith (s p : string) : bool :=
  match p, s with
  | EmptyString, _ => true
  | String _ _, EmptyString => false
  | String a p', String b s' => Ascii.eqb a b && startsWith s' p'
  end.

(** [s.includes(sub)]. *)
Fixpoint includes (s sub : string) : bool :=
  startsWith s sub ||
  match s with
  | EmptyString => false
  | String _ r => includes r sub
  end.

(** [s.substring(a, b)] for [a <= b]; both ends are clamped to the
    length of [s], as [String.substring] does. *)
Definition substring (s : string) (a b : nat) : string :=
  String.substring a (b - a) s.

(** [s.replace(pat, rep)] with a string pattern: only the first
    occurrence is replaced. *)
Fixpoint dropN (n : nat) (s : string) : string :=
  match n, s with
  | O, _ => s
  | S n', String _ r => dropN n' r
  | S _, EmptyString => EmptyString
  end.

Fixpoint replaceFirst (s pat rep : string) : string :=
  if startsWith s pat then rep ++ dropN (String.length pat) s
  else match s with
       | EmptyString => EmptyString
       | String c r => String c (replaceFirst r pat rep)
       end.

(** [String.prototype.toLowerCase] on Latin-1: A-Z, and the accented
    capitals U+00C0-U+00DE except the multiplication sign U+00D7. *)
Definition lowerChar (c : ascii) : ascii :=
  if between 65 90 c then ascii_of_nat (code c + 32)
  else if between 192 222 c && negb (code c =? 215)
       then ascii_of_nat (code c + 32)
       else c.

Definition toLowerCase (s : string) : string := mapStr lowerChar s.

(** White space and line terminators of Latin-1, as stripped by [trim]
    and skipped by [parseFloat]. *)
Definition isSpace (c : ascii) : bool :=
  between 9 13 c || (code c =? 32) || (code c =? 160).

Fixpoint trimStart (s : string) : string :=
  match s with
  | EmptyString => EmptyString
  | String c r => if isSpace c then trimStart r else s
  end.

(** [trimEnd], right to left: a character is dropped when it is white
    space and everything after it has been dropped. *)
Fixpoint trimEnd (s : string) : string :=
  match s with
  | EmptyString => EmptyString
  | String c r =>
      let r' := trimEnd r in
      if isSpace c && isEmpty r' then EmptyString else String c r'
  end.

Definition trim (s : string) : string := trimEnd (trimStart s).

(** *** Numbers *)

(** A number is a double.  [Num neg m e] is the finite number
    [(-1)^neg * m * 2^e]; the numbers computed below have [m < 2^53] and
    [-1074 <= e <= 971], with [2^52 <= m] unless [e = -1074] (the
    subnormal numbers), and the two zeros are [Num neg 0 0]. *)
Inductive JsNumber : Type :=
| NaN
| Infinity (neg : bool)
| Num (neg : bool) (m : N) (e : Z).

(** The literal [0]. *)
Definition zero : JsNumber := Num false 0%N 0%Z.

Section Rounding.

Local Open Scope Z_scope.

(** The least and the greatest exponent of a 53-bit significand. *)
Definition emin : Z := -1074.
Definition emax : Z := 971.

(** [p / q] rounded to an integer: to the nearest one, and to the even
    one when two are equally near. *)
Definition roundHalfEven (p q : Z) : Z :=
  let d := p / q in
  match 2 * (p mod q) ?= q with
  | Lt => d
  | Gt => d + 1
  | Eq => if Z.even d then d else d + 1
  end.

(** [2^e] as a fraction of integers, [pow2n e / pow2d e]. *)
Definition pow2n (e : Z) : Z := 2 ^ Z.max 0 e.
Definition pow2d (e : Z) : Z := 2 ^ Z.max 0 (- e).

(** [p / (q * 2^e)] rounded to an integer. *)
Definition scaled (p q e : Z) : Z :=
  roundHalfEven (p * pow2d e) (q * pow2n e).

(** [2^e <= p / q]. *)
Definition reaches (p q e : Z) : bool :=
  q * pow2n e <=? p * pow2d e.

(** The binary exponent of [p / q], for positive [p] and [q]: the [l]
    with [2^l <= p / q < 2^(l+1)]. *)
Definition log2Ratio (p q : Z) : Z :=
  let l := Z.log2 p - Z.log2 q in
  if reaches p q l then l else l - 1.

(** The Number value of [(-1)^neg * p / q], for [0 <= p] and [0 < q]:
    the significand is [p / q] scaled into 53 bits (fewer for a subnormal
    number) and rounded; a significand rounded up to [2^53] moves to the
    next exponent, and an exponent above [emax] gives an infinity. *)
Definition ofRatio (neg : bool) (p q : Z) : JsNumber :=
  if p =? 0 then Num neg 0 0
  else
    let e := Z.max (log2Ratio p q - 52) emin in
    let m := scaled p q e in
    let '(m, e) := if m =? 2 ^ 53 then (2 ^ 52, e + 1) else (m, e) in
    if emax <? e then Infinity neg
    else if m =? 0 then Num neg 0 0
    else Num neg (Z.to_N m) e.

(** The Number value of the decimal [(-1)^neg * m * 10^e]: the nearest
    double, whatever the number of digits, as the engines in use compute
    it (the standard leaves them a choice after the twentieth significant
    digit). *)
Definition ofDecimal (neg : bool) (m : N) (e : Z) : JsNumber :=
  ofRatio neg (Z.of_N m * 10 ^ Z.max 0 e) (10 ^ Z.max 0 (- e)).

(** A finite candidate [m * 2^e] for the double nearest to [p / q]: it
    has a significand and an exponent as described at [JsNumber], is at
    most half a unit [2^e] away from [p / q], has an even [m] when it is
    exactly half a unit away, and, where the doubles below it are spaced
    by [2^(e-1)] only, is at most a quarter of a unit above [p / q]. *)
Definition nearestFinite (p q m e : Z) : Prop :=
  0 < m < 2 ^ 53 /\ emin <= e <= emax /\
  (2 ^ 52 <= m \/ e = emin) /\
  2 * Z.abs (m * (q * pow2n e) - p * pow2d e) <= q * pow2n e /\
  (2 * Z.abs (m * (q * pow2n e) - p * pow2d e) = q * pow2n e ->
   Z.even m = true) /\
  (m = 2 ^ 52 -> emin < e ->
   4 * (m * (q * pow2n e) - p * pow2d e) <= q * pow2n e).

(** [x] is the double nearest to [(-1)^neg * p / q], for positive [p]
    and [q]: an infinity from [2^1024 - 2^970] on, a zero up to
    [2^(-1075)], and a finite candidate otherwise.  There is one such
    double ([nearest_unique]). *)
Definition nearest (neg : bool) (p q : Z) (x : JsNumber) : Prop :=
  match x with
  | NaN => False
  | Infinity s => s = neg /\ (2 ^ 1024 - 2 ^ 970) * q <= p
  | Num s m e =>
      s = neg /\
      ((m = 0%N /\ e = 0 /\ 2 ^ 1075 * p <= q) \/
       nearestFinite p q (Z.of_N m) e)
  end.

(** [x] is the number [(-1)^neg * p / q] itself. *)
Definition exactly (neg : bool) (p q : Z) (x : JsNumber) : Prop :=
  match x with
  | Num s m e => s = neg /\ Z.of_N m * pow2n e * q = p * pow2d e
  | _ => False
  end.

End Rounding.

(** The leading run of digits and what follows it. *)
Fixpoint spanDigits (s : string) : string * string :=
  match s with
  | EmptyString => (EmptyString, EmptyString)
  | String c r =>
      if isDigit c
      then let '(d, rest) := spanDigits r in (String c d, rest)
      else (EmptyString, s)
  end.

(** Value of a run of decimal digits, most significant first. *)
Fixpoint digitsValue (acc : N) (s : string) : N :=
  match s with
  | EmptyString => acc
  | String c r => digitsValue (acc * 10 + N.of_nat (code c - 48))%N r
  end.

(** An optional sign. *)
Definition takeSign (s : string) : bool * string :=
  match s with
  | String c r =>
      if Ascii.eqb c "-" then (true, r)
      else if Ascii.eqb c "+" then (false, r)
      else (false, s)
  | EmptyString => (false, s)
  end.

(** An optional exponent part: [e] or [E], an optional sign, and at least
    one digit.  Without a digit the exponent is not part of the literal. *)
Definition exponentPart (s : string) : Z :=
  match s with
  | String c r =>
      if Ascii.eqb c "e" || Ascii.eqb c "E" then
        let '(neg, r1) := takeSign r in
        let '(ds, _) := spanDigits r1 in
        if isEmpty ds then 0%Z
        else let v := Z.of_N (digitsValue 0%N ds) in
             if neg then Z.opp v else v
      else 0%Z
  | EmptyString => 0%Z
  end.

(** [parseFloat]: leading white space is skipped, then the longest prefix
    that is a [StrDecimalLiteral] is read, and the result is the Number
    value of that decimal; [NaN] when there is no such prefix. *)
Definition parseFloat (s : string) : JsNumber :=
  let t := trimStart s in
  let '(neg, t1) := takeSign t in
  if startsWith t1 "Infinity" then Infinity neg
  else
    let '(ip, t2) := spanDigits t1 in
    let '(fp, t3) :=
      match t2 with
      | String c r => if Ascii.eqb c "." then spanDigits r
                      else (EmptyString, t2)
      | EmptyString => (EmptyString, t2)
      end in
    if isEmpty ip && isEmpty fp then NaN
    else ofDecimal neg (digitsValue 0%N (ip ++ fp))
                   (exponentPart t3 - Z.of_nat (String.length fp))%Z.

End Js.

(* ================================================================= *)
(** ** Utilities: [normalizeKey], [extractDateFromKey], [normalizeHeader] *)

(** [key.replace(/[^0-9]/g, '')], after the guard [if (!key) return '']. *)
Definition normalizeKey (key : option string) : string :=
  match key with
  | None => ""
  | Some k => if Js.isEmpty k then "" else Js.filter Js.isDigit k
  end.

Definition extractDateFromKey (key : string) : string :=
  let cleanKey := normalizeKey (Some key) in
  if negb (String.length cleanKey =? 44) then ""
  else
    let yy := Js.substring cleanKey 2 4 in
    let mm := Js.substring cleanKey 4 6 in
    mm ++ "/20" ++ yy.

(** [normalize("NFD")] followed by the removal of U+0300-U+036F, on
    Latin-1 text that has been lower-cased: an accented letter is replaced
    by its base letter.  The letters without a canonical decomposition
    (ae, eth, o-slash, thorn, sharp s) are left as they are. *)
Definition stripAccent (c : ascii) : ascii :=
  let n := Js.code c in
  if Js.between 192 197 c || Js.between 224 229 c
  then (if n <? 224 then "A"%char else "a"%char)
  else if (n =? 199) then "C"%char
  else if (n =? 231) then "c"%char
  else if Js.between 200 203 c then "E"%char
  else if Js.between 232 235 c then "e"%char
  else if Js.between 204 207 c then "I"%char
  else if Js.between 236 239 c then "i"%char
  else if (n =? 209) then "N"%char
  else if (n =? 241) then "n"%char
  else if Js.between 210 214 c then "O"%char
  else if Js.between 242 246 c then "o"%char
  else if Js.between 217 220 c then "U"%char
  else if Js.between 249 252 c then "u"%char
  else if (n =? 221) then "Y"%char
  else if (n =? 253) || (n =? 255) then "y"%char
  else c.

(** [replace(/[^a-z0-9]+/g, "_")]: every maximal run of other characters
    becomes one underscore.  [inRun] tells that the previous character was
    already part of such a run. *)
Fixpoint collapseRuns (inRun : bool) (s : string) : string :=
  match s with
  | EmptyString => EmptyString
  | String c r =>
      if Js.isLowerAz c || Js.isDigit c
      then String c (collapseRuns false r)
      else if inRun then collapseRuns true r
           else String "_" (collapseRuns true r)
  end.

Definition normalizeHeader (text : option string) : string :=
  match text with
  | None => ""
  | Some t =>
      if Js.isEmpty t then ""
      else collapseRuns false
             (Js.mapStr stripAccent (Js.toLowerCase (Js.trim t)))
  end.

(* ================================================================= *)
(** ** Data model (src/types.ts) *)

(** Latin-1 letters of the Portuguese messages, by code unit. *)
Definition a_acute : string := String "225"%char "".
Definition a_tilde : string := String "227"%char "".
Definition c_cedilla : string := String "231"%char "".

(** One cell of a row of [sheet_to_json(..., {header: 1, raw: false})]:
    the formatted text of the cell, or [None] where the sparse row array
    has no element (a hole, read as [undefined]).  The [null] that the
    library stores for some error cells is not modelled. *)
Definition Cell : Type := option string.

Module AccountingRecord.
(** [numero] is declared [string]; the extractor stores [undefined]
    there when the number cell of the row is absent. *)
Record t : Type := mk {
  id : string;
  numero : option string;
  dataEmissao : string;
  valor : Js.JsNumber;
  chave : string;
  sourceRow : list Cell
}.
End AccountingRecord.

Module SefazRecord.
Record t : Type := mk {
  id : string;
  chave : string;
  numero : string;
  serie : string;
  situacao : string;
  emitente : string;
  data : string;
  sourceRow : list string
}.
End SefazRecord.

Inductive MatchStatus : Type :=
| MATCHED
| MISSING_IN_ACCOUNTING
| MISSING_IN_SEFAZ
| CANCELLED.

(** The string value of each member of the enum. *)
Definition MatchStatus_value (s : MatchStatus) : string :=
  match s with
  | MATCHED => "Lan" ++ c_cedilla ++ "ada"
  | MISSING_IN_ACCOUNTING => "N" ++ a_tilde ++ "o Lan" ++ c_cedilla ++ "ada"
  | MISSING_IN_SEFAZ => "N" ++ a_tilde ++ "o encontrada na SEFAZ"
  | CANCELLED => "Cancelada"
  end.

Module ComparisonResult.
Record t : Type := mk {
  id : string;
  chave : string;
  numero : option string;
  serie : string;
  data : string;
  valor : Js.JsNumber;
  situacaoSefaz : string;
  status : MatchStatus;
  sefazRecord : option SefazRecord.t;
  accountingRecord : option AccountingRecord.t
}.
End ComparisonResult.

(* ================================================================= *)
(** ** Thrown errors *)

(** What a [throw] inside the [try] block hands to [reject]: an
    [Error] built by the code, or the [TypeError] of a method call on
    [undefined]. *)
Inductive exn : Type :=
| Error (message : string)
| TypeError.

Inductive result (A : Type) : Type :=
| Ok (a : A)
| Throw (e : exn).

Arguments Ok {A} a.
Arguments Throw {A} e.

Definition bind {A B : Type} (r : result A) (k : A -> result B) : result B :=
  match r with
  | Ok a => k a
  | Throw e => Throw e
  end.

Notation "x <- c ;; k" := (bind c (fun x => k))
  (at level 61, c at next level, right associativity).

(* ================================================================= *)
(** ** The parser service *)

Module Parser.

(** *** Excel parser *)

(** [headers.findIndex(p)] where [p] calls [h.includes(...)]: the
    callback is also invoked on the holes of [headers], where the method
    call on [undefined] throws.  [None] is the index [-1]. *)
Fixpoint findIndex (p : string -> bool) (headers : list (option string))
         (i : nat) : result (option nat) :=
  match headers with
  | [] => Ok None
  | None :: _ => Throw TypeError
  | Some h :: rest => if p h then Ok (Some i) else findIndex p rest (S i)
  end.

(** [row[idx]], where [idx] may be [-1] and the element may be missing. *)
Definition at_ (row : list Cell) (idx : option nat) : Cell :=
  match idx with
  | None => None
  | Some i => match nth_error row i with
              | Some c => c
              | None => None
              end
  end.

(** [replace(/\./g, '')]. *)
Definition removePeriods (s : string) : string :=
  Js.filter (fun c => negb (Ascii.eqb c ".")) s.

(** [parseFloat(cell?.toString().replace('R$', '').replace(/\./g, '')
    .replace(',', '.') || '0')]. *)
Definition parseValor (cell : Cell) : Js.JsNumber :=
  Js.parseFloat
    (Js.orElse
       (option_map
          (fun s => Js.replaceFirst
                      (removePeriods (Js.replaceFirst s "R$" "")) "," ".")
          cell)
       "0").

Definition isSome {A : Type} (o : option A) : bool :=
  match o with Some _ => true | None => false end.

(** The body of the loop over the data rows: [None] is [continue], [Some]
    is the record pushed. *)
Definition accountingRow (idxChave idxNumero idxValor idxData : option nat)
           (row : list Cell) : option AccountingRecord.t :=
  if (List.length row =? 0) then None
  else
    let rawKey := at_ row idxChave in
    match rawKey with
    | None => None
    | Some raw =>
        if Js.isEmpty raw then None
        else
          let chaveStr := normalizeKey (Some raw) in
          let dataEmissao :=
            if isSome idxData then at_ row idxData else Some "" in
          (* if (!dataEmissao) dataEmissao = extractDateFromKey(chaveStr) *)
          let dataEmissao :=
            Js.orElse dataEmissao (extractDateFromKey chaveStr) in
          Some {| AccountingRecord.id := chaveStr;
                  AccountingRecord.chave := chaveStr;
                  AccountingRecord.numero :=
                    if isSome idxNumero then at_ row idxNumero
                    else Some "";
                  AccountingRecord.valor :=
                    if isSome idxValor then parseValor (at_ row idxValor)
                    else Js.zero;
                  AccountingRecord.dataEmissao := dataEmissao;
                  AccountingRecord.sourceRow := row |}
    end.

(** The loop [for (let i = 1; i < jsonData.length; i++)]. *)
Fixpoint accountingRows (idxChave idxNumero idxValor idxData : option nat)
         (rows : list (list Cell)) : list AccountingRecord.t :=
  match rows with
  | [] => []
  | row :: rest =>
      match accountingRow idxChave idxNumero idxValor idxData row with
      | Some r =>
          r :: accountingRows idxChave idxNumero idxValor idxData rest
      | None => accountingRows idxChave idxNumero idxValor idxData rest
      end
  end.

Definition emptyFileMessage : string :=
  "Arquivo vazio ou inv" ++ a_acute ++ "lido.".

Definition missingKeyColumnMessage : string :=
  "Coluna 'Chave' ou 'ChaveNFe' n" ++ a_tilde
    ++ "o encontrada no arquivo cont" ++ a_acute ++ "bil.".

(** [jsonData[0].map(h => normalizeHeader(h))]: [map] leaves the holes of
    the header row in place. *)
Definition headersOf (row0 : list Cell) : list (option string) :=
  List.map (option_map (fun h => normalizeHeader (Some h))) row0.

(** The four callbacks passed to [headers.findIndex]. *)
Definition isChaveHeader (h : string) : bool :=
  Js.includes h "chave" || Js.includes h "chavenfe".

Definition isNumeroHeader (h : string) : bool :=
  String.eqb h "numero" || String.eqb h "numero_nota"
  || Js.includes h "nota".

Definition isValorHeader (h : string) : bool :=
  Js.includes h "valor" || Js.includes h "contabil".

Definition isDataHeader (h : string) : bool :=
  Js.includes h "emissao" || Js.includes h "data".

(** The [onload] handler of [parseAccountingFile], from the rows that
    [XLSX.utils.sheet_to_json] returned for the first sheet.  [Ok] is
    [resolve(records)], [Throw] is [reject(err)]. *)
Definition parseAccountingFile (jsonData : list (list Cell))
  : result (list AccountingRecord.t) :=
  match jsonData with
  | [] => Throw (Error emptyFileMessage)
  | row0 :: dataRows =>
      let headers := headersOf row0 in
      idxChave <- findIndex isChaveHeader headers 0 ;;
      idxNumero <- findIndex isNumeroHeader headers 0 ;;
      idxValor <- findIndex isValorHeader headers 0 ;;
      idxData <- findIndex isDataHeader headers 0 ;;
      match idxChave with
      | None => Throw (Error missingKeyColumnMessage)
      | Some _ =>
          Ok (accountingRows idxChave idxNumero idxValor idxData dataRows)
      end
  end.

(** *** HTML parser *)

(** A [td] or [th] element, as far as the parser reads it. *)
Record HtmlCell : Type := mkCell {
  textContent : string;
  innerText : string
}.

(** [table.rows], each row given by its [cells]. *)
Definition HtmlTable : Type := list (list HtmlCell).

(** [headerMap]: an object used as a dictionary from role name to column
    index.  An assignment is put in front; a read returns the first
    binding of the name. *)
Definition HeaderMap : Type := list (string * nat).

Fixpoint lookup (key : string) (headerMap : HeaderMap) : option nat :=
  match headerMap with
  | [] => None
  | (k, idx) :: rest => if String.eqb k key then Some idx
                        else lookup key rest
  end.

Definition requiredHeaders : list string := ["chave"; "situacao"].

Definition hasAll (cellTexts : list string) : bool :=
  forallb (fun req => existsb (fun txt => Js.includes txt req) cellTexts)
          requiredHeaders.

(** The body of [cellTexts.forEach((txt, idx) => ...)]. *)
Definition assignRole (headerMap : HeaderMap) (txt : string) (idx : nat)
  : HeaderMap :=
  if Js.includes txt "chave" then ("chave", idx) :: headerMap
  else if Js.includes txt "situacao" then ("situacao", idx) :: headerMap
  else if Js.includes txt "numero" || String.eqb txt "nota"
       then ("numero", idx) :: headerMap
  else if Js.includes txt "serie" then ("serie", idx) :: headerMap
  else if Js.includes txt "emitente" && negb (Js.includes txt "cnpj")
       then ("emitente", idx) :: headerMap
  else if Js.includes txt "data" || Js.includes txt "emissao"
       then ("data", idx) :: headerMap
  else headerMap.

Fixpoint buildHeaderMap (headerMap : HeaderMap) (cellTexts : list string)
         (idx : nat) : HeaderMap :=
  match cellTexts with
  | [] => headerMap
  | txt :: rest => buildHeaderMap (assignRole headerMap txt idx) rest (S idx)
  end.

(** The loop [for (r = 0; r < Math.min(rows.length, 5); r++)]; [left] is
    the number of rows that may still be examined. *)
Fixpoint searchRows (rows : list (list HtmlCell)) (left : nat)
  : option HeaderMap :=
  match left, rows with
  | S left', cells :: rest =>
      let cellTexts :=
        List.map (fun c => normalizeHeader
                             (Some (Js.orElse (Some (textContent c)) "")))
                 cells in
      if hasAll cellTexts then Some (buildHeaderMap [] cellTexts 0)
      else searchRows rest left'
  | _, _ => None
  end.

(** The loop [for (const table of tables)]. *)
Fixpoint searchTables (tables : list HtmlTable)
  : option (HtmlTable * HeaderMap) :=
  match tables with
  | [] => None
  | table :: rest =>
      match searchRows table 5 with
      | Some headerMap => Some (table, headerMap)
      | None => searchTables rest
      end
  end.

Definition cellAt (cells : list HtmlCell) (idx : option nat)
  : option HtmlCell :=
  match idx with
  | None => None
  | Some i => nth_error cells i
  end.

(** The closure [getVal]. *)
Definition getVal (headerMap : HeaderMap) (cells : list HtmlCell)
           (key : string) : string :=
  match cellAt cells (lookup key headerMap) with
  | Some c => Js.orElse (Some (Js.trim (textContent c))) ""
  | None => ""
  end.

(** The test [cells[headerMap['chave']]?.textContent?.toLowerCase()
    .includes('chave')]. *)
Definition isHeaderRow (headerMap : HeaderMap) (cells : list HtmlCell)
  : bool :=
  match cellAt cells (lookup "chave" headerMap) with
  | Some c => Js.includes (Js.toLowerCase (textContent c)) "chave"
  | None => false
  end.

(** The body of [for (const row of rows)]: [None] when nothing is
    pushed. *)
Definition sefazRow (headerMap : HeaderMap) (cells : list HtmlCell)
  : option SefazRecord.t :=
  if List.length cells <? 3 then None
  else if isHeaderRow headerMap cells then None
  else
    let chave := normalizeKey (Some (getVal headerMap cells "chave")) in
    let data := getVal headerMap cells "data" in
    let data := if Js.isEmpty data then extractDateFromKey chave
                else data in
    if negb (Js.isEmpty chave) && (20 <? String.length chave)
    then Some {| SefazRecord.id := chave;
                 SefazRecord.chave := chave;
                 SefazRecord.numero := getVal headerMap cells "numero";
                 SefazRecord.serie := getVal headerMap cells "serie";
                 SefazRecord.situacao := getVal headerMap cells "situacao";
                 SefazRecord.emitente := getVal headerMap cells "emitente";
                 SefazRecord.data := data;
                 SefazRecord.sourceRow := List.map innerText cells |}
    else None.

Fixpoint sefazRows (headerMap : HeaderMap) (rows : list (list HtmlCell))
  : list SefazRecord.t :=
  match rows with
  | [] => []
  | cells :: rest =>
      match sefazRow headerMap cells with
      | Some r => r :: sefazRows headerMap rest
      | None => sefazRows headerMap rest
      end
  end.

Definition tableNotFoundMessage : string :=
  "Tabela de notas n" ++ a_tilde
    ++ "o encontrada no HTML. Verifique se salvou a p" ++ a_acute
    ++ "gina corretamente.".

(** The [onload] handler of [parseSefazHtml], from the tables that
    [doc.querySelectorAll("table")] returned, in document order. *)
Definition parseSefazHtml (tables : list HtmlTable)
  : result (list SefazRecord.t) :=
  match searchTables tables with
  | None => Throw (Error tableNotFoundMessage)
  | Some (targetTable, headerMap) => Ok (sefazRows headerMap targetTable)
  end.

End Parser.

(* ================================================================= *)
(** ** [Map<string, AccountingRecord>] *)

Module JsMap.
Section Entries.
Variable V : Type.

Definition t : Type := list (string * V).

Definition empty : t := [].

Fixpoint get (k : string) (m : t) : option V :=
  match m with
  | [] => None
  | (k', v) :: rest => if String.eqb k' k then Some v else get k rest
  end.

(** [set] keeps the position of a key that is already present and
    appends a new key at the end. *)
Fixpoint set (k : string) (v : V) (m : t) : t :=
  match m with
  | [] => [(k, v)]
  | (k', v') :: rest =>
      if String.eqb k' k then (k, v) :: rest
      else (k', v') :: set k v rest
  end.

Fixpoint delete (k : string) (m : t) : t :=
  match m with
  | [] => []
  | (k', v') :: rest =>
      if String.eqb k' k then rest else (k', v') :: delete k rest
  end.

(** The values, in the order in which [forEach] visits them. *)
Definition values (m : t) : list V := List.map snd m.

Definition keys (m : t) : list string := List.map fst m.
End Entries.

Arguments empty {V}.
Arguments get {V} k m.
Arguments set {V} k v m.
Arguments delete {V} k m.
Arguments values {V} m.
Arguments keys {V} m.
End JsMap.

(* ================================================================= *)
(** ** The component state that [handleCompare] reads and writes *)

Record AppState : Type := mkState {
  accountingData : list AccountingRecord.t;
  sefazData : list SefazRecord.t;
  results : list ComparisonResult.t;
  isCompared : bool;
  currentPage : nat;
  error : option string
}.

Definition setError (st : AppState) (e : option string) : AppState :=
  {| accountingData := accountingData st; sefazData := sefazData st;
     results := results st; isCompared := isCompared st;
     currentPage := currentPage st; error := e |}.

Definition setResults (st : AppState) (r : list ComparisonResult.t)
  : AppState :=
  {| accountingData := accountingData st; sefazData := sefazData st;
     results := r; isCompared := isCompared st;
     currentPage := currentPage st; error := error st |}.

Definition setIsCompared (st : AppState) (b : bool) : AppState :=
  {| accountingData := accountingData st; sefazData := sefazData st;
     results := results st; isCompared := b;
     currentPage := currentPage st; error := error st |}.

Definition setCurrentPage (st : AppState) (p : nat) : AppState :=
  {| accountingData := accountingData st; sefazData := sefazData st;
     results := results st; isCompared := isCompared st;
     currentPage := p; error := error st |}.

Definition bothFilesMessage : string :=
  "Por favor, carregue ambos os arquivos antes de confrontar.".

(** The callback [item => { if (item.chave) mapAccounting.set(item.chave,
    item) }], identical in both versions. *)
Definition addItem (mapAccounting : JsMap.t AccountingRecord.t)
           (item : AccountingRecord.t) : JsMap.t AccountingRecord.t :=
  if negb (Js.isEmpty (AccountingRecord.chave item))
  then JsMap.set (AccountingRecord.chave item) item mapAccounting
  else mapAccounting.

(** [mapAccounting] after [accountingData.forEach]. *)
Definition buildMapAccounting (accountingData : list AccountingRecord.t)
  : JsMap.t AccountingRecord.t :=
  fold_left addItem accountingData JsMap.empty.

(** [sefaz.situacao.toLowerCase().includes('cancelada')]. *)
Definition isCancelada (sefaz : SefazRecord.t) : bool :=
  Js.includes (Js.toLowerCase (SefazRecord.situacao sefaz)) "cancelada".

(** The object pushed for an authority record, given [match] and the
    [status] computed for it; identical in both versions. *)
Definition sefazResult (sefaz : SefazRecord.t)
           (match_ : option AccountingRecord.t) (status : MatchStatus)
  : ComparisonResult.t :=
  {| ComparisonResult.id := SefazRecord.chave sefaz;
     ComparisonResult.chave := SefazRecord.chave sefaz;
     ComparisonResult.numero := Some (SefazRecord.numero sefaz);
     ComparisonResult.serie := SefazRecord.serie sefaz;
     ComparisonResult.data :=
       Js.orElse (Some (SefazRecord.data sefaz))
                 (extractDateFromKey (SefazRecord.chave sefaz));
     ComparisonResult.valor :=
       match match_ with
       | Some m => AccountingRecord.valor m
       | None => Js.zero
       end;
     ComparisonResult.situacaoSefaz := SefazRecord.situacao sefaz;
     ComparisonResult.status := status;
     ComparisonResult.sefazRecord := Some sefaz;
     ComparisonResult.accountingRecord := match_ |}.

(** *** src/App.tsx: only the authority records are reported *)

Module AppTsx.

(** The body of [sefazData.forEach(sefaz => ...)]. *)
Definition compareStep (mapAccounting : JsMap.t AccountingRecord.t)
           (comparison : list ComparisonResult.t) (sefaz : SefazRecord.t)
  : list ComparisonResult.t :=
  let match_ := JsMap.get (SefazRecord.chave sefaz) mapAccounting in
  let status := MISSING_IN_ACCOUNTING in
  let status :=
    if isCancelada sefaz then CANCELLED
    else if Parser.isSome match_ then MATCHED
    else status in
  comparison ++ [sefazResult sefaz match_ status].

Definition handleCompare (st : AppState) : AppState :=
  if (List.length (accountingData st) =? 0)
     || (List.length (sefazData st) =? 0)
  then setError st (Some bothFilesMessage)
  else
    let mapAccounting := buildMapAccounting (accountingData st) in
    let comparison :=
      fold_left (compareStep mapAccounting) (sefazData st) [] in
    setCurrentPage (setIsCompared (setResults st comparison) true) 1.

End AppTsx.

(** *** src/unnamed/part_002: the ledger records left in the map are
    reported as well *)

Module Part002.

Definition missingInFileText : string :=
  "N" ++ a_tilde ++ "o encontrada no arquivo".

(** The body of [sefazData.forEach(sefaz => ...)]; the map is part of
    the state because the [MATCHED] branch deletes from it. *)
Definition compareStep
           (acc : JsMap.t AccountingRecord.t * list ComparisonResult.t)
           (sefaz : SefazRecord.t)
  : JsMap.t AccountingRecord.t * list ComparisonResult.t :=
  let '(mapAccounting, comparison) := acc in
  let match_ := JsMap.get (SefazRecord.chave sefaz) mapAccounting in
  let status := MISSING_IN_ACCOUNTING in
  let '(status, mapAccounting) :=
    if isCancelada sefaz then (CANCELLED, mapAccounting)
    else if Parser.isSome match_
         then (MATCHED, JsMap.delete (SefazRecord.chave sefaz) mapAccounting)
         else (status, mapAccounting) in
  (mapAccounting, comparison ++ [sefazResult sefaz match_ status]).

(** The object pushed by [mapAccounting.forEach((acc) => ...)]. *)
Definition remainingResult (acc : AccountingRecord.t) : ComparisonResult.t :=
  {| ComparisonResult.id := AccountingRecord.chave acc;
     ComparisonResult.chave := AccountingRecord.chave acc;
     ComparisonResult.numero := AccountingRecord.numero acc;
     ComparisonResult.serie := "";
     ComparisonResult.data :=
       Js.orElse (Some (AccountingRecord.dataEmissao acc))
                 (extractDateFromKey (AccountingRecord.chave acc));
     ComparisonResult.valor := AccountingRecord.valor acc;
     ComparisonResult.situacaoSefaz := missingInFileText;
     ComparisonResult.status := MISSING_IN_SEFAZ;
     ComparisonResult.sefazRecord := None;
     ComparisonResult.accountingRecord := Some acc |}.

Definition handleCompare (st : AppState) : AppState :=
  if (List.length (accountingData st) =? 0)
     || (List.length (sefazData st) =? 0)
  then setError st (Some bothFilesMessage)
  else
    let mapAccounting := buildMapAccounting (accountingData st) in
    let '(mapAccounting, comparison) :=
      fold_left compareStep (sefazData st) (mapAccounting, []) in
    let comparison :=
      fold_left (fun comparison acc => comparison ++ [remainingResult acc])
                (JsMap.values mapAccounting) comparison in
    setCurrentPage (setIsCompared (setResults st comparison) true) 1.

End Part002.

(* ================================================================= *)
(** ** Notions used in the statements *)

(** Short names for the key of a ledger record and of an authority
    record. *)
Abbreviation chaveA := AccountingRecord.chave.
Abbreviation chaveS := SefazRecord.chave.

(** [s] contains [sub] when letter case is ignored: some substring [w] of
    [s] lower-cases to [sub]. *)
Definition containsIgnoringCase (s sub : string) : Prop :=
  exists pre w post,
    s = (pre ++ w ++ post)%string /\ Js.toLowerCase w = sub.

(** [a] is the last record of [l] that has its key. *)
Definition lastWithKey (l : list AccountingRecord.t) (a : AccountingRecord.t)
  : Prop :=
  exists l1 l2,
    l = l1 ++ a :: l2 /\
    Forall (fun b => AccountingRecord.chave b <> AccountingRecord.chave a) l2.

(** Some authority record with key [k] is not cancelled. *)
Definition hit (sef : list SefazRecord.t) (k : string) : bool :=
  existsb (fun s => negb (isCancelada s) && String.eqb (SefazRecord.chave s) k)
          sef.

(** The status given to an authority record whose lookup returned
    [match_]. *)
Definition classify (sefaz : SefazRecord.t)
           (match_ : option AccountingRecord.t) : MatchStatus :=
  if isCancelada sefaz then CANCELLED
  else if Parser.isSome match_ then MATCHED
  else MISSING_IN_ACCOUNTING.

(** The entries of [m] whose key is the key of no authority record that is
    not cancelled. *)
Definition pending (sef : list SefazRecord.t)
           (m : JsMap.t AccountingRecord.t) : JsMap.t AccountingRecord.t :=
  List.filter (fun e => negb (hit sef (fst e))) m.

(** Every entry of [m] is filed under the non-empty key of its record. *)
Definition wellKeyed (m : JsMap.t AccountingRecord.t) : Prop :=
  forall k a, In (k, a) m -> AccountingRecord.chave a = k /\ k <> "".

(** What links an authority record [s] to the result [r] pushed for it,
    when the pass starts from the map [m]: [r] is built from [s] and from a
    lookup result that, if present, is an entry of [m] under the key of
    [s]. *)
Definition resultOf (m : JsMap.t AccountingRecord.t) (s : SefazRecord.t)
           (r : ComparisonResult.t) : Prop :=
  exists match_,
    r = sefazResult s match_ (classify s match_) /\
    (forall a, match_ = Some a -> In (SefazRecord.chave s, a) m).

(** What is left of the text of a value cell: the text with the first
    [R$] removed, all periods removed and the first comma turned into a
    period. *)
Definition strippedText (s : string) : string :=
  Js.replaceFirst (Parser.removePeriods (Js.replaceFirst s "R$" "")) "," ".".

(** The value read from a value cell: the cell text with the first [R$]
    removed, all periods removed and the first comma turned into a period,
    parsed by [parseFloat]; [0] when the cell is absent or nothing is left
    of its text. *)
Definition valueOfCell (c : Cell) : Js.JsNumber :=
  match c with
  | None => Js.zero
  | Some s =>
      let t := strippedText s in
      if Js.isEmpty t then Js.zero else Js.parseFloat t
  end.

(** A text begins with a number when, after leading white space and an
    optional sign, it goes on with [Infinity], with a digit, or with a
    period followed by a digit. *)
Definition beginsWithNumber (t : string) : bool :=
  let u := snd (Js.takeSign (Js.trimStart t)) in
  Js.startsWith u "Infinity" ||
  match u with
  | String c r =>
      Js.isDigit c ||
      (Ascii.eqb c "." &&
       match r with String d _ => Js.isDigit d | EmptyString => false end)
  | EmptyString => false
  end.

(** The ledger side of a result [r] computed from the ledger [acc]: a
    ledger record referred back to has a non-empty key, which is the key
    of [r], and is the last of [acc] with that key; the value of [r] is
    the value of that record, or [0] without one; and the statuses
    [MATCHED] and [MISSING_IN_SEFAZ] come with such a record. *)
Definition ledgerSide (acc : list AccountingRecord.t)
           (r : ComparisonResult.t) : Prop :=
  (forall a, ComparisonResult.accountingRecord r = Some a ->
             AccountingRecord.chave a <> "" /\
             AccountingRecord.chave a = ComparisonResult.chave r /\
             lastWithKey acc a) /\
  ComparisonResult.valor r
    = match ComparisonResult.accountingRecord r with
      | Some a => AccountingRecord.valor a
      | None => Js.zero
      end /\
  (ComparisonResult.status r = MATCHED
   \/ ComparisonResult.status r = MISSING_IN_SEFAZ ->
   exists a, ComparisonResult.accountingRecord r = Some a).

(** The data rows from which the ledger extractor builds a record, when
    the key column is column [i]. *)
Definition qualifies (i : nat) (row : list Cell) : bool :=
  negb (List.length row =? 0) && Js.truthy (Parser.at_ row (Some i)).

(* ================================================================= *)
(** ** Sample data *)

Module Sample.

Definition key44 : string :=
  "35240312345678901234567890123456789012345678".

Definition ledger (chave numero : string) (valor : N)
  : AccountingRecord.t :=
  {| AccountingRecord.id := chave;
     AccountingRecord.numero := Some numero;
     AccountingRecord.dataEmissao := "";
     AccountingRecord.valor := Js.ofDecimal false valor 0%Z;
     AccountingRecord.chave := chave;
     AccountingRecord.sourceRow := [Some chave; Some numero] |}.

Definition authority (chave situacao : string) : SefazRecord.t :=
  {| SefazRecord.id := chave;
     SefazRecord.chave := chave;
     SefazRecord.numero := "100";
     SefazRecord.serie := "1";
     SefazRecord.situacao := situacao;
     SefazRecord.emitente := "Emitente";
     SefazRecord.data := "";
     SefazRecord.sourceRow := [chave; situacao] |}.

Definition state (acc : list AccountingRecord.t)
           (sef : list SefazRecord.t) : AppState :=
  {| accountingData := acc; sefazData := sef; results := [];
     isCompared := false; currentPage := 3; error := None |}.

(** A booked invoice that the authority reports as cancelled. *)
Definition cancelledAndBooked : AppState :=
  state [ledger key44 "100" 50] [authority key44 "CANCELADA pelo emitente"].

(** A ledger with a record without key and two records sharing a key,
    none of them known to the authority. *)
Definition repeatedLedgerKey : AppState :=
  state [ledger "" "A" 1; ledger "7" "B" 2; ledger "7" "C" 3]
        [authority "9" "Autorizada"].

(** An authority list that has the same key twice, once cancelled and
    once authorised. *)
Definition cancelledThenAuthorised : AppState :=
  state [ledger "3" "D" 4]
        [authority "3" "Cancelada"; authority "3" "Autorizada"].

Definition otherKey44 : string :=
  "35240398765432109876543210987654321098765432".

(** A ledger sheet whose second data row has a key cell without digits
    and whose third data row has a value cell that is not a number. *)
Definition sheet : list (list Cell) :=
  [ [Some "Chave"; Some "Numero"; Some "Valor"; Some "Emissao"];
    [Some key44; Some "100"; Some "R$ 1.234,56"; Some "01/03/2024"];
    [Some "sem chave"; Some "101"; Some "10,00"; Some "02/03/2024"];
    [Some otherKey44; Some "102"; Some "abc"; Some "03/03/2024"] ].

(** The records that the ledger extractor builds from [sheet]. *)
Definition sheetRecords : list AccountingRecord.t :=
  Eval vm_compute in
    match Parser.parseAccountingFile sheet with
    | Ok records => records
    | Throw _ => []
    end.

(** A sheet without key column. *)
Definition sheetWithoutKey : list (list Cell) :=
  [ [Some "Numero"; Some "Valor"]; [Some "100"; Some "1,00"] ].

(** A sheet without key column whose second header cell is empty: with
    [header: 1] and no [defval], [sheet_to_json] leaves a hole there. *)
Definition sheetWithHole : list (list Cell) :=
  [ [Some "Numero"; None; Some "Valor"];
    [Some "100"; Some "x"; Some "1,00"] ].

Definition td (text : string) : Parser.HtmlCell :=
  {| Parser.textContent := text; Parser.innerText := text |}.

(** An authority page: a banner table, then the invoice table with one
    valid row and one row whose key is too short. *)
Definition page : list Parser.HtmlTable :=
  [ [ [td "Consulta"] ];
    [ [td "Chave de Acesso"; td "Situacao"; td "Numero"];
      [td key44; td " Autorizada "; td "100"];
      [td "1234567890"; td "Autorizada"; td "101"] ] ].

(** The records that the authority extractor builds from [page]. *)
Definition pageRecords : list SefazRecord.t :=
  Eval vm_compute in
    match Parser.parseSefazHtml page with
    | Ok records => records
    | Throw _ => []
    end.

End Sample.

(* ================================================================= *)
(** ** The derived data of the component: statistics, filter, pages,
    export *)

(** These parts of the component are the same in src/App.tsx and in
    src/unnamed/part_002, except that src/App.tsx sorts the filtered
    list before it is cut into pages. *)

(** [Array.prototype.slice(start, end)] with integer arguments. *)
Definition slice {A : Type} (l : list A) (start end_ : Z) : list A :=
  let len := Z.of_nat (List.length l) in
  let k := if (start <? 0)%Z then Z.max (len + start) 0
           else Z.min start len in
  let final := if (end_ <? 0)%Z then Z.max (len + end_) 0
               else Z.min end_ len in
  firstn (Z.to_nat (final - k)) (skipn (Z.to_nat k) l).

Record SummaryStats : Type := mkStats {
  total : nat;
  matched : nat;
  missingInAccounting : nat;
  cancelled : nat;
  others : nat
}.

(** The callback of [results.forEach] inside [stats]. *)
Definition countResult (s : SummaryStats) (r : ComparisonResult.t)
  : SummaryStats :=
  match ComparisonResult.status r with
  | MATCHED =>
      mkStats (total s) (S (matched s)) (missingInAccounting s)
              (cancelled s) (others s)
  | MISSING_IN_ACCOUNTING =>
      mkStats (total s) (matched s) (S (missingInAccounting s))
              (cancelled s) (others s)
  | CANCELLED =>
      mkStats (total s) (matched s) (missingInAccounting s)
              (S (cancelled s)) (others s)
  | MISSING_IN_SEFAZ =>
      mkStats (total s) (matched s) (missingInAccounting s)
              (cancelled s) (S (others s))
  end.

Definition stats (results : list ComparisonResult.t) : SummaryStats :=
  fold_left countResult results (mkStats (List.length results) 0 0 0 0).

(** [matchesText]: [r.numero?.toLowerCase().includes(...)] is [undefined],
    hence falsy, when [numero] is [undefined]. *)
Definition matchesText (filterText : string) (r : ComparisonResult.t)
  : bool :=
  match ComparisonResult.numero r with
  | Some numero =>
      Js.includes (Js.toLowerCase numero) (Js.toLowerCase filterText)
  | None => false
  end
  || Js.includes (ComparisonResult.chave r) filterText
  || Js.includes (Js.toLowerCase (ComparisonResult.situacaoSefaz r))
                 (Js.toLowerCase filterText).

(** [matchesStatus]: the status of a result is compared through the
    string value of the enum. *)
Definition matchesStatus (statusFilter : string) (r : ComparisonResult.t)
  : bool :=
  String.eqb statusFilter "all"
  || String.eqb (MatchStatus_value (ComparisonResult.status r)) statusFilter.

Definition filteredResults (results : list ComparisonResult.t)
           (filterText statusFilter : string) : list ComparisonResult.t :=
  List.filter (fun r => matchesText filterText r && matchesStatus statusFilter r)
              results.

(** The values of the options of the status [select]. *)
Definition statusOptions : list string :=
  ["all"; MatchStatus_value MATCHED; MatchStatus_value MISSING_IN_ACCOUNTING;
   MatchStatus_value CANCELLED].

Definition itemsPerPage : nat := 100.

(** [Math.ceil(length / itemsPerPage)].  An array has fewer than 2^32
    elements, and in that range the floating-point quotient has the
    ceiling of the exact one. *)
Definition totalPages (length : nat) : nat :=
  (length + (itemsPerPage - 1)) / itemsPerPage.

Definition paginatedData (processedResults : list ComparisonResult.t)
           (currentPage : nat) : list ComparisonResult.t :=
  slice processedResults
        ((Z.of_nat currentPage - 1) * Z.of_nat itemsPerPage)
        (Z.of_nat currentPage * Z.of_nat itemsPerPage).

Definition startRecordIndex (currentPage : nat) : Z :=
  (Z.of_nat currentPage - 1) * Z.of_nat itemsPerPage + 1.

Definition endRecordIndex (length currentPage : nat) : Z :=
  Z.min (Z.of_nat currentPage * Z.of_nat itemsPerPage) (Z.of_nat length).

(** The updaters of the two page buttons: [p => Math.max(1, p - 1)] and
    [p => Math.min(totalPages, p + 1)]. *)
Definition previousPage (p : Z) : Z := Z.max 1 (p - 1).

Definition nextPage (totalPages : Z) (p : Z) : Z := Z.min totalPages (p + 1).

(** Latin-1 letters of the report titles. *)
Definition o_acute : string := String "243"%char "".
Definition e_circumflex : string := String "234"%char "".

Definition pendingReportTitle : string :=
  "Relat" ++ o_acute ++ "rio de Pend" ++ e_circumflex ++ "ncias (N"
    ++ a_tilde ++ "o Lan" ++ c_cedilla ++ "adas)".

Definition fullReportTitle : string :=
  "Relat" ++ o_acute ++ "rio Completo de Confronto".

(** The test of the filter inside [handleExportPDF]. *)
Definition isPending (r : ComparisonResult.t) : bool :=
  match ComparisonResult.status r with
  | MISSING_IN_ACCOUNTING =>
      negb (Js.includes (Js.toLowerCase (ComparisonResult.situacaoSefaz r))
                        "cancelada")
  | _ => false
  end.

(** [handleExportPDF]: the two arguments it passes to [exportToPdf]. *)
Definition handleExportPDF (results : list ComparisonResult.t)
           (onlyPending : bool) : list ComparisonResult.t * string :=
  let dataToExport :=
    if onlyPending then List.filter isPending results else results in
  (dataToExport, if onlyPending then pendingReportTitle else fullReportTitle).

(** *** Sorting state (src/App.tsx only) *)

(** [keyof ComparisonResult]. *)
Inductive ResultKey : Type :=
| k_id | k_chave | k_numero | k_serie | k_data | k_valor
| k_situacaoSefaz | k_status | k_sefazRecord | k_accountingRecord.

Inductive SortDirection : Type := asc | desc.

Record SortConfig : Type := mkSort {
  sortKey : ResultKey;
  direction : SortDirection
}.

Definition ResultKey_eqb (a b : ResultKey) : bool :=
  match a, b with
  | k_id, k_id | k_chave, k_chave | k_numero, k_numero | k_serie, k_serie
  | k_data, k_data | k_valor, k_valor | k_situacaoSefaz, k_situacaoSefaz
  | k_status, k_status | k_sefazRecord, k_sefazRecord
  | k_accountingRecord, k_accountingRecord => true
  | _, _ => false
  end.

(** [handleSort]: the new value of [sortConfig]; [None] is [null]. *)
Definition handleSort (sortConfig : option SortConfig) (key : ResultKey)
  : option SortConfig :=
  let direction :=
    match sortConfig with
    | Some c =>
        if ResultKey_eqb (sortKey c) key
           && match direction c with asc => true | desc => false end
        then desc else asc
    | None => asc
    end in
  Some (mkSort key direction).

(* ================================================================= *)
(** ** The PDF service (src/unnamed/part_001) *)

Module PdfService.

(** One row of [tableData]; the first cell is [undefined] when the result
    has no number. *)
Definition tableRow (row : ComparisonResult.t) : list (option string) :=
  [ ComparisonResult.numero row;
    Some (ComparisonResult.serie row);
    Some (ComparisonResult.chave row);
    Some (ComparisonResult.data row);
    Some (ComparisonResult.situacaoSefaz row);
    Some (MatchStatus_value (ComparisonResult.status row)) ].

Definition tableData (data : list ComparisonResult.t)
  : list (list (option string)) :=
  List.map tableRow data.

Inductive TableSection : Type := head | body | foot.

Definition isBody (s : TableSection) : bool :=
  match s with body => true | _ => false end.

(** [raw === value] for a cell content that may be [undefined]. *)
Definition rawIs (raw : option string) (value : string) : bool :=
  match raw with Some s => String.eqb s value | None => false end.

(** The hook [didParseCell]: the text colour it assigns to the cell, or
    [None] when it leaves the cell style alone. *)
Definition didParseCell (section : TableSection) (columnIndex : nat)
           (raw : option string) : option (nat * nat * nat) :=
  if isBody section && (columnIndex =? 5) then
    if rawIs raw (MatchStatus_value MATCHED) then Some (46, 125, 50)
    else if rawIs raw (MatchStatus_value MISSING_IN_ACCOUNTING)
         then Some (198, 40, 40)
    else if rawIs raw (MatchStatus_value CANCELLED) then Some (239, 108, 0)
    else None
  else None.

End PdfService.

(* ================================================================= *)
(** ** Notions used in the further statements *)

(** The characters that a normalized header is made of. *)
Definition isTokenChar (c : ascii) : bool :=
  Js.isLowerAz c || Js.isDigit c || Ascii.eqb c "_".

(** No two underscores in a row; [prev] tells that the character before
    is an underscore. *)
Fixpoint singleUnderscores (prev : bool) (s : string) : bool :=
  match s with
  | EmptyString => true
  | String c r =>
      if Ascii.eqb c "_" then negb prev && singleUnderscores true r
      else singleUnderscores false r
  end.

(** The first and the last character of a string. *)
Definition firstChar (s : string) : option ascii :=
  match s with EmptyString => None | String c _ => Some c end.

Fixpoint lastChar (s : string) : option ascii :=
  match s with
  | EmptyString => None
  | String c EmptyString => Some c
  | String _ r => lastChar r
  end.

(** [s] neither begins nor ends with white space. *)
Definition trimmed (s : string) : Prop :=
  (forall c, firstChar s = Some c -> Js.isSpace c = false) /\
  (forall c, lastChar s = Some c -> Js.isSpace c = false).

(** The texts of the cells of a row of an HTML table, normalized as the
    header search does. *)
Definition cellTextsOf (cells : list Parser.HtmlCell) : list string :=
  List.map (fun c => normalizeHeader
                       (Some (Js.orElse (Some (Parser.textContent c)) "")))
           cells.

(** The number of results with a given status. *)
Definition countStatus (st : MatchStatus) (results : list ComparisonResult.t)
  : nat :=
  List.length
    (List.filter
       (fun r => String.eqb (MatchStatus_value (ComparisonResult.status r))
                            (MatchStatus_value st))
       results).

(** The pages 1 to [n] of a list, one after the other. *)
Fixpoint pagesUpTo (l : list ComparisonResult.t) (n : nat)
  : list ComparisonResult.t :=
  match n with
  | O => []
  | S n' => pagesUpTo l n' ++ paginatedData l n
  end.

(** A letter without its case and without its accent. *)
Definition foldCase (c : ascii) : ascii := stripAccent (Js.lowerChar c).

(* ================================================================= *)
(** ** Strings *)

Section StringFacts.

Lemma isEmpty_true (s : string) : Js.isEmpty s = true <-> s = "".
Proof. destruct s; simpl; split; congruence. Qed.

Lemma isEmpty_false (s : string) : Js.isEmpty s = false <-> s <> "".
Proof. destruct s; simpl; split; congruence. Qed.

Lemma filter_all (p : ascii -> bool) (s : string) :
  Js.all p (Js.filter p s) = true.
Proof.
  induction s as [|c r IH]; simpl; [reflexivity|].
  destruct (p c) eqn:E; simpl; [rewrite E|]; assumption.
Qed.

Lemma filter_length (p : ascii -> bool) (s : string) :
  String.length (Js.filter p s) = Js.count p s.
Proof.
  induction s as [|c r IH]; simpl; [reflexivity|].
  destruct (p c); simpl; congruence.
Qed.

Lemma mapStr_app (f : ascii -> ascii) (a b : string) :
  Js.mapStr f (a ++ b)%string = (Js.mapStr f a ++ Js.mapStr f b)%string.
Proof. induction a as [|c r IH]; simpl; congruence. Qed.

Lemma startsWith_app (p r : string) :
  Js.startsWith (p ++ r)%string p = true.
Proof.
  induction p as [|c p IH]; simpl.
  - now destruct r.
  - now rewrite Ascii.eqb_refl.
Qed.

Lemma includes_unfold (s sub : string) :
  Js.includes s sub
  = Js.startsWith s sub
    || match s with
       | EmptyString => false
       | String _ r => Js.includes r sub
       end.
Proof. destruct s; reflexivity. Qed.

Lemma includes_app (pre sub post : string) :
  Js.includes (pre ++ sub ++ post)%string sub = true.
Proof.
  induction pre as [|c pre IH].
  - rewrite includes_unfold. simpl append.
    now rewrite startsWith_app.
  - change (String c pre ++ sub ++ post)%string
      with (String c (pre ++ sub ++ post)%string).
    rewrite includes_unfold, IH. apply orb_true_r.
Qed.

Lemma containsIgnoringCase_includes (s sub : string) :
  containsIgnoringCase s sub ->
  Js.includes (Js.toLowerCase s) sub = true.
Proof.
  intros (pre & w & post & -> & <-).
  unfold Js.toLowerCase. rewrite !mapStr_app. apply includes_app.
Qed.

Lemma all_get (p : ascii -> bool) (s : string) (n : nat) (c : ascii) :
  Js.all p s = true -> String.get n s = Some c -> p c = true.
Proof.
  revert n. induction s as [|d r IH]; simpl; intros n Hall Hget.
  - discriminate.
  - apply andb_prop in Hall as [Hd Hr].
    destruct n; [congruence | eauto].
Qed.

End StringFacts.

(* ================================================================= *)
(** ** Numbers: rounding to a double *)

Section NumberFacts.

Local Open Scope Z_scope.

Ltac max_cases :=
  repeat match goal with
         | |- context [Z.max ?x ?y] =>
             first [ replace (Z.max x y) with x by lia
                   | replace (Z.max x y) with y by lia ]
         end.

Lemma pow2n_pos (e : Z) : 0 < Js.pow2n e.
Proof. unfold Js.pow2n. apply Z.pow_pos_nonneg; lia. Qed.

Lemma pow2d_pos (e : Z) : 0 < Js.pow2d e.
Proof. unfold Js.pow2d. apply Z.pow_pos_nonneg; lia. Qed.

(** [2^(a+k) = 2^k * 2^a], on the fractions. *)
Lemma pow2_shift (a k : Z) :
  0 <= k ->
  Js.pow2n (a + k) * Js.pow2d a = 2 ^ k * Js.pow2n a * Js.pow2d (a + k).
Proof.
  intros Hk. unfold Js.pow2n, Js.pow2d.
  destruct (Z.le_gt_cases 0 a) as [Ha|Ha];
    [|destruct (Z.le_gt_cases 0 (a + k)) as [Hb|Hb]]; max_cases;
    rewrite <- !Z.pow_add_r by lia; f_equal; lia.
Qed.

(** [2^a / 2^b = 2^(a-b)], on the fractions. *)
Lemma pow2_diff (a b : Z) :
  0 <= a -> 0 <= b -> 2 ^ a * Js.pow2d (a - b) = 2 ^ b * Js.pow2n (a - b).
Proof.
  intros Ha Hb. unfold Js.pow2n, Js.pow2d.
  destruct (Z.le_gt_cases b a) as [H|H]; max_cases;
    rewrite <- !Z.pow_add_r by lia; f_equal; lia.
Qed.

(** [2^(e+k) <= p/q] says [2^k <= p / (q * 2^e)]. *)
Lemma reaches_scale (p q e k : Z) :
  0 <= k ->
  q * Js.pow2n (e + k) <= p * Js.pow2d (e + k) <->
  2 ^ k * (q * Js.pow2n e) <= p * Js.pow2d e.
Proof.
  intros Hk.
  pose proof (pow2_shift e k Hk) as E.
  pose proof (pow2d_pos e) as HB. pose proof (pow2d_pos (e + k)) as HB'.
  set (A := Js.pow2n e) in *. set (B := Js.pow2d e) in *.
  set (A' := Js.pow2n (e + k)) in *. set (B' := Js.pow2d (e + k)) in *.
  set (K := 2 ^ k) in *.
  assert (E' : q * A' * B = K * (q * A) * B')
    by (replace (q * A' * B) with (q * (A' * B)) by ring; rewrite E; ring).
  rewrite (Z.mul_le_mono_pos_r (q * A') (p * B') B HB).
  rewrite (Z.mul_le_mono_pos_r (K * (q * A)) (p * B) B' HB').
  rewrite E'. replace (p * B' * B) with (p * B * B') by ring. reflexivity.
Qed.

(** [p/q < 2^a] and [a <= c] give [p/q < 2^c]. *)
Lemma below_pow2_mono (p q a c : Z) :
  0 < q -> a <= c ->
  p * Js.pow2d a < q * Js.pow2n a -> p * Js.pow2d c < q * Js.pow2n c.
Proof.
  intros Hq Hac H. apply Z.nle_gt. intros C.
  replace c with (a + (c - a)) in C by lia.
  apply reaches_scale in C; [|lia].
  assert (Hk : 1 <= 2 ^ (c - a))
    by (apply Z.lt_pred_le, Z.pow_pos_nonneg; lia).
  assert (HD : 0 < q * Js.pow2n a)
    by (pose proof (pow2n_pos a); apply Z.mul_pos_pos; lia).
  assert (q * Js.pow2n a <= 2 ^ (c - a) * (q * Js.pow2n a)) by nia.
  lia.
Qed.

(** The exponent that [log2Ratio] computes is the binary exponent. *)
Lemma log2Ratio_spec (p q : Z) :
  0 < p -> 0 < q ->
  let l := Js.log2Ratio p q in
  q * Js.pow2n l <= p * Js.pow2d l /\
  p * Js.pow2d (l + 1) < q * Js.pow2n (l + 1).
Proof.
  intros Hp Hq.
  destruct (Z.log2_spec p Hp) as [Hp1 Hp2].
  destruct (Z.log2_spec q Hq) as [Hq1 Hq2].
  pose proof (Z.log2_nonneg p) as Hlp. pose proof (Z.log2_nonneg q) as Hlq.
  set (lp := Z.log2 p) in *. set (lq := Z.log2 q) in *.
  assert (Hup : p * Js.pow2d (lp - lq + 1) < q * Js.pow2n (lp - lq + 1)).
  { pose proof (pow2_diff (lp + 1) lq ltac:(lia) Hlq) as E.
    replace (lp + 1 - lq) with (lp - lq + 1) in E by lia.
    pose proof (pow2n_pos (lp - lq + 1)).
    pose proof (pow2d_pos (lp - lq + 1)).
    replace (Z.succ lp) with (lp + 1) in Hp2 by lia.
    assert (p * Js.pow2d (lp - lq + 1)
            < 2 ^ (lp + 1) * Js.pow2d (lp - lq + 1))
      by (apply Z.mul_lt_mono_pos_r; lia).
    assert (2 ^ lq * Js.pow2n (lp - lq + 1) <= q * Js.pow2n (lp - lq + 1))
      by (apply Z.mul_le_mono_nonneg_r; lia).
    lia. }
  assert (Hlo : q * Js.pow2n (lp - lq - 1) <= p * Js.pow2d (lp - lq - 1)).
  { pose proof (pow2_diff lp (lq + 1) Hlp ltac:(lia)) as E.
    replace (lp - (lq + 1)) with (lp - lq - 1) in E by lia.
    pose proof (pow2n_pos (lp - lq - 1)).
    pose proof (pow2d_pos (lp - lq - 1)).
    replace (Z.succ lq) with (lq + 1) in Hq2 by lia.
    assert (q * Js.pow2n (lp - lq - 1)
            <= 2 ^ (lq + 1) * Js.pow2n (lp - lq - 1))
      by (apply Z.mul_le_mono_nonneg_r; lia).
    assert (2 ^ lp * Js.pow2d (lp - lq - 1) <= p * Js.pow2d (lp - lq - 1))
      by (apply Z.mul_le_mono_nonneg_r; lia).
    lia. }
  unfold Js.log2Ratio. fold lp lq. unfold Js.reaches.
  destruct (Z.leb_spec (q * Js.pow2n (lp - lq)) (p * Js.pow2d (lp - lq)))
    as [H|H]; cbv zeta.
  - split; assumption.
  - split; [assumption|].
    replace (lp - lq - 1 + 1) with (lp - lq) by lia. exact H.
Qed.

(** Rounding to an integer is off by a half at most, and by a half only
    towards an even integer. *)
Lemma roundHalfEven_spec (p q : Z) :
  0 <= p -> 0 < q ->
  2 * Z.abs (Js.roundHalfEven p q * q - p) <= q /\
  (2 * Z.abs (Js.roundHalfEven p q * q - p) = q ->
   Z.even (Js.roundHalfEven p q) = true).
Proof.
  intros Hp Hq. unfold Js.roundHalfEven.
  pose proof (Z.div_mod p q ltac:(lia)) as E.
  pose proof (Z.mod_pos_bound p q Hq) as B.
  set (d := p / q) in *. set (r := p mod q) in *.
  destruct (Z.compare_spec (2 * r) q) as [C|C|C].
  - destruct (Z.even d) eqn:Ev.
    + split; [lia | intros _; exact Ev].
    + split; [lia|]. intros _.
      rewrite Z.even_add, Ev. reflexivity.
  - split; lia.
  - split; lia.
Qed.

(** What lies between two integers is rounded to an integer between
    them. *)
Lemma roundHalfEven_between (p q a b : Z) :
  0 <= p -> 0 < q -> a * q <= p -> p <= b * q ->
  a <= Js.roundHalfEven p q <= b.
Proof.
  intros Hp Hq Ha Hb. unfold Js.roundHalfEven.
  pose proof (Z.div_mod p q ltac:(lia)) as E.
  pose proof (Z.mod_pos_bound p q Hq) as B.
  set (d := p / q) in *. set (r := p mod q) in *.
  assert (a <= d) by nia.
  assert (d <= b) by nia.
  assert (r = 0 \/ d + 1 <= b) by nia.
  destruct (Z.compare_spec (2 * r) q); [destruct (Z.even d)|..]; lia.
Qed.

Lemma roundHalfEven_1 (p : Z) : Js.roundHalfEven p 1 = p.
Proof.
  unfold Js.roundHalfEven. rewrite Z.mod_1_r, Z.div_1_r. reflexivity.
Qed.

(** The scaled significand has at most 53 bits before it is rounded up,
    and exactly 53 bits unless the exponent was raised to [emin]. *)
Lemma scaled_bounds (p q : Z) :
  0 < p -> 0 < q ->
  let e := Z.max (Js.log2Ratio p q - 52) Js.emin in
  0 <= Js.scaled p q e <= 2 ^ 53 /\
  (e = Js.log2Ratio p q - 52 -> 2 ^ 52 <= Js.scaled p q e).
Proof.
  intros Hp Hq e.
  destruct (log2Ratio_spec p q Hp Hq) as [Hlo Hup].
  set (L := Js.log2Ratio p q) in *.
  pose proof (pow2n_pos e) as HA. pose proof (pow2d_pos e) as HB.
  assert (HN : 0 <= p * Js.pow2d e) by (apply Z.mul_nonneg_nonneg; lia).
  assert (HD : 0 < q * Js.pow2n e) by (apply Z.mul_pos_pos; lia).
  assert (Hle : p * Js.pow2d e <= 2 ^ 53 * (q * Js.pow2n e)).
  { apply Z.lt_le_incl, Z.nle_gt. intros C.
    apply reaches_scale in C; [|lia].
    assert (Hm : L + 1 <= e + 53) by (subst e; lia).
    pose proof (below_pow2_mono p q _ _ Hq Hm Hup). lia. }
  split.
  - apply roundHalfEven_between; try assumption; lia.
  - intros He.
    apply roundHalfEven_between with (b := 2 ^ 53); try assumption.
    apply reaches_scale; [lia|].
    replace (e + 52) with L by lia. exact Hlo.
Qed.

(** A significand rounded up to [2^53] is [2^52] at the next exponent,
    and then within a quarter of a unit of [p/q]. *)
Lemma half_carry (p q e : Z) :
  0 < q ->
  2 * Z.abs (2 ^ 53 * (q * Js.pow2n e) - p * Js.pow2d e)
  <= q * Js.pow2n e ->
  4 * Z.abs (2 ^ 52 * (q * Js.pow2n (e + 1)) - p * Js.pow2d (e + 1))
  <= q * Js.pow2n (e + 1).
Proof.
  intros Hq H.
  pose proof (pow2_shift e 1 ltac:(lia)) as E.
  pose proof (pow2n_pos e) as HA. pose proof (pow2d_pos e) as HB.
  pose proof (pow2d_pos (e + 1)) as HB'.
  set (A := Js.pow2n e) in *. set (B := Js.pow2d e) in *.
  set (A' := Js.pow2n (e + 1)) in *. set (B' := Js.pow2d (e + 1)) in *.
  change (2 ^ 1) with 2 in E.
  apply Z.mul_le_mono_pos_r with (p := B); [exact HB|].
  assert (EY : (2 ^ 52 * (q * A') - p * B') * B
               = B' * (2 ^ 53 * (q * A) - p * B)).
  { replace ((2 ^ 52 * (q * A') - p * B') * B)
      with (2 ^ 52 * q * (A' * B) - p * B' * B) by ring.
    rewrite E. change (2 ^ 53) with (2 ^ 52 * 2). ring. }
  replace (4 * Z.abs (2 ^ 52 * (q * A') - p * B') * B)
    with (4 * Z.abs ((2 ^ 52 * (q * A') - p * B') * B))
    by (rewrite Z.abs_mul, (Z.abs_eq B); lia).
  rewrite EY, Z.abs_mul, (Z.abs_eq B') by lia.
  replace (q * A' * B) with (2 * (q * A) * B')
    by (replace (q * A' * B) with (q * (A' * B)) by ring; rewrite E; ring).
  assert (0 < q * A) by (apply Z.mul_pos_pos; lia).
  set (X := Z.abs (2 ^ 53 * (q * A) - p * B)) in *.
  set (D := q * A) in *.
  assert (2 * X * B' <= D * B') by (apply Z.mul_le_mono_nonneg_r; lia).
  lia.
Qed.

(** [ofRatio] rounds to the nearest double. *)
Theorem ofRatio_nearest (neg : bool) (p q : Z) :
  0 < p -> 0 < q -> Js.nearest neg p q (Js.ofRatio neg p q).
Proof.
  intros Hp Hq. unfold Js.ofRatio.
  destruct (Z.eqb_spec p 0) as [|_]; [lia|].
  pose proof (scaled_bounds p q Hp Hq) as [[Hm0 Hm1] Hnorm].
  destruct (log2Ratio_spec p q Hp Hq) as [Hlo _].
  set (L := Js.log2Ratio p q) in *.
  set (e := Z.max (L - 52) Js.emin) in *.
  assert (HN : 0 <= p * Js.pow2d e)
    by (pose proof (pow2d_pos e); apply Z.mul_nonneg_nonneg; lia).
  assert (HD : 0 < q * Js.pow2n e)
    by (pose proof (pow2n_pos e); apply Z.mul_pos_pos; lia).
  destruct (roundHalfEven_spec _ _ HN HD) as [Herr Htie].
  fold (Js.scaled p q e) in Herr, Htie.
  set (m := Js.scaled p q e) in *.
  destruct (Z.eqb_spec m (2 ^ 53)) as [Hc|Hc].
  - (* the significand was rounded up to 2^53 *)
    rewrite Hc in Herr.
    destruct (Z.ltb_spec Js.emax (e + 1)) as [Ho|Ho].
    + cbn [Js.nearest]. split; [reflexivity|].
      unfold Js.emax, Js.emin in *.
      assert (He : 0 <= e) by lia.
      unfold Js.pow2n, Js.pow2d in Herr.
      replace (Z.max 0 e) with e in Herr by lia.
      replace (Z.max 0 (- e)) with 0 in Herr by lia.
      change (2 ^ 0) with 1 in Herr. rewrite Z.mul_1_r in Herr.
      assert (Hpw : 2 ^ 971 <= 2 ^ e) by (apply Z.pow_le_mono_r; lia).
      assert (q * 2 ^ 971 <= q * 2 ^ e)
        by (apply Z.mul_le_mono_nonneg_l; lia).
      lia.
    + change (2 ^ 52 =? 0) with false. cbv iota.
      split; [reflexivity|]. right. unfold Js.nearestFinite.
      change (Z.of_N (Z.to_N (2 ^ 52))) with (2 ^ 52).
      pose proof (half_carry p q e Hq Herr) as Hh.
      assert (0 < q * Js.pow2n (e + 1))
        by (pose proof (pow2n_pos (e + 1)); apply Z.mul_pos_pos; lia).
      split; [split; reflexivity|].
      split; [unfold Js.emin, Js.emax in *; lia|].
      split; [left; lia|].
      split; [lia|].
      split; [intros _; reflexivity | intros _ _; lia].
  - destruct (Z.ltb_spec Js.emax e) as [Ho|Ho].
    + cbn [Js.nearest]. split; [reflexivity|].
      unfold Js.emax, Js.emin in *.
      assert (HL : 1024 <= L) by lia.
      unfold Js.pow2n, Js.pow2d in Hlo.
      replace (Z.max 0 L) with L in Hlo by lia.
      replace (Z.max 0 (- L)) with 0 in Hlo by lia.
      change (2 ^ 0) with 1 in Hlo. rewrite Z.mul_1_r in Hlo.
      assert (Hpw : 2 ^ 1024 <= 2 ^ L) by (apply Z.pow_le_mono_r; lia).
      assert (q * 2 ^ 1024 <= q * 2 ^ L)
        by (apply Z.mul_le_mono_nonneg_l; lia).
      lia.
    + destruct (Z.eqb_spec m 0) as [Hz|Hz].
      * split; [reflexivity|]. left.
        split; [reflexivity|]. split; [reflexivity|].
        assert (He : e = Js.emin).
        { destruct (Z.max_spec (L - 52) Js.emin) as [[_ E]|[_ E]];
            [exact E|].
          specialize (Hnorm E). lia. }
        rewrite Hz, He in Herr. unfold Js.emin in Herr.
        change (Js.pow2n (-1074)) with 1 in Herr.
        change (Js.pow2d (-1074)) with (2 ^ 1074) in Herr.
        change (2 ^ 1075) with (2 * 2 ^ 1074). lia.
      * split; [reflexivity|]. right. unfold Js.nearestFinite.
        rewrite Z2N.id by lia.
        split; [lia|].
        split; [unfold e; unfold Js.emin, Js.emax in *; lia|].
        split.
        { destruct (Z.max_spec (L - 52) Js.emin) as [[_ E]|[_ E]];
            [right; exact E | left; apply Hnorm; exact E]. }
        split; [exact Herr|]. split; [exact Htie|].
        intros Hm He.
        assert (E : e = L - 52) by (unfold e, Js.emin in *; lia).
        assert (Hr : 2 ^ 52 * (q * Js.pow2n e) <= p * Js.pow2d e).
        { apply reaches_scale; [lia|].
          replace (e + 52) with L by lia. exact Hlo. }
        rewrite Hm. lia.
Qed.

(** The Number value of a positive decimal is the double nearest to
    it. *)
Lemma ofDecimal_nearest (neg : bool) (m : N) (e : Z) :
  (0 < m)%N ->
  Js.nearest neg (Z.of_N m * 10 ^ Z.max 0 e) (10 ^ Z.max 0 (- e))
             (Js.ofDecimal neg m e).
Proof.
  intros H. apply ofRatio_nearest.
  - apply Z.mul_pos_pos; [lia | apply Z.pow_pos_nonneg; lia].
  - apply Z.pow_pos_nonneg; lia.
Qed.

Lemma ofRatio_not_NaN (neg : bool) (p q : Z) : Js.ofRatio neg p q <> Js.NaN.
Proof.
  unfold Js.ofRatio.
  destruct (p =? 0); [discriminate|].
  destruct (Js.scaled p q _ =? 2 ^ 53);
    destruct (Js.emax <? _); try discriminate;
    destruct (_ =? 0); discriminate.
Qed.

Lemma ofDecimal_not_NaN (neg : bool) (m : N) (e : Z) :
  Js.ofDecimal neg m e <> Js.NaN.
Proof. unfold Js.ofDecimal. apply ofRatio_not_NaN. Qed.

(** A positive integer below [2^53] is a double. *)
Lemma ofRatio_integer (neg : bool) (n : Z) :
  0 < n < 2 ^ 53 ->
  Js.ofRatio neg n 1
  = Js.Num neg (Z.to_N (n * 2 ^ (52 - Z.log2 n))) (Z.log2 n - 52).
Proof.
  intros [Hn Hlt].
  destruct (Z.log2_spec n Hn) as [Hl1 Hl2].
  pose proof (Z.log2_nonneg n) as Hl0.
  assert (Hl : Z.log2 n < 53).
  { apply Z.nle_gt. intros C.
    assert (2 ^ 53 <= 2 ^ Z.log2 n) by (apply Z.pow_le_mono_r; lia). lia. }
  set (l := Z.log2 n) in *.
  assert (HL : Js.log2Ratio n 1 = l).
  { unfold Js.log2Ratio, Js.reaches. fold l. change (Z.log2 1) with 0.
    rewrite Z.sub_0_r. unfold Js.pow2n, Js.pow2d. max_cases.
    change (2 ^ 0) with 1.
    destruct (Z.leb_spec (1 * 2 ^ l) (n * 1)); [reflexivity | lia]. }
  assert (Hs : Js.scaled n 1 (l - 52) = n * 2 ^ (52 - l)).
  { unfold Js.scaled, Js.pow2n, Js.pow2d. max_cases.
    replace (- (l - 52)) with (52 - l) by lia.
    change (1 * 2 ^ 0) with 1. apply roundHalfEven_1. }
  assert (Hb : 0 < n * 2 ^ (52 - l) < 2 ^ 53).
  { assert (0 < 2 ^ (52 - l)) by (apply Z.pow_pos_nonneg; lia).
    split; [apply Z.mul_pos_pos; lia|].
    replace 53 with (Z.succ l + (52 - l)) by lia.
    rewrite Z.pow_add_r by lia.
    apply Z.mul_lt_mono_pos_r; lia. }
  unfold Js.ofRatio. rewrite HL.
  destruct (Z.eqb_spec n 0); [lia|].
  replace (Z.max (l - 52) Js.emin) with (l - 52) by (unfold Js.emin; lia).
  rewrite Hs.
  destruct (Z.eqb_spec (n * 2 ^ (52 - l)) (2 ^ 53)); [lia|].
  destruct (Z.ltb_spec Js.emax (l - 52)); [unfold Js.emax in *; lia|].
  destruct (Z.eqb_spec (n * 2 ^ (52 - l)) 0); [lia | reflexivity].
Qed.

(** The Number value of a whole number below [2^53] is that number. *)
Lemma ofDecimal_integer (neg : bool) (n : N) :
  Z.of_N n < 2 ^ 53 ->
  Js.exactly neg (Z.of_N n) 1 (Js.ofDecimal neg n 0).
Proof.
  intros H. unfold Js.ofDecimal.
  change (10 ^ Z.max 0 0) with 1. change (10 ^ Z.max 0 (- 0)) with 1.
  rewrite Z.mul_1_r.
  destruct (Z.eq_dec (Z.of_N n) 0) as [E|E].
  - rewrite E. cbn. split; reflexivity.
  - rewrite ofRatio_integer by lia. cbn [Js.exactly].
    split; [reflexivity|].
    pose proof (Z.log2_nonneg (Z.of_N n)) as Hl0.
    assert (Hl : Z.log2 (Z.of_N n) < 53).
    { apply Z.nle_gt. intros C.
      destruct (Z.log2_spec (Z.of_N n) ltac:(lia)) as [Hl1 _].
      assert (2 ^ 53 <= 2 ^ Z.log2 (Z.of_N n))
        by (apply Z.pow_le_mono_r; lia). lia. }
    rewrite Z2N.id
      by (apply Z.mul_nonneg_nonneg; [lia | apply Z.pow_nonneg; lia]).
    unfold Js.pow2n, Js.pow2d. max_cases.
    replace (- (Z.log2 (Z.of_N n) - 52))
      with (52 - Z.log2 (Z.of_N n)) by lia.
    ring.
Qed.


(** A bound at the exponent [e + k], read at the exponent [e]. *)
Lemma rescale (p q e k a : Z) :
  0 <= k ->
  (a * (q * Js.pow2n (e + k)) - p * Js.pow2d (e + k)) * Js.pow2d e
  = Js.pow2d (e + k) * (a * 2 ^ k * (q * Js.pow2n e) - p * Js.pow2d e).
Proof.
  intros Hk. pose proof (pow2_shift e k Hk) as E.
  replace ((a * (q * Js.pow2n (e + k)) - p * Js.pow2d (e + k))
           * Js.pow2d e)
    with (a * q * (Js.pow2n (e + k) * Js.pow2d e)
          - p * Js.pow2d (e + k) * Js.pow2d e) by ring.
  rewrite E. ring.
Qed.

Lemma rescale_den (q e k : Z) :
  0 <= k ->
  q * Js.pow2n (e + k) * Js.pow2d e
  = Js.pow2d (e + k) * (2 ^ k * (q * Js.pow2n e)).
Proof.
  intros Hk. pose proof (pow2_shift e k Hk) as E.
  replace (q * Js.pow2n (e + k) * Js.pow2d e)
    with (q * (Js.pow2n (e + k) * Js.pow2d e)) by ring.
  rewrite E. ring.
Qed.

(** Two finite candidates have the same exponent. *)
Lemma nearestFinite_exponent (p q m1 e1 m2 e2 : Z) :
  0 < p -> 0 < q ->
  Js.nearestFinite p q m1 e1 -> Js.nearestFinite p q m2 e2 ->
  e1 < e2 -> False.
Proof.
  intros Hp Hq (Hm1 & He1 & _ & Hb1 & Ht1 & _)
         (Hm2 & He2 & Hn2 & Hb2 & _ & Hq2) Hlt.
  assert (Hn : 2 ^ 52 <= m2) by (destruct Hn2; [assumption | lia]).
  set (k := e2 - e1). assert (Hk : 1 <= k) by (unfold k; lia).
  replace e2 with (e1 + k) in Hb2, Hq2 by (unfold k; lia).
  pose proof (pow2d_pos e1) as HB. pose proof (pow2d_pos (e1 + k)) as HB'.
  pose proof (pow2n_pos e1) as HA.
  pose proof (rescale p q e1 k m2 ltac:(lia)) as R.
  pose proof (rescale_den q e1 k ltac:(lia)) as RD.
  assert (HK : 2 <= 2 ^ k).
  { change 2 with (2 ^ 1) at 1. apply Z.pow_le_mono_r; lia. }
  set (F := q * Js.pow2n e1) in *. set (G := p * Js.pow2d e1) in *.
  set (F' := q * Js.pow2n (e1 + k)) in *.
  set (G' := p * Js.pow2d (e1 + k)) in *.
  set (K := 2 ^ k) in *.
  set (B := Js.pow2d e1) in *. set (B' := Js.pow2d (e1 + k)) in *.
  assert (HF : 0 < F) by (apply Z.mul_pos_pos; lia).
  (* the bounds of the second candidate, at the first exponent *)
  assert (Hb2' : 2 * Z.abs (m2 * K * F - G) <= K * F).
  { apply Z.mul_le_mono_pos_l with (p := B'); [lia|].
    replace (B' * (2 * Z.abs (m2 * K * F - G)))
      with (2 * Z.abs (B' * (m2 * K * F - G)))
      by (rewrite Z.abs_mul, (Z.abs_eq B'); lia).
    rewrite <- R, <- RD, Z.abs_mul, (Z.abs_eq B) by lia.
    replace (2 * (Z.abs (m2 * F' - G') * B))
      with (2 * Z.abs (m2 * F' - G') * B) by ring.
    apply Z.mul_le_mono_nonneg_r; lia. }
  assert (Hq2' : m2 = 2 ^ 52 -> 4 * (m2 * K * F - G) <= K * F).
  { intros E. specialize (Hq2 E ltac:(lia)).
    apply Z.mul_le_mono_pos_l with (p := B'); [lia|].
    replace (B' * (4 * (m2 * K * F - G)))
      with (4 * (B' * (m2 * K * F - G))) by ring.
    rewrite <- R, <- RD.
    replace (4 * ((m2 * F' - G') * B))
      with (4 * (m2 * F' - G') * B) by ring.
    apply Z.mul_le_mono_nonneg_r; lia. }
  clear R RD Hb2 Hq2.
  set (x := K * F) in *.
  assert (Hx : 2 * F <= x) by (unfold x; nia).
  replace (m2 * K * F) with (m2 * x) in * by (unfold x; ring).
  assert (Hu : 2 * G <= (2 ^ 54 - 1) * F).
  { assert (m1 * F <= (2 ^ 53 - 1) * F)
      by (apply Z.mul_le_mono_nonneg_r; lia).
    lia. }
  destruct (Z.eq_dec m2 (2 ^ 52)) as [E|E].
  - specialize (Hq2' E). rewrite E in Hq2'.
    assert (Hm : m1 = 2 ^ 53 - 1).
    { assert (m1 * F < (2 ^ 53 - 1) * F -> False); [|nia].
      intros C. lia. }
    assert (Htie : 2 * Z.abs (m1 * F - G) = F) by (rewrite Hm in *; lia).
    specialize (Ht1 Htie). rewrite Hm in Ht1. discriminate Ht1.
  - assert ((2 ^ 52 + 1) * x <= m2 * x)
      by (apply Z.mul_le_mono_nonneg_r; lia).
    lia.
Qed.

(** Two finite candidates with the same exponent have the same
    significand. *)
Lemma nearestFinite_significand (p q m1 m2 e : Z) :
  0 < q ->
  Js.nearestFinite p q m1 e -> Js.nearestFinite p q m2 e ->
  m1 < m2 -> False.
Proof.
  intros Hq (_ & _ & _ & Hb1 & Ht1 & _) (_ & _ & _ & Hb2 & Ht2 & _) Hlt.
  pose proof (pow2n_pos e) as HA.
  set (F := q * Js.pow2n e) in *. set (G := p * Js.pow2d e) in *.
  assert (HF : 0 < F) by (apply Z.mul_pos_pos; lia).
  assert (Hs : (m1 + 1) * F <= m2 * F)
    by (apply Z.mul_le_mono_nonneg_r; lia).
  assert (Hm : m2 = m1 + 1) by nia.
  subst m2.
  assert (E1 : 2 * Z.abs (m1 * F - G) = F) by lia.
  assert (E2 : 2 * Z.abs ((m1 + 1) * F - G) = F) by lia.
  specialize (Ht1 E1). specialize (Ht2 E2).
  rewrite Z.even_add, Ht1 in Ht2. discriminate Ht2.
Qed.

(** A zero and a finite number are not both nearest. *)
Lemma nearestFinite_not_zero (p q m e : Z) :
  0 < p -> 0 < q ->
  Js.nearestFinite p q m e -> 2 ^ 1075 * p <= q -> False.
Proof.
  intros Hp Hq (Hm & He & Hn & Hb & Ht & _) Hz.
  unfold Js.emin, Js.emax in *.
  destruct (Z.le_gt_cases 0 e) as [H0|H0].
  - unfold Js.pow2n, Js.pow2d in Hb.
    replace (Z.max 0 e) with e in Hb by lia.
    replace (Z.max 0 (- e)) with 0 in Hb by lia.
    change (2 ^ 0) with 1 in Hb.
    assert (0 < 2 ^ e) by (apply Z.pow_pos_nonneg; lia).
    assert (HF : 0 < q * 2 ^ e) by (apply Z.mul_pos_pos; lia).
    assert (q * 1 <= q * 2 ^ e) by (apply Z.mul_le_mono_nonneg_l; lia).
    assert (1 * (q * 2 ^ e) <= m * (q * 2 ^ e))
      by (apply Z.mul_le_mono_nonneg_r; lia).
    lia.
  - unfold Js.pow2n, Js.pow2d in Hb, Ht.
    replace (Z.max 0 e) with 0 in Hb, Ht by lia.
    replace (Z.max 0 (- e)) with (- e) in Hb, Ht by lia.
    change (2 ^ 0) with 1 in Hb, Ht. rewrite Z.mul_1_r in Hb, Ht.
    assert (Hpw : 2 ^ (- e) <= 2 ^ 1074) by (apply Z.pow_le_mono_r; lia).
    assert (Hpp : p * 2 ^ (- e) <= p * 2 ^ 1074)
      by (apply Z.mul_le_mono_nonneg_l; lia).
    assert (1 * q <= m * q) by (apply Z.mul_le_mono_nonneg_r; lia).
    change (2 ^ 1075) with (2 * 2 ^ 1074) in Hz.
    assert (Hm1 : m = 1) by nia.
    subst m. assert (Htie : 2 * Z.abs (1 * q - p * 2 ^ (- e)) = q) by lia.
    specialize (Ht Htie). discriminate Ht.
Qed.

(** An infinity and a finite number are not both nearest. *)
Lemma nearestFinite_not_infinity (p q m e : Z) :
  0 < p -> 0 < q ->
  Js.nearestFinite p q m e -> (2 ^ 1024 - 2 ^ 970) * q <= p -> False.
Proof.
  intros Hp Hq (Hm & He & Hn & Hb & Ht & _) Hi.
  unfold Js.emin, Js.emax in *.
  destruct (Z.le_gt_cases 0 e) as [H0|H0].
  - unfold Js.pow2n, Js.pow2d in Hb, Ht.
    replace (Z.max 0 e) with e in Hb, Ht by lia.
    replace (Z.max 0 (- e)) with 0 in Hb, Ht by lia.
    change (2 ^ 0) with 1 in Hb, Ht. rewrite Z.mul_1_r in Hb, Ht.
    assert (0 < 2 ^ e) by (apply Z.pow_pos_nonneg; lia).
    assert (Hpw : 2 ^ e <= 2 ^ 971) by (apply Z.pow_le_mono_r; lia).
    assert (HF : 0 < q * 2 ^ e) by (apply Z.mul_pos_pos; lia).
    assert (Hqq : q * 2 ^ e <= q * 2 ^ 971)
      by (apply Z.mul_le_mono_nonneg_l; lia).
    assert (Hmm : m * (q * 2 ^ e) <= (2 ^ 53 - 1) * (q * 2 ^ e))
      by (apply Z.mul_le_mono_nonneg_r; lia).
    assert (Hm1 : m = 2 ^ 53 - 1).
    { assert (m * (q * 2 ^ e) < (2 ^ 53 - 1) * (q * 2 ^ e) -> False);
        [|nia].
      intros C. lia. }
    assert (Htie : 2 * Z.abs (m * (q * 2 ^ e) - p) = q * 2 ^ e)
      by (rewrite Hm1 in *; lia).
    specialize (Ht Htie). rewrite Hm1 in Ht. discriminate Ht.
  - unfold Js.pow2n, Js.pow2d in Hb.
    replace (Z.max 0 e) with 0 in Hb by lia.
    replace (Z.max 0 (- e)) with (- e) in Hb by lia.
    change (2 ^ 0) with 1 in Hb. rewrite Z.mul_1_r in Hb.
    assert (Hpw : 1 <= 2 ^ (- e))
      by (apply Z.lt_pred_le, Z.pow_pos_nonneg; lia).
    assert (p * 1 <= p * 2 ^ (- e))
      by (apply Z.mul_le_mono_nonneg_l; lia).
    assert (m * q <= (2 ^ 53 - 1) * q)
      by (apply Z.mul_le_mono_nonneg_r; lia).
    lia.
Qed.

(** There is one nearest double. *)
Theorem nearest_unique (neg : bool) (p q : Z) (x y : Js.JsNumber) :
  0 < p -> 0 < q ->
  Js.nearest neg p q x -> Js.nearest neg p q y -> x = y.
Proof.
  intros Hp Hq Hx Hy.
  destruct x as [|sx|sx mx ex]; [destruct Hx|..];
    (destruct y as [|sy|sy my ey]; [destruct Hy|..]);
    cbn [Js.nearest] in Hx, Hy.
  - destruct Hx as [-> _], Hy as [-> _]. reflexivity.
  - exfalso. destruct Hx as [_ Hi], Hy as [_ [(_ & _ & Hz)|Hf]].
    + lia.
    + exact (nearestFinite_not_infinity _ _ _ _ Hp Hq Hf Hi).
  - exfalso. destruct Hy as [_ Hi], Hx as [_ [(_ & _ & Hz)|Hf]].
    + lia.
    + exact (nearestFinite_not_infinity _ _ _ _ Hp Hq Hf Hi).
  - destruct Hx as [-> Hx], Hy as [-> Hy].
    destruct Hx as [(-> & -> & Hzx)|Hfx], Hy as [(-> & -> & Hzy)|Hfy].
    + reflexivity.
    + exfalso. exact (nearestFinite_not_zero _ _ _ _ Hp Hq Hfy Hzx).
    + exfalso. exact (nearestFinite_not_zero _ _ _ _ Hp Hq Hfx Hzy).
    + assert (He : ex = ey).
      { destruct (Z.lt_trichotomy ex ey) as [C|[C|C]]; [|exact C|];
          exfalso.
        - exact (nearestFinite_exponent _ _ _ _ _ _ Hp Hq Hfx Hfy C).
        - exact (nearestFinite_exponent _ _ _ _ _ _ Hp Hq Hfy Hfx C). }
      subst ey.
      assert (Hm : Z.of_N mx = Z.of_N my).
      { destruct (Z.lt_trichotomy (Z.of_N mx) (Z.of_N my)) as [C|[C|C]];
          [|exact C|]; exfalso.
        - exact (nearestFinite_significand _ _ _ _ _ Hq Hfx Hfy C).
        - exact (nearestFinite_significand _ _ _ _ _ Hq Hfy Hfx C). }
      apply N2Z.inj in Hm. now subst my.
Qed.

End NumberFacts.

(* ================================================================= *)
(** ** The key normalizer *)

Lemma normalizeKey_filter (s : string) :
  normalizeKey (Some s) = Js.filter Js.isDigit s.
Proof. unfold normalizeKey. now destruct s. Qed.

Lemma normalizeKey_all_digits (key : option string) :
  Js.all Js.isDigit (normalizeKey key) = true.
Proof.
  destruct key as [s|]; [|reflexivity].
  rewrite normalizeKey_filter. apply filter_all.
Qed.

Lemma normalizeKey_length (s : string) :
  String.length (normalizeKey (Some s)) = Js.count Js.isDigit s.
Proof. rewrite normalizeKey_filter. apply filter_length. Qed.

(** C8. For every string [s], [normalizeKey s] consists of digit
    characters only and is at most as long as the number of digit
    characters of [s]; for the empty string and for null it is the empty
    string. *)
Theorem normalizeKey_digits_only (key : option string) (s : string) :
  Js.all Js.isDigit (normalizeKey key) = true /\
  String.length (normalizeKey (Some s)) <= Js.count Js.isDigit s /\
  normalizeKey (Some "") = "" /\
  normalizeKey None = "".
Proof.
  repeat split.
  - apply normalizeKey_all_digits.
  - now rewrite normalizeKey_length.
Qed.

(** A string of length 44 shown with its first six characters. *)
Lemma length_44_prefix (k : string) :
  String.length k = 44 ->
  exists c0 c1 c2 c3 c4 c5 rest,
    k = String c0 (String c1 (String c2 (String c3 (String c4
          (String c5 rest))))).
Proof.
  intros H.
  do 6 (destruct k as [|? k]; [discriminate H|]).
  repeat eexists.
Qed.

(** C5. When the digits-only form [k] of the input has length 44,
    [extractDateFromKey] returns the two digits at offsets 4 and 5 of [k],
    then [/20], then the two digits at offsets 2 and 3; when the length of
    [k] is not 44 it returns the empty string. *)
Theorem extractDateFromKey_spec (key : string) :
  let k := normalizeKey (Some key) in
  (String.length k = 44 ->
   exists y1 y2 m1 m2,
     String.get 2 k = Some y1 /\ String.get 3 k = Some y2 /\
     String.get 4 k = Some m1 /\ String.get 5 k = Some m2 /\
     Js.all Js.isDigit (String y1 (String y2 (String m1 (String m2 ""))))
       = true /\
     extractDateFromKey key
       = String m1 (String m2 ("/20" ++ String y1 (String y2 ""))%string)) /\
  (String.length k <> 44 -> extractDateFromKey key = "").
Proof.
  intros k. split.
  - intros Hlen.
    pose proof (normalizeKey_all_digits (Some key)) as Hall. fold k in Hall.
    unfold extractDateFromKey. fold k.
    rewrite (proj2 (Nat.eqb_eq _ _) Hlen). simpl negb. cbv iota.
    destruct (length_44_prefix k Hlen)
      as (c0 & c1 & c2 & c3 & c4 & c5 & rest & Hk).
    rewrite Hk in *.
    exists c2, c3, c4, c5.
    do 4 (split; [reflexivity|]).
    split; [|unfold Js.substring; simpl; now destruct rest].
    simpl in Hall.
    apply andb_prop in Hall as [_ Hall]. apply andb_prop in Hall as [_ Hall].
    apply andb_prop in Hall as [D2 Hall]. apply andb_prop in Hall as [D3 Hall].
    apply andb_prop in Hall as [D4 Hall]. apply andb_prop in Hall as [D5 _].
    simpl. now rewrite D2, D3, D4, D5.
  - intros Hlen. unfold extractDateFromKey. fold k.
    now rewrite (proj2 (Nat.eqb_neq _ _) Hlen).
Qed.

(** C5, on a key with separators and on a key that is too short. *)
Lemma extractDateFromKey_spec_witness :
  (String.length
     (normalizeKey
        (Some "3524 0312 3456 7890 1234 5678 9012 3456 7890 1234 5678"))
   = 44 /\
   extractDateFromKey
     "3524 0312 3456 7890 1234 5678 9012 3456 7890 1234 5678"
   = "03/2024") /\
  (String.length (normalizeKey (Some "352403")) <> 44 /\
   extractDateFromKey "352403" = "").
Proof.
  split; split.
  - reflexivity.
  - destruct (extractDateFromKey_spec
                "3524 0312 3456 7890 1234 5678 9012 3456 7890 1234 5678")
      as [H44 _].
    destruct (H44 eq_refl) as (y1 & y2 & m1 & m2 & E1 & E2 & E3 & E4 & _ & E).
    rewrite E.
    vm_compute in E1, E2, E3, E4.
    injection E1 as <-. injection E2 as <-.
    injection E3 as <-. injection E4 as <-.
    reflexivity.
  - vm_compute. discriminate.
  - apply (extractDateFromKey_spec "352403"). vm_compute. discriminate.
Defined.

(* ================================================================= *)
(** ** The insertion-ordered map *)

Section MapFacts.
Context {V : Type}.
Implicit Types (m : JsMap.t V) (k : string) (v : V).

Lemma get_In m k v : JsMap.get k m = Some v -> In (k, v) m.
Proof.
  induction m as [|[k' v'] m IH]; simpl; [discriminate|].
  destruct (String.eqb k' k) eqn:E.
  - apply String.eqb_eq in E. intros [= ->]. left. now subst.
  - intros H. right. auto.
Qed.

Lemma get_None m k : JsMap.get k m = None <-> ~ In k (JsMap.keys m).
Proof.
  induction m as [|[k' v'] m IH]; simpl.
  - tauto.
  - destruct (String.eqb k' k) eqn:E.
    + apply String.eqb_eq in E. split; [discriminate | tauto].
    + apply String.eqb_neq in E. rewrite IH. tauto.
Qed.

Lemma In_keys m k v : In (k, v) m -> In k (JsMap.keys m).
Proof. intros H. apply (in_map fst) in H. exact H. Qed.

Lemma In_get m k v :
  NoDup (JsMap.keys m) -> In (k, v) m -> JsMap.get k m = Some v.
Proof.
  induction m as [|[k' v'] m IH]; simpl; [tauto|].
  intros Hnd [H | H].
  - injection H as -> ->. now rewrite String.eqb_refl.
  - inversion Hnd as [|? ? Hnotin Hnd']; subst.
    destruct (String.eqb k' k) eqn:E.
    + apply String.eqb_eq in E. subst.
      exfalso. apply Hnotin. eapply In_keys; eauto.
    + auto.
Qed.

Lemma get_set m k k' v :
  JsMap.get k' (JsMap.set k v m)
  = if String.eqb k k' then Some v else JsMap.get k' m.
Proof.
  induction m as [|[k0 v0] m IH]; simpl.
  - reflexivity.
  - destruct (String.eqb k0 k) eqn:E0; simpl.
    + apply String.eqb_eq in E0. subst k0.
      destruct (String.eqb k k'); reflexivity.
    + rewrite IH.
      destruct (String.eqb k0 k') eqn:E1; [|reflexivity].
      apply String.eqb_eq in E1. subst k0. now rewrite String.eqb_sym, E0.
Qed.

Lemma In_set m k v k' v' :
  In (k', v') (JsMap.set k v m) -> (k', v') = (k, v) \/ In (k', v') m.
Proof.
  induction m as [|[k0 v0] m IH]; simpl.
  - intros [H | []]. now left.
  - destruct (String.eqb k0 k); simpl; intros [H | H]; auto.
    destruct (IH H); auto.
Qed.

Lemma keys_set m k v k' :
  In k' (JsMap.keys (JsMap.set k v m)) <-> k' = k \/ In k' (JsMap.keys m).
Proof.
  induction m as [|[k0 v0] m IH]; simpl.
  - intuition congruence.
  - destruct (String.eqb k0 k) eqn:E; simpl.
    + apply String.eqb_eq in E. subst. intuition congruence.
    + rewrite IH. intuition congruence.
Qed.

Lemma NoDup_set m k v :
  NoDup (JsMap.keys m) -> NoDup (JsMap.keys (JsMap.set k v m)).
Proof.
  induction m as [|[k0 v0] m IH]; simpl; intros Hnd.
  - constructor; [intros [] | constructor].
  - inversion Hnd as [|? ? Hnotin Hnd']; subst.
    destruct (String.eqb k0 k) eqn:E; simpl.
    + apply String.eqb_eq in E. subst. now constructor.
    + apply String.eqb_neq in E. constructor; [|auto].
      rewrite keys_set. intros [-> | H]; [congruence | tauto].
Qed.

Lemma filter_true (A : Type) (p : A -> bool) (l : list A) :
  (forall x, In x l -> p x = true) -> List.filter p l = l.
Proof.
  induction l as [|x l IH]; simpl; intros H; [reflexivity|].
  rewrite (H x) by now left. f_equal. apply IH. auto.
Qed.

Lemma filter_twice (A : Type) (p q : A -> bool) (l : list A) :
  List.filter p (List.filter q l) = List.filter (fun x => q x && p x) l.
Proof.
  induction l as [|x l IH]; simpl; [reflexivity|].
  destruct (q x); simpl; [destruct (p x)|]; congruence.
Qed.

(** On a map without repeated keys, [delete] removes every entry with
    the key. *)
Lemma delete_filter m k :
  NoDup (JsMap.keys m) ->
  JsMap.delete k m
  = List.filter (fun e => negb (String.eqb (fst e) k)) m.
Proof.
  induction m as [|[k0 v0] m IH]; simpl; intros Hnd; [reflexivity|].
  inversion Hnd as [|? ? Hnotin Hnd']; subst.
  destruct (String.eqb k0 k) eqn:E; simpl.
  - apply String.eqb_eq in E. subst.
    symmetry. apply filter_true. intros [k1 v1] H1. simpl.
    destruct (String.eqb k1 k) eqn:E1; [|reflexivity].
    apply String.eqb_eq in E1. subst.
    exfalso. apply Hnotin. eapply In_keys; eauto.
  - f_equal. auto.
Qed.

Lemma NoDup_keys_filter m (p : string * V -> bool) :
  NoDup (JsMap.keys m) -> NoDup (JsMap.keys (List.filter p m)).
Proof.
  induction m as [|e m IH]; simpl; intros Hnd; [constructor|].
  inversion Hnd as [|? ? Hnotin Hnd']; subst.
  destruct (p e); simpl; [|auto].
  constructor; [|auto].
  intros H. apply Hnotin.
  unfold JsMap.keys in *. apply in_map_iff in H as (x & <- & Hx).
  apply filter_In in Hx as [Hx _]. now apply in_map.
Qed.

End MapFacts.

(* ================================================================= *)
(** ** Building the key-to-record map *)

Section BuildMap.

Lemma addItem_wellKeyed m item : wellKeyed m -> wellKeyed (addItem m item).
Proof.
  intros Hm k a H. unfold addItem in H.
  destruct (Js.isEmpty (chaveA item)) eqn:E; simpl in H; [now apply Hm|].
  apply In_set in H as [[= -> ->] | H]; [|now apply Hm].
  split; [reflexivity|]. now apply isEmpty_false.
Qed.

Lemma addItem_NoDup m item :
  NoDup (JsMap.keys m) -> NoDup (JsMap.keys (addItem m item)).
Proof.
  intros H. unfold addItem.
  destruct (negb _); [now apply NoDup_set | exact H].
Qed.

Lemma addItem_get_other m item k :
  chaveA item <> k -> JsMap.get k (addItem m item) = JsMap.get k m.
Proof.
  intros Hne. unfold addItem.
  destruct (negb _); [|reflexivity].
  rewrite get_set. now rewrite (proj2 (String.eqb_neq _ _) Hne).
Qed.

Lemma buildMapAccounting_snoc l x :
  buildMapAccounting (l ++ [x]) = addItem (buildMapAccounting l) x.
Proof. unfold buildMapAccounting. now rewrite fold_left_app. Qed.

Lemma buildMapAccounting_wellKeyed l : wellKeyed (buildMapAccounting l).
Proof.
  induction l as [|x l IH] using rev_ind.
  - intros k a [].
  - rewrite buildMapAccounting_snoc. now apply addItem_wellKeyed.
Qed.

Lemma buildMapAccounting_NoDup l :
  NoDup (JsMap.keys (buildMapAccounting l)).
Proof.
  induction l as [|x l IH] using rev_ind.
  - constructor.
  - rewrite buildMapAccounting_snoc. now apply addItem_NoDup.
Qed.

(** A lookup returns the last record of the list that has the key. *)
Lemma buildMapAccounting_get l k a :
  JsMap.get k (buildMapAccounting l) = Some a <->
  lastWithKey l a /\ chaveA a = k /\ k <> "".
Proof.
  revert a. induction l as [|x l IH] using rev_ind; intros a.
  - split; [discriminate|].
    intros [(l1 & l2 & H & _) _]. now destruct l1.
  - rewrite buildMapAccounting_snoc. split.
    + intros H.
      destruct (String.eqb (chaveA x) k) eqn:E.
      * apply String.eqb_eq in E.
        unfold addItem in H.
        destruct (Js.isEmpty (chaveA x)) eqn:Ex; simpl in H.
        -- apply IH in H as (_ & _ & Hk).
           apply isEmpty_true in Ex. congruence.
        -- rewrite get_set, E, String.eqb_refl in H.
           injection H as <-.
           split; [|split; [exact E|]].
           ++ exists l, []. split; [reflexivity | constructor].
           ++ apply isEmpty_false in Ex. congruence.
      * apply String.eqb_neq in E.
        rewrite addItem_get_other in H by exact E.
        apply IH in H as ((l1 & l2 & -> & Hl2) & Ha & Hk).
        split; [|tauto].
        exists l1, (l2 ++ [x]). split; [now rewrite <- app_assoc|].
        apply Forall_app. split; [exact Hl2|].
        constructor; [congruence | constructor].
    + intros ((l1 & l2 & Hl & Hl2) & Ha & Hk).
      destruct l2 as [|y l2 _] using rev_ind.
      * apply app_inj_tail in Hl as [-> <-].
        unfold addItem.
        assert (Js.isEmpty (chaveA x) = false) as ->
            by (apply isEmpty_false; congruence).
        simpl. rewrite get_set, Ha. now rewrite String.eqb_refl.
      * rewrite app_comm_cons, app_assoc in Hl.
        apply app_inj_tail in Hl as [-> ->].
        apply Forall_app in Hl2 as [Hl2 Hy].
        inversion Hy; subst.
        rewrite addItem_get_other by congruence.
        apply IH. split; [|tauto]. now exists l1, l2.
Qed.

Lemma buildMapAccounting_In l k a :
  In (k, a) (buildMapAccounting l) <->
  lastWithKey l a /\ chaveA a = k /\ k <> "".
Proof.
  rewrite <- buildMapAccounting_get. split.
  - apply In_get, buildMapAccounting_NoDup.
  - apply get_In.
Qed.

Lemma lastWithKey_In l a : lastWithKey l a -> In a l.
Proof.
  intros (l1 & l2 & -> & _). apply in_or_app. right. now left.
Qed.

End BuildMap.

(* ================================================================= *)
(** ** The pass over the authority records *)

Section AuthorityPass.

Lemma Forall2_nth_error (A B : Type) (R : A -> B -> Prop) l l' i x :
  Forall2 R l l' -> nth_error l i = Some x ->
  exists y, nth_error l' i = Some y /\ R x y.
Proof.
  intros H. revert i. induction H as [|a b l l' Hab _ IH]; intros i Hi.
  - now destruct i.
  - destruct i as [|i]; simpl in *.
    + injection Hi as <-. eauto.
    + auto.
Qed.

Lemma hit_cons s sef k :
  hit (s :: sef) k
  = (negb (isCancelada s) && String.eqb (chaveS s) k) || hit sef k.
Proof. reflexivity. Qed.

(** src/App.tsx: the map is only read. *)
Lemma AppTsx_pass m sef c :
  fold_left (AppTsx.compareStep m) sef c
  = c ++ List.map (fun s => sefazResult s (JsMap.get (chaveS s) m)
                              (classify s (JsMap.get (chaveS s) m))) sef.
Proof.
  revert c. induction sef as [|s sef IH]; intros c; simpl.
  - now rewrite app_nil_r.
  - rewrite IH. unfold AppTsx.compareStep at 1. cbv zeta.
    now rewrite <- app_assoc.
Qed.

(** part_002: one step, with the cases of the classification. *)
Lemma Part002_step m c s :
  Part002.compareStep (m, c) s
  = (if isCancelada s then m
     else if Parser.isSome (JsMap.get (chaveS s) m)
          then JsMap.delete (chaveS s) m else m,
     c ++ [sefazResult s (JsMap.get (chaveS s) m)
             (classify s (JsMap.get (chaveS s) m))]).
Proof.
  unfold Part002.compareStep, classify.
  destruct (isCancelada s); [reflexivity|].
  destruct (Parser.isSome _); reflexivity.
Qed.

(** part_002: after the pass the map holds the pending entries, and one
    result per authority record has been pushed, in order. *)
Lemma Part002_pass sef : forall m c,
  NoDup (JsMap.keys m) ->
  exists rs,
    fold_left Part002.compareStep sef (m, c) = (pending sef m, c ++ rs) /\
    Forall2 (resultOf m) sef rs.
Proof.
  induction sef as [|s sef IH]; intros m c Hnd.
  - exists []. simpl. split; [|constructor].
    unfold pending. rewrite filter_true by reflexivity.
    now rewrite app_nil_r.
  - change (fold_left Part002.compareStep (s :: sef) (m, c))
      with (fold_left Part002.compareStep sef
              (Part002.compareStep (m, c) s)).
    rewrite Part002_step.
    set (m1 := if isCancelada s then m
               else if Parser.isSome (JsMap.get (chaveS s) m)
                    then JsMap.delete (chaveS s) m else m).
    assert (Hm1 : m1 = List.filter
                    (fun e => negb (negb (isCancelada s)
                                    && String.eqb (chaveS s) (fst e))) m).
    { subst m1. destruct (isCancelada s); simpl.
      - symmetry. now apply filter_true.
      - destruct (JsMap.get (chaveS s) m) eqn:G; simpl.
        + rewrite delete_filter by exact Hnd.
          apply filter_ext. intros e. now rewrite String.eqb_sym.
        + symmetry. apply filter_true. intros [k v] Hin. simpl.
          destruct (String.eqb (chaveS s) k) eqn:E; [|reflexivity].
          apply String.eqb_eq in E. subst k.
          apply get_None in G. exfalso. apply G.
          eapply In_keys; eauto. }
    assert (Hnd1 : NoDup (JsMap.keys m1))
      by (rewrite Hm1; now apply NoDup_keys_filter).
    destruct (IH m1 (c ++ [sefazResult s (JsMap.get (chaveS s) m)
                             (classify s (JsMap.get (chaveS s) m))]) Hnd1)
      as (rs & Hfold & Hrs).
    exists (sefazResult s (JsMap.get (chaveS s) m)
              (classify s (JsMap.get (chaveS s) m)) :: rs).
    split.
    + rewrite Hfold, <- app_assoc. f_equal.
      unfold pending. rewrite Hm1, filter_twice.
      apply filter_ext. intros e. rewrite hit_cons.
      now rewrite negb_orb.
    + constructor.
      * exists (JsMap.get (chaveS s) m). split; [reflexivity|].
        intros a Ha. now apply get_In.
      * eapply Forall2_impl; [|exact Hrs].
        intros s' r' (mt & Hr & Hmt). exists mt. split; [exact Hr|].
        intros a Ha. specialize (Hmt a Ha).
        rewrite Hm1 in Hmt. now apply filter_In in Hmt.
Qed.

Lemma push_all (A B : Type) (f : A -> B) l c :
  fold_left (fun comparison x => comparison ++ [f x]) l c
  = c ++ List.map f l.
Proof.
  revert c. induction l as [|x l IH]; intros c; simpl.
  - now rewrite app_nil_r.
  - now rewrite IH, <- app_assoc.
Qed.

Lemma guard_passes (st : AppState) :
  accountingData st <> [] -> sefazData st <> [] ->
  (List.length (accountingData st) =? 0)
  || (List.length (sefazData st) =? 0) = false.
Proof.
  intros Ha Hs.
  destruct (accountingData st); [congruence|].
  destruct (sefazData st); [congruence|]. reflexivity.
Qed.

(** The result list of src/App.tsx. *)
Lemma AppTsx_results (st : AppState) :
  accountingData st <> [] -> sefazData st <> [] ->
  Forall2 (resultOf (buildMapAccounting (accountingData st)))
          (sefazData st) (results (AppTsx.handleCompare st)).
Proof.
  intros Ha Hs. unfold AppTsx.handleCompare.
  rewrite guard_passes by assumption. simpl results.
  rewrite AppTsx_pass. simpl app.
  induction (sefazData st) as [|s sef IH]; simpl; constructor.
  - exists (JsMap.get (chaveS s) (buildMapAccounting (accountingData st))).
    split; [reflexivity|]. intros a H. now apply get_In.
  - destruct sef; [constructor|]. apply IH. discriminate.
Qed.

(** The result list of part_002. *)
Lemma Part002_results (st : AppState) :
  accountingData st <> [] -> sefazData st <> [] ->
  exists rs,
    results (Part002.handleCompare st)
    = rs ++ List.map Part002.remainingResult
              (JsMap.values
                 (pending (sefazData st)
                          (buildMapAccounting (accountingData st)))) /\
    Forall2 (resultOf (buildMapAccounting (accountingData st)))
            (sefazData st) rs.
Proof.
  intros Ha Hs. unfold Part002.handleCompare.
  rewrite guard_passes by assumption.
  destruct (Part002_pass (sefazData st)
              (buildMapAccounting (accountingData st)) []
              (buildMapAccounting_NoDup _)) as (rs & Hfold & Hrs).
  rewrite Hfold. simpl results. rewrite push_all.
  exists rs. split; [reflexivity | exact Hrs].
Qed.

End AuthorityPass.

(* ================================================================= *)
(** ** Reconciliation *)

Section Reconciliation.

Lemma Forall2_In_r (A B : Type) (R : A -> B -> Prop) l l' y :
  Forall2 R l l' -> In y l' -> exists x, In x l /\ R x y.
Proof.
  induction 1 as [|a b l l' Hab _ IH]; simpl; [tauto|].
  intros [<- | H]; [eauto|].
  destruct (IH H) as (x & Hx & HR). eauto.
Qed.

Lemma nth_error_nonempty (A : Type) (l : list A) i x :
  nth_error l i = Some x -> l <> [].
Proof. destruct l; [now destruct i | discriminate]. Qed.

Lemma classify_cancelled s match_ :
  isCancelada s = true -> classify s match_ = CANCELLED.
Proof. unfold classify. now intros ->. Qed.

Lemma hit_false sef k :
  hit sef k = false <->
  (forall s, In s sef -> chaveS s = k -> isCancelada s = true).
Proof.
  unfold hit. split.
  - intros H s Hs Hk.
    destruct (isCancelada s) eqn:E; [reflexivity|].
    assert (existsb (fun s0 => negb (isCancelada s0)
                               && String.eqb (chaveS s0) k) sef = true)
      as Hex.
    { apply existsb_exists. exists s. split; [exact Hs|].
      rewrite E, Hk. simpl. apply String.eqb_refl. }
    congruence.
  - intros H.
    destruct (existsb _ sef) eqn:E; [|reflexivity].
    apply existsb_exists in E as (s & Hs & Hc).
    apply andb_prop in Hc as [Hc Hk].
    apply String.eqb_eq in Hk.
    rewrite (H s Hs Hk) in Hc. discriminate.
Qed.

(** The last record with a given key exists as soon as some record has
    the key. *)
Lemma lastWithKey_exists l k :
  (exists a, In a l /\ chaveA a = k) ->
  exists a', lastWithKey l a' /\ chaveA a' = k.
Proof.
  induction l as [|x l IH]; intros (a & Hin & Ha).
  - destruct Hin.
  - destruct (existsb (fun b => String.eqb (chaveA b) k) l) eqn:E.
    + apply existsb_exists in E as (b & Hb & Hk).
      apply String.eqb_eq in Hk.
      destruct IH as (a' & (l1 & l2 & -> & Hl2) & Ha'); [eauto|].
      exists a'. split; [|exact Ha'].
      exists (x :: l1), l2. split; [reflexivity | exact Hl2].
    + assert (Hall : Forall (fun b => chaveA b <> k) l).
      { apply Forall_forall. intros b Hb Hk.
        assert (existsb (fun b => String.eqb (chaveA b) k) l = true)
          as Hex.
        { apply existsb_exists. exists b. split; [exact Hb|].
          now apply String.eqb_eq. }
        congruence. }
      destruct Hin as [-> | Hin].
      * exists a. split; [|exact Ha]. exists [], l.
        split; [reflexivity|]. now rewrite Ha.
      * exfalso. rewrite Forall_forall in Hall. now apply (Hall a Hin).
Qed.

End Reconciliation.

(** C1. In both versions of [handleCompare], when the comparison runs (a
    ledger is loaded), the result pushed for an authority record whose
    status text contains "cancelada" in any letter case stands at the
    position of that record, refers back to it, and has status
    [CANCELLED], whatever the ledger holds under the same key. *)
Theorem cancelled_overrides_match
        (st : AppState) (i : nat) (s : SefazRecord.t) :
  accountingData st <> [] ->
  nth_error (sefazData st) i = Some s ->
  containsIgnoringCase (SefazRecord.situacao s) "cancelada" ->
  (exists r,
      nth_error (results (AppTsx.handleCompare st)) i = Some r /\
      ComparisonResult.sefazRecord r = Some s /\
      ComparisonResult.chave r = SefazRecord.chave s /\
      ComparisonResult.status r = CANCELLED) /\
  (exists r,
      nth_error (results (Part002.handleCompare st)) i = Some r /\
      ComparisonResult.sefazRecord r = Some s /\
      ComparisonResult.chave r = SefazRecord.chave s /\
      ComparisonResult.status r = CANCELLED).
Proof.
  intros Hacc Hi Hc.
  assert (Hsef : sefazData st <> []) by (eapply nth_error_nonempty; eauto).
  apply containsIgnoringCase_includes in Hc. fold (isCancelada s) in Hc.
  split.
  - destruct (Forall2_nth_error _ _ _ _ _ i s (AppTsx_results st Hacc Hsef) Hi)
      as (r & Hr & mt & -> & _).
    rewrite (classify_cancelled s mt Hc) in Hr.
    exists (sefazResult s mt CANCELLED). repeat split. exact Hr.
  - destruct (Part002_results st Hacc Hsef) as (rs & -> & Hrs).
    destruct (Forall2_nth_error _ _ _ _ _ i s Hrs Hi)
      as (r & Hr & mt & -> & _).
    rewrite (classify_cancelled s mt Hc) in Hr.
    exists (sefazResult s mt CANCELLED). repeat split.
    rewrite nth_error_app1 by (apply nth_error_Some; congruence).
    exact Hr.
Qed.

(** C1 on a booked invoice that the authority reports as cancelled. *)
Lemma cancelled_overrides_match_witness :
  JsMap.get Sample.key44
            (buildMapAccounting (accountingData Sample.cancelledAndBooked))
    <> None /\
  (exists r,
      nth_error (results (AppTsx.handleCompare Sample.cancelledAndBooked)) 0
        = Some r /\ ComparisonResult.status r = CANCELLED) /\
  (exists r,
      nth_error (results (Part002.handleCompare Sample.cancelledAndBooked)) 0
        = Some r /\ ComparisonResult.status r = CANCELLED).
Proof.
  split; [vm_compute; discriminate|].
  destruct (cancelled_overrides_match Sample.cancelledAndBooked 0
              (Sample.authority Sample.key44 "CANCELADA pelo emitente"))
    as [(r1 & H1 & _ & _ & S1) (r2 & H2 & _ & _ & S2)].
  - simpl. discriminate.
  - reflexivity.
  - exists "", "CANCELADA", " pelo emitente". split; reflexivity.
  - split; [exists r1 | exists r2]; split; assumption.
Defined.

(** The result pushed for an authority record, seen from the ledger. *)
Lemma resultOf_ledgerSide (acc : list AccountingRecord.t)
      (s : SefazRecord.t) (r : ComparisonResult.t) :
  resultOf (buildMapAccounting acc) s r -> ledgerSide acc r.
Proof.
  intros (match_ & -> & Hmatch). unfold ledgerSide. simpl.
  split; [|split; [reflexivity|]].
  - intros a Ha. apply Hmatch in Ha.
    apply buildMapAccounting_In in Ha as (Hlast & Hk & Hne).
    repeat split; congruence.
  - unfold classify.
    destruct (isCancelada s); [intros [|]; discriminate|].
    destruct match_; [eauto | intros [|]; discriminate].
Qed.

(** The result pushed for a ledger record left in the map. *)
Lemma remainingResult_ledgerSide (acc : list AccountingRecord.t)
      (sef : list SefazRecord.t) (a : AccountingRecord.t) :
  In a (JsMap.values (pending sef (buildMapAccounting acc))) ->
  ledgerSide acc (Part002.remainingResult a).
Proof.
  intros Ha. unfold JsMap.values in Ha.
  apply in_map_iff in Ha as ([k a'] & Hk & Ha). simpl in Hk. subst a'.
  apply filter_In in Ha as [Ha _].
  apply buildMapAccounting_In in Ha as (Hlast & Hk & Hne).
  unfold ledgerSide. simpl.
  split; [|split; [reflexivity | eauto]].
  intros b [= <-]. repeat split; congruence.
Qed.

(** C10. No entry of the key-to-record map is filed under the empty key.
    Consequently, in both versions, every result that refers back to a
    ledger record refers to one with a non-empty key (the last of the
    ledger with that key); the value of a result is the value of the
    record it refers back to, and [0] when it refers to none; and the
    results with status [MATCHED] or [MISSING_IN_SEFAZ] all refer back to
    a ledger record with the key of the result.  So a ledger record with
    an empty key is never matched, never gives its value to a result and
    is never reported as missing at the authority. *)
Theorem empty_key_never_compared (st : AppState) (r : ComparisonResult.t) :
  accountingData st <> [] ->
  sefazData st <> [] ->
  In r (results (AppTsx.handleCompare st))
  \/ In r (results (Part002.handleCompare st)) ->
  JsMap.get "" (buildMapAccounting (accountingData st)) = None /\
  (forall a, ComparisonResult.accountingRecord r = Some a ->
             AccountingRecord.chave a <> "" /\
             AccountingRecord.chave a = ComparisonResult.chave r /\
             lastWithKey (accountingData st) a) /\
  ComparisonResult.valor r
    = match ComparisonResult.accountingRecord r with
      | Some a => AccountingRecord.valor a
      | None => Js.zero
      end /\
  (ComparisonResult.status r = MATCHED
   \/ ComparisonResult.status r = MISSING_IN_SEFAZ ->
   exists a, ComparisonResult.accountingRecord r = Some a).
Proof.
  intros Hacc Hsef Hin.
  split.
  { destruct (JsMap.get "" _) as [a|] eqn:G; [|reflexivity].
    apply buildMapAccounting_get in G as (_ & _ & H). congruence. }
  enough (Hside : ledgerSide (accountingData st) r) by exact Hside.
  destruct Hin as [Hin | Hin].
  - destruct (Forall2_In_r _ _ _ _ _ r (AppTsx_results st Hacc Hsef) Hin)
      as (s & _ & Hr).
    now apply (resultOf_ledgerSide _ s).
  - destruct (Part002_results st Hacc Hsef) as (rs & Heq & Hrs).
    rewrite Heq in Hin. apply in_app_or in Hin as [Hin | Hin].
    + destruct (Forall2_In_r _ _ _ _ _ r Hrs Hin) as (s & _ & Hr).
      now apply (resultOf_ledgerSide _ s).
    + apply in_map_iff in Hin as (a & <- & Ha).
      now apply (remainingResult_ledgerSide _ (sefazData st)).
Qed.

(** C10 on a ledger whose first record has no key. *)
Lemma empty_key_never_compared_witness :
  In (Sample.ledger "" "A" 1) (accountingData Sample.repeatedLedgerKey) /\
  forall r,
    In r (results (Part002.handleCompare Sample.repeatedLedgerKey)) ->
    ComparisonResult.accountingRecord r <> Some (Sample.ledger "" "A" 1).
Proof.
  split; [now left|].
  intros r Hr Heq.
  destruct (empty_key_never_compared Sample.repeatedLedgerKey r)
    as (_ & H & _).
  - simpl. discriminate.
  - simpl. discriminate.
  - right. exact Hr.
  - destruct (H _ Heq) as [Hne _]. now apply Hne.
Defined.

(** The fields of the result pushed for a ledger record left in the map. *)
Lemma remainingResult_fields (a : AccountingRecord.t) :
  let r := Part002.remainingResult a in
  ComparisonResult.status r = MISSING_IN_SEFAZ /\
  ComparisonResult.chave r = AccountingRecord.chave a /\
  ComparisonResult.numero r = AccountingRecord.numero a /\
  ComparisonResult.valor r = AccountingRecord.valor a /\
  ComparisonResult.data r
    = Js.orElse (Some (AccountingRecord.dataEmissao a))
                (extractDateFromKey (AccountingRecord.chave a)) /\
  ComparisonResult.situacaoSefaz r = Part002.missingInFileText /\
  ComparisonResult.sefazRecord r = None /\
  ComparisonResult.accountingRecord r = Some a.
Proof. repeat split. Qed.

(** The pending entries of the map built from a ledger. *)
Lemma pending_In (acc : list AccountingRecord.t) (sef : list SefazRecord.t)
      (a : AccountingRecord.t) :
  In a (JsMap.values (pending sef (buildMapAccounting acc))) <->
  AccountingRecord.chave a <> "" /\
  lastWithKey acc a /\
  (forall s, In s sef -> SefazRecord.chave s = AccountingRecord.chave a ->
             isCancelada s = true).
Proof.
  unfold JsMap.values, pending. rewrite in_map_iff. split.
  - intros ([k a'] & Hk & Hin). simpl in Hk. subst a'.
    apply filter_In in Hin as [Hin Hhit]. simpl in Hhit.
    apply buildMapAccounting_In in Hin as (Hlast & Hk & Hne).
    apply negb_true_iff in Hhit.
    pose proof (proj1 (hit_false _ _) Hhit) as Hsef. subst k. auto.
  - intros (Hne & Hlast & Hsef).
    exists (AccountingRecord.chave a, a). split; [reflexivity|].
    apply filter_In. split.
    + apply buildMapAccounting_In. auto.
    + simpl. apply negb_true_iff. apply hit_false. exact Hsef.
Qed.

Lemma pending_NoDup (acc : list AccountingRecord.t)
      (sef : list SefazRecord.t) :
  NoDup (List.map AccountingRecord.chave
           (JsMap.values (pending sef (buildMapAccounting acc)))).
Proof.
  assert (H : List.map AccountingRecord.chave
                (JsMap.values (pending sef (buildMapAccounting acc)))
              = JsMap.keys (pending sef (buildMapAccounting acc))).
  { unfold JsMap.values, JsMap.keys, pending. rewrite map_map.
    apply map_ext_in. intros [k a] Hin. simpl.
    apply filter_In in Hin as [Hin _].
    now apply buildMapAccounting_In in Hin. }
  rewrite H. apply NoDup_keys_filter, buildMapAccounting_NoDup.
Qed.

(** C2, as the code has it.  When both lists are loaded, part_002 pushes
    one result per authority record, in authority order, and then the
    results of ledger records left in the map.  Every ledger record that
    has a non-empty key, is the last of the ledger with its key, and whose
    key is the key of no authority record is among them.  Each of them has
    a non-empty key, is the last of the ledger with its key, and has the
    key of no authority record that is not cancelled; no two of them share
    a key.  Each is reported with status [MISSING_IN_SEFAZ], its own key,
    number and value, its issue date (derived from the key when empty),
    the fixed status text, no authority reference and a reference to
    itself.  src/App.tsx pushes the results of the authority records
    only. *)
Theorem unmatched_ledger_reported (st : AppState) :
  accountingData st <> [] ->
  sefazData st <> [] ->
  (exists auth left,
      results (Part002.handleCompare st)
      = auth ++ List.map Part002.remainingResult left /\
      Forall2 (fun s r => ComparisonResult.sefazRecord r = Some s /\
                          ComparisonResult.chave r = SefazRecord.chave s)
              (sefazData st) auth /\
      NoDup (List.map AccountingRecord.chave left) /\
      (forall a,
          AccountingRecord.chave a <> "" ->
          lastWithKey (accountingData st) a ->
          (forall s, In s (sefazData st) ->
                     SefazRecord.chave s <> AccountingRecord.chave a) ->
          In a left) /\
      (forall a,
          In a left ->
          AccountingRecord.chave a <> "" /\
          lastWithKey (accountingData st) a /\
          (forall s, In s (sefazData st) ->
                     isCancelada s = false ->
                     SefazRecord.chave s <> AccountingRecord.chave a)) /\
      (forall a,
          let r := Part002.remainingResult a in
          ComparisonResult.status r = MISSING_IN_SEFAZ /\
          ComparisonResult.chave r = AccountingRecord.chave a /\
          ComparisonResult.numero r = AccountingRecord.numero a /\
          ComparisonResult.valor r = AccountingRecord.valor a /\
          ComparisonResult.data r
            = Js.orElse (Some (AccountingRecord.dataEmissao a))
                        (extractDateFromKey (AccountingRecord.chave a)) /\
          ComparisonResult.situacaoSefaz r = Part002.missingInFileText /\
          ComparisonResult.sefazRecord r = None /\
          ComparisonResult.accountingRecord r = Some a)) /\
  Forall2 (fun s r => ComparisonResult.sefazRecord r = Some s /\
                      ComparisonResult.chave r = SefazRecord.chave s)
          (sefazData st) (results (AppTsx.handleCompare st)).
Proof.
  intros Hacc Hsef.
  assert (Himpl : forall s r,
             resultOf (buildMapAccounting (accountingData st)) s r ->
             ComparisonResult.sefazRecord r = Some s /\
             ComparisonResult.chave r = SefazRecord.chave s).
  { intros s r (mt & -> & _). split; reflexivity. }
  split.
  - destruct (Part002_results st Hacc Hsef) as (rs & Heq & Hrs).
    exists rs,
      (JsMap.values (pending (sefazData st)
                             (buildMapAccounting (accountingData st)))).
    split; [exact Heq|].
    split; [eapply Forall2_impl; [exact Himpl | exact Hrs]|].
    split; [apply pending_NoDup|].
    split; [|split].
    + intros a Hne Hlast Hno. apply pending_In.
      split; [exact Hne|]. split; [exact Hlast|].
      intros s Hin Heq'. now destruct (Hno s Hin).
    + intros a Hin. apply pending_In in Hin as (Hne & Hlast & Hcan).
      split; [exact Hne|]. split; [exact Hlast|].
      intros s Hs Hc Heq'. rewrite (Hcan s Hs Heq') in Hc. discriminate Hc.
    + intros a. apply remainingResult_fields.
  - eapply Forall2_impl; [exact Himpl|]. now apply AppTsx_results.
Qed.

(** C2 on a ledger with a record without key and a repeated key: the last
    record with key 7 is among the ledger records reported. *)
Lemma unmatched_ledger_reported_witness :
  exists auth left,
    results (Part002.handleCompare Sample.repeatedLedgerKey)
    = auth ++ List.map Part002.remainingResult left /\
    List.length auth = 1 /\
    In (Sample.ledger "7" "C" 3) left.
Proof.
  destruct (unmatched_ledger_reported Sample.repeatedLedgerKey)
    as [(auth & left & Heq & Hauth & _ & Hleft & _) _].
  - simpl. discriminate.
  - simpl. discriminate.
  - exists auth, left. split; [exact Heq|]. split.
    + apply Forall2_length in Hauth. now rewrite <- Hauth.
    + apply Hleft.
      * discriminate.
      * exists [Sample.ledger "" "A" 1; Sample.ledger "7" "B" 2], [].
        split; [reflexivity | constructor].
      * intros s [<- | []]. discriminate.
Defined.

(** C2 as it was stated does not hold: in the sample ledger the record
    numbered B has a key that occurs at no authority record, and no result
    with status [MISSING_IN_SEFAZ] carries its number, because a later
    ledger record has the same key. *)
Lemma unmatched_ledger_reported_counterexample :
  ~ (forall a,
        In a (accountingData Sample.repeatedLedgerKey) ->
        (forall s, In s (sefazData Sample.repeatedLedgerKey) ->
                   SefazRecord.chave s <> AccountingRecord.chave a) ->
        exists r,
          In r (results (Part002.handleCompare Sample.repeatedLedgerKey)) /\
          ComparisonResult.status r = MISSING_IN_SEFAZ /\
          ComparisonResult.numero r = AccountingRecord.numero a /\
          ComparisonResult.valor r = AccountingRecord.valor a).
Proof.
  intros H.
  destruct (H (Sample.ledger "7" "B" 2)) as (r & Hin & Hst & Hnum & _).
  - simpl. auto.
  - intros s [<- | []]. discriminate.
  - vm_compute in Hin.
    destruct Hin as [<- | [<- | []]].
    + discriminate Hst.
    + discriminate Hnum.
Qed.

(** C9, as the code has it.  In part_002 a step of the authority pass
    changes the map only when it pushes a [MATCHED] result, by deleting
    the key; the step taken for a cancelled authority record leaves the
    map as it is.  Hence, when a ledger record
    has a non-empty key, a cancelled authority record has the same key,
    and every authority record with that key is cancelled, the result list
    holds the [CANCELLED] result of the authority record among the first
    results and, after them, a [MISSING_IN_SEFAZ] result with the same key
    and no authority reference. *)
Theorem cancelled_match_reported_twice
        (st : AppState) (a : AccountingRecord.t) (s : SefazRecord.t) :
  In a (accountingData st) ->
  In s (sefazData st) ->
  AccountingRecord.chave a <> "" ->
  SefazRecord.chave s = AccountingRecord.chave a ->
  isCancelada s = true ->
  (forall s', In s' (sefazData st) ->
              SefazRecord.chave s' = AccountingRecord.chave a ->
              isCancelada s' = true) ->
  (forall m c s',
      fst (Part002.compareStep (m, c) s') = m
      \/ (classify s' (JsMap.get (chaveS s') m) = MATCHED /\
          fst (Part002.compareStep (m, c) s')
          = JsMap.delete (chaveS s') m)) /\
  (forall m c, fst (Part002.compareStep (m, c) s) = m) /\
  exists i j r1 r2,
    i < List.length (sefazData st) <= j /\
    nth_error (results (Part002.handleCompare st)) i = Some r1 /\
    ComparisonResult.sefazRecord r1 = Some s /\
    ComparisonResult.status r1 = CANCELLED /\
    nth_error (results (Part002.handleCompare st)) j = Some r2 /\
    ComparisonResult.status r2 = MISSING_IN_SEFAZ /\
    ComparisonResult.chave r2 = AccountingRecord.chave a /\
    ComparisonResult.sefazRecord r2 = None.
Proof.
  intros Ha Hs Hne Hk Hc Hall.
  split.
  { intros m c s'. rewrite Part002_step. unfold classify. simpl fst.
    destruct (isCancelada s'); [now left|].
    destruct (Parser.isSome _); [now right | now left]. }
  split.
  { intros m c. rewrite Part002_step. now rewrite Hc. }
  assert (Hacc : accountingData st <> []) by (intros E; now rewrite E in Ha).
  assert (Hsef : sefazData st <> []) by (intros E; now rewrite E in Hs).
  destruct (Part002_results st Hacc Hsef) as (rs & Heq & Hrs).
  pose proof (Forall2_length Hrs) as Hlen.
  destruct (In_nth_error _ _ Hs) as (i & Hi).
  destruct (Forall2_nth_error _ _ _ _ _ i s Hrs Hi) as (r1 & Hr1 & mt & -> & _).
  destruct (lastWithKey_exists (accountingData st) (AccountingRecord.chave a))
    as (a' & Hlast & Ha'); [eauto|].
  assert (Hpend : In a' (JsMap.values
                           (pending (sefazData st)
                              (buildMapAccounting (accountingData st))))).
  { apply pending_In. rewrite Ha'. auto. }
  apply (in_map Part002.remainingResult) in Hpend.
  destruct (In_nth_error _ _ Hpend) as (n & Hn).
  exists i, (List.length rs + n),
    (sefazResult s mt (classify s mt)), (Part002.remainingResult a').
  assert (Hi' : i < List.length (sefazData st))
    by (apply nth_error_Some; congruence).
  split; [lia|].
  rewrite Heq.
  split; [rewrite nth_error_app1 by lia; exact Hr1|].
  split; [reflexivity|].
  split; [simpl; now apply classify_cancelled|].
  split.
  { rewrite nth_error_app2 by lia.
    replace (List.length rs + n - List.length rs) with n by lia. exact Hn. }
  repeat split. exact Ha'.
Qed.

(** C9 on a booked invoice that the authority reports as cancelled: it is
    reported as cancelled and as missing at the authority. *)
Lemma cancelled_match_reported_twice_witness :
  List.map ComparisonResult.status
           (results (Part002.handleCompare Sample.cancelledAndBooked))
  = [CANCELLED; MISSING_IN_SEFAZ] /\
  exists i j r1 r2,
    i < 1 <= j /\
    nth_error (results (Part002.handleCompare Sample.cancelledAndBooked)) i
      = Some r1 /\
    ComparisonResult.status r1 = CANCELLED /\
    nth_error (results (Part002.handleCompare Sample.cancelledAndBooked)) j
      = Some r2 /\
    ComparisonResult.status r2 = MISSING_IN_SEFAZ.
Proof.
  split; [reflexivity|].
  destruct (cancelled_match_reported_twice Sample.cancelledAndBooked
              (Sample.ledger Sample.key44 "100" 50)
              (Sample.authority Sample.key44 "CANCELADA pelo emitente"))
    as (_ & _ & i & j & r1 & r2 & Hij & H1 & _ & S1 & H2 & S2 & _).
  - simpl. auto.
  - simpl. auto.
  - discriminate.
  - reflexivity.
  - reflexivity.
  - intros s' [<- | []] _. reflexivity.
  - exists i, j, r1, r2. auto.
Defined.

(** C9 as it was stated does not hold: when the authority list has the key
    of a ledger record twice, cancelled and then authorised, the second
    authority record is matched, the key leaves the map, and no result
    has status [MISSING_IN_SEFAZ]. *)
Lemma cancelled_match_reported_twice_counterexample :
  ~ (forall a s,
        In a (accountingData Sample.cancelledThenAuthorised) ->
        In s (sefazData Sample.cancelledThenAuthorised) ->
        SefazRecord.chave s = AccountingRecord.chave a ->
        isCancelada s = true ->
        exists r,
          In r (results
                  (Part002.handleCompare Sample.cancelledThenAuthorised)) /\
          ComparisonResult.status r = MISSING_IN_SEFAZ /\
          ComparisonResult.chave r = AccountingRecord.chave a).
Proof.
  intros H.
  destruct (H (Sample.ledger "3" "D" 4) (Sample.authority "3" "Cancelada"))
    as (r & Hin & Hst & _).
  - simpl. auto.
  - simpl. auto.
  - reflexivity.
  - reflexivity.
  - vm_compute in Hin.
    destruct Hin as [<- | [<- | []]]; discriminate Hst.
Qed.

(* ================================================================= *)
(** ** The ledger extractor *)

Section LedgerExtractor.

Lemma startsWith_split (s p : string) :
  Js.startsWith s p = true -> exists r, s = (p ++ r)%string.
Proof.
  revert s. induction p as [|a p IH]; intros s H.
  - exists s. reflexivity.
  - destruct s as [|b s]; [discriminate|]. simpl in H.
    apply andb_prop in H as [Hab Hp].
    apply Ascii.eqb_eq in Hab. subst b.
    destruct (IH s Hp) as (r & ->). now exists r.
Qed.

Lemma includes_split (s sub : string) :
  Js.includes s sub = true ->
  exists pre post, s = (pre ++ sub ++ post)%string.
Proof.
  induction s as [|c s IH]; rewrite includes_unfold; intros H.
  - rewrite orb_false_r in H.
    destruct (startsWith_split _ _ H) as (r & Hr). now exists "", r.
  - apply orb_prop in H as [H | H].
    + destruct (startsWith_split _ _ H) as (r & Hr). now exists "", r.
    + destruct (IH H) as (pre & post & ->). now exists (String c pre), post.
Qed.

Lemma append_assoc (a b c : string) :
  ((a ++ b) ++ c = a ++ b ++ c)%string.
Proof. induction a as [|x a IH]; simpl; congruence. Qed.

(** A header that contains [chavenfe] contains [chave]. *)
Lemma includes_chavenfe (h : string) :
  Js.includes h "chave" = false -> Js.includes h "chavenfe" = false.
Proof.
  intros H. destruct (Js.includes h "chavenfe") eqn:E; [|reflexivity].
  apply includes_split in E as (pre & post & ->).
  change "chavenfe" with ("chave" ++ "nfe")%string in H.
  rewrite append_assoc, includes_app in H. discriminate.
Qed.




(** The records pushed by the loop, row by row. *)
Lemma accountingRows_spec (i : nat) (idxNumero idxValor idxData : option nat)
      (rows : list (list Cell)) :
  Forall2
    (fun row r =>
       Parser.accountingRow (Some i) idxNumero idxValor idxData row = Some r)
    (List.filter (qualifies i) rows)
    (Parser.accountingRows (Some i) idxNumero idxValor idxData rows).
Proof.
  induction rows as [|row rows IH]; simpl; [constructor|].
  unfold qualifies at 1.
  destruct (Parser.accountingRow (Some i) idxNumero idxValor idxData row)
    as [r|] eqn:E.
  - assert (Hq : negb (List.length row =? 0)
                 && Js.truthy (Parser.at_ row (Some i)) = true).
    { unfold Parser.accountingRow in E.
      destruct (List.length row =? 0); [discriminate|].
      destruct (Parser.at_ row (Some i)) as [raw|]; [|discriminate].
      simpl. destruct (Js.isEmpty raw); [discriminate | reflexivity]. }
    rewrite Hq. constructor; assumption.
  - assert (Hq : negb (List.length row =? 0)
                 && Js.truthy (Parser.at_ row (Some i)) = false).
    { unfold Parser.accountingRow in E.
      destruct (List.length row =? 0); [reflexivity|].
      destruct (Parser.at_ row (Some i)) as [raw|]; [|reflexivity].
      simpl. destruct (Js.isEmpty raw); [reflexivity | discriminate]. }
    rewrite Hq. exact IH.
Qed.

Lemma bind_Ok (A B : Type) (c : result A) (k : A -> result B) (b : B) :
  bind c k = Ok b -> exists a, c = Ok a /\ k a = Ok b.
Proof. destruct c as [a|e]; simpl; [eauto | discriminate]. Qed.

(** A successful extraction, taken apart. *)
Lemma parseAccountingFile_Ok (jsonData : list (list Cell))
      (records : list AccountingRecord.t) :
  Parser.parseAccountingFile jsonData = Ok records ->
  exists row0 dataRows i idxNumero idxValor idxData,
    jsonData = row0 :: dataRows /\
    Parser.findIndex Parser.isChaveHeader (Parser.headersOf row0) 0
      = Ok (Some i) /\
    Parser.findIndex Parser.isValorHeader (Parser.headersOf row0) 0
      = Ok idxValor /\
    records
    = Parser.accountingRows (Some i) idxNumero idxValor idxData dataRows.
Proof.
  unfold Parser.parseAccountingFile.
  destruct jsonData as [|row0 dataRows]; [discriminate|].
  intros H.
  apply bind_Ok in H as (idxChave & E1 & H).
  apply bind_Ok in H as (idxNumero & E2 & H).
  apply bind_Ok in H as (idxValor & E3 & H).
  apply bind_Ok in H as (idxData & E4 & H).
  destruct idxChave as [i|]; [|discriminate].
  injection H as <-.
  exists row0, dataRows, i, idxNumero, idxValor, idxData. auto.
Qed.

End LedgerExtractor.



(** C7 fails on a sheet whose row zero has an empty cell.  No header of
    the sample sheet contains [chave], and the extraction is rejected, but
    not with the error for a missing key column: [map] skips the hole, so
    [normalizeHeader] never turns it into the empty string, and the
    callback of the first [findIndex] throws a [TypeError] on it before
    the test [idxChave === -1] is reached.  The sample sheet with the
    two filled header cells only is rejected with the error for a missing
    key column. *)
Theorem missing_key_column_type_error :
  Parser.headersOf (hd [] Sample.sheetWithHole)
  = [Some "numero"; None; Some "valor"] /\
  Js.includes "numero" "chave" = false /\
  Js.includes "valor" "chave" = false /\
  Parser.findIndex Parser.isChaveHeader
    (Parser.headersOf (hd [] Sample.sheetWithHole)) 0 = Throw TypeError /\
  Parser.parseAccountingFile Sample.sheetWithHole = Throw TypeError /\
  Parser.parseAccountingFile Sample.sheetWithoutKey
  = Throw (Error Parser.missingKeyColumnMessage).
Proof.
  split; [reflexivity|].
  split; [reflexivity|].
  split; [reflexivity|].
  split; [reflexivity|].
  split; vm_compute; reflexivity.
Qed.

Section LedgerRows.

Lemma at_Some (row : list Cell) (i : nat) (raw : string) :
  Parser.at_ row (Some i) = Some raw <-> nth_error row i = Some (Some raw).
Proof.
  unfold Parser.at_, Cell in *.
  destruct (nth_error row i) as [[c|]|]; split; intros H;
    try discriminate H; now injection H as ->.
Qed.

Lemma parseValor_valueOfCell (c : Cell) :
  Parser.parseValor c = valueOfCell c.
Proof.
  destruct c as [s|]; [|reflexivity].
  unfold Parser.parseValor, valueOfCell, strippedText. simpl.
  now destruct (Js.isEmpty _).
Qed.

(** The record pushed for a row. *)
Lemma accountingRow_Some (i : nat) (idxNumero idxValor idxData : option nat)
      (row : list Cell) (r : AccountingRecord.t) :
  Parser.accountingRow (Some i) idxNumero idxValor idxData row = Some r ->
  exists raw,
    nth_error row i = Some (Some raw) /\ raw <> "" /\
    AccountingRecord.chave r = normalizeKey (Some raw) /\
    AccountingRecord.id r = normalizeKey (Some raw) /\
    AccountingRecord.sourceRow r = row /\
    AccountingRecord.valor r
    = match idxValor with
      | None => Js.zero
      | Some _ => valueOfCell (Parser.at_ row idxValor)
      end.
Proof.
  unfold Parser.accountingRow.
  destruct (List.length row =? 0); [discriminate|].
  destruct (Parser.at_ row (Some i)) as [raw|] eqn:E; [|discriminate].
  destruct (Js.isEmpty raw) eqn:Eraw; [discriminate|].
  intros [= <-]. exists raw. simpl.
  split; [now apply at_Some|].
  split; [now apply isEmpty_false|].
  repeat split.
  destruct idxValor; simpl; [apply parseValor_valueOfCell | reflexivity].
Qed.

(** [parseFloat] gives [NaN] exactly on the texts that do not begin with
    a number. *)
Lemma parseFloat_NaN_iff (t : string) :
  Js.parseFloat t = Js.NaN <-> beginsWithNumber t = false.
Proof.
  unfold Js.parseFloat, beginsWithNumber.
  destruct (Js.takeSign (Js.trimStart t)) as [neg u]. cbn [snd].
  destruct (Js.startsWith u "Infinity") eqn:Einf;
    [split; discriminate|]. cbn [orb].
  destruct u as [|c r]; [split; reflexivity|].
  cbn [Js.spanDigits].
  destruct (Js.isDigit c) eqn:Ed.
  - destruct (Js.spanDigits r) as [d rest].
    destruct (match rest with
              | EmptyString => (EmptyString, rest)
              | String c0 r0 =>
                  if Ascii.eqb c0 "." then Js.spanDigits r0
                  else (EmptyString, rest)
              end) as [fp t3].
    cbn [Js.isEmpty andb orb].
    split; [intros H; now apply ofDecimal_not_NaN in H | discriminate].
  - cbn [orb]. destruct (Ascii.eqb c ".") eqn:Edot; cbn [andb];
      [|split; reflexivity].
    destruct r as [|d r']; [split; reflexivity|].
    cbn [Js.spanDigits].
    destruct (Js.isDigit d); [|split; reflexivity].
    destruct (Js.spanDigits r') as [fp t3]. cbn [Js.isEmpty andb].
    split; [intros H; now apply ofDecimal_not_NaN in H | discriminate].
Qed.

End LedgerRows.

Lemma parse_sample_sheet :
  Parser.parseAccountingFile Sample.sheet = Ok Sample.sheetRecords.
Proof. vm_compute. reflexivity. Qed.

(** C3, as the code has it.  A successful extraction has resolved the key
    column, and its records are, in order, those of the data rows that are
    not empty and whose key cell is present and not the empty string.  The
    key of each record is the digits-only form of that non-empty cell; it
    is the empty string exactly when the cell holds no digit, and such a
    row is not skipped. *)
Theorem ledger_key_from_nonempty_cell
        (jsonData : list (list Cell)) (records : list AccountingRecord.t) :
  Parser.parseAccountingFile jsonData = Ok records ->
  exists row0 dataRows i,
    jsonData = row0 :: dataRows /\
    Parser.findIndex Parser.isChaveHeader (Parser.headersOf row0) 0
      = Ok (Some i) /\
    Forall2
      (fun row r =>
         exists raw,
           nth_error row i = Some (Some raw) /\ raw <> "" /\
           AccountingRecord.chave r = normalizeKey (Some raw) /\
           AccountingRecord.sourceRow r = row /\
           (AccountingRecord.chave r = "" <-> Js.count Js.isDigit raw = 0))
      (List.filter (qualifies i) dataRows) records.
Proof.
  intros H.
  apply parseAccountingFile_Ok in H
    as (row0 & dataRows & i & idxNumero & idxValor & idxData
        & -> & Hi & _ & ->).
  exists row0, dataRows, i. split; [reflexivity|]. split; [exact Hi|].
  eapply Forall2_impl; [|apply accountingRows_spec].
  intros row r Hr.
  apply accountingRow_Some in Hr as (raw & Hraw & Hne & Hk & _ & Hrow & _).
  exists raw. repeat split; try assumption.
  - intros E. rewrite <- normalizeKey_length, <- Hk, E. reflexivity.
  - intros E. rewrite <- normalizeKey_length, <- Hk in E.
    now destruct (AccountingRecord.chave r).
Qed.

(** C3 on the sample sheet: the extraction succeeds with one record per
    qualifying data row. *)
Lemma ledger_key_from_nonempty_cell_witness :
  exists records row0 dataRows i,
    Parser.parseAccountingFile Sample.sheet = Ok records /\
    Sample.sheet = row0 :: dataRows /\
    List.length (List.filter (qualifies i) dataRows) = List.length records.
Proof.
  destruct (ledger_key_from_nonempty_cell Sample.sheet Sample.sheetRecords
              parse_sample_sheet)
    as (row0 & dataRows & i & Heq & _ & Hrows).
  exists Sample.sheetRecords, row0, dataRows, i.
  split; [exact parse_sample_sheet|]. split; [exact Heq|].
  exact (Forall2_length Hrows).
Defined.

(** C3 as it was stated does not hold: the second data row of the sample
    sheet has a key cell whose digits-only form is empty, and a record is
    built from it. *)
Lemma ledger_key_from_nonempty_cell_counterexample :
  exists row records r,
    nth_error Sample.sheet 2 = Some row /\
    normalizeKey (Parser.at_ row (Some 0)) = "" /\
    Parser.parseAccountingFile Sample.sheet = Ok records /\
    In r records /\
    AccountingRecord.sourceRow r = row /\
    AccountingRecord.chave r = "".
Proof.
  eexists. exists Sample.sheetRecords. eexists.
  split; [reflexivity|].
  split; [reflexivity|].
  split; [exact parse_sample_sheet|].
  split; [right; left; reflexivity|].
  split; reflexivity.
Qed.

(** C4, as the code has it.  The value of every record of a successful
    extraction is [0] when the value column is unresolved, and otherwise
    the value read from the value cell of its row: the cell text with the
    first [R$] removed, all periods removed and the first comma turned
    into a period, parsed by [parseFloat]; so [R$ 1.234,56] gives 1234.56,
    that is the double nearest to it.  The value is [0] when the cell is
    absent or nothing is left of its text.  What is left of a text is
    read as [NaN], not as [0], exactly when it does not begin with a
    number: when, after leading white space and an optional sign, it goes
    on neither with [Infinity], nor with a digit, nor with a period
    followed by a digit. *)
Theorem ledger_value_parsed
        (jsonData : list (list Cell)) (records : list AccountingRecord.t) :
  Parser.parseAccountingFile jsonData = Ok records ->
  (exists row0 dataRows i idxValor,
      jsonData = row0 :: dataRows /\
      Parser.findIndex Parser.isChaveHeader (Parser.headersOf row0) 0
        = Ok (Some i) /\
      Parser.findIndex Parser.isValorHeader (Parser.headersOf row0) 0
        = Ok idxValor /\
      Forall2
        (fun row r =>
           AccountingRecord.valor r
           = match idxValor with
             | None => Js.zero
             | Some _ => valueOfCell (Parser.at_ row idxValor)
             end)
        (List.filter (qualifies i) dataRows) records) /\
  valueOfCell (Some "R$ 1.234,56") = Js.ofDecimal false 123456 (-2) /\
  Js.ofDecimal false 123456 (-2) = Js.Num false 5429652300748554 (-42) /\
  Js.nearest false 123456 100 (Js.Num false 5429652300748554 (-42)) /\
  valueOfCell None = Js.zero /\
  valueOfCell (Some "") = Js.zero /\
  valueOfCell (Some "R$") = Js.zero /\
  (forall s, strippedText s <> "" ->
             (valueOfCell (Some s) = Js.NaN <->
              beginsWithNumber (strippedText s) = false)) /\
  (forall t, Js.parseFloat t = Js.NaN <-> beginsWithNumber t = false).
Proof.
  intros H.
  split; [|split; [vm_compute; reflexivity|]];
    [|split; [vm_compute; reflexivity|]];
    [|split; [exact (ofDecimal_nearest false 123456 (-2) eq_refl)|]];
    [|split; [reflexivity|]];
    [|split; [reflexivity|]];
    [|split; [reflexivity|]];
    [|split; [|apply parseFloat_NaN_iff]].
  2:{ intros s Hs. unfold valueOfCell. cbv zeta.
      destruct (strippedText s) as [|c r]; [congruence|].
      apply parseFloat_NaN_iff. }
  apply parseAccountingFile_Ok in H
    as (row0 & dataRows & i & idxNumero & idxValor & idxData
        & -> & Hi & Hv & ->).
  exists row0, dataRows, i, idxValor.
  split; [reflexivity|]. split; [exact Hi|]. split; [exact Hv|].
  eapply Forall2_impl; [|apply accountingRows_spec].
  intros row r Hr.
  now apply accountingRow_Some in Hr as (raw & _ & _ & _ & _ & _ & Hval).
Qed.

(** C4 on the sample sheet: the extraction succeeds, the value column is
    resolved, and there is one value per qualifying data row. *)
Lemma ledger_value_parsed_witness :
  exists records row0 dataRows i idxValor,
    Parser.parseAccountingFile Sample.sheet = Ok records /\
    Sample.sheet = row0 :: dataRows /\
    Parser.findIndex Parser.isValorHeader (Parser.headersOf row0) 0
      = Ok idxValor /\
    List.length (List.filter (qualifies i) dataRows) = List.length records.
Proof.
  destruct (ledger_value_parsed Sample.sheet Sample.sheetRecords
              parse_sample_sheet)
    as ((row0 & dataRows & i & idxValor & Heq & _ & Hv & Hrows) & _).
  exists Sample.sheetRecords, row0, dataRows, i, idxValor.
  split; [exact parse_sample_sheet|]. split; [exact Heq|].
  split; [exact Hv|].
  exact (Forall2_length Hrows).
Defined.

(** C4 as it was stated does not hold: the third data row of the sample
    sheet has the value cell [abc], which [parseFloat] does not read as a
    number, and the value of its record is [NaN], not [0]. *)
Lemma ledger_value_parsed_counterexample :
  exists row records r,
    nth_error Sample.sheet 3 = Some row /\
    Parser.at_ row (Some 2) = Some "abc" /\
    Js.parseFloat "abc" = Js.NaN /\
    Parser.parseAccountingFile Sample.sheet = Ok records /\
    In r records /\
    AccountingRecord.sourceRow r = row /\
    AccountingRecord.valor r <> Js.zero.
Proof.
  eexists. exists Sample.sheetRecords. eexists.
  split; [reflexivity|].
  split; [reflexivity|].
  split; [reflexivity|].
  split; [exact parse_sample_sheet|].
  split; [right; right; left; reflexivity|].
  split; [reflexivity | discriminate].
Qed.

(* ================================================================= *)
(** ** The authority extractor *)

Section AuthorityExtractor.

(** The record pushed for a row has passed the tests of the loop body. *)
Lemma sefazRow_Some (headerMap : Parser.HeaderMap)
      (cells : list Parser.HtmlCell) (r : SefazRecord.t) :
  Parser.sefazRow headerMap cells = Some r ->
  3 <= List.length cells /\
  Parser.isHeaderRow headerMap cells = false /\
  SefazRecord.chave r
  = normalizeKey (Some (Parser.getVal headerMap cells "chave")) /\
  SefazRecord.chave r <> "" /\
  20 < String.length (SefazRecord.chave r).
Proof.
  unfold Parser.sefazRow.
  destruct (List.length cells <? 3) eqn:E3; [discriminate|].
  destruct (Parser.isHeaderRow headerMap cells); [discriminate|].
  destruct (Js.isEmpty (normalizeKey _)) eqn:Ee; [discriminate|].
  destruct (20 <? String.length (normalizeKey _)) eqn:E20; [|discriminate].
  intros [= <-]. simpl.
  apply Nat.ltb_ge in E3. apply Nat.ltb_lt in E20.
  apply isEmpty_false in Ee. auto.
Qed.

(** A row whose key fails the gate pushes nothing. *)
Lemma sefazRow_gate (headerMap : Parser.HeaderMap)
      (cells : list Parser.HtmlCell) :
  let chave :=
    normalizeKey (Some (Parser.getVal headerMap cells "chave")) in
  chave = "" \/ String.length chave <= 20 ->
  Parser.sefazRow headerMap cells = None.
Proof.
  intros chave H. unfold Parser.sefazRow. fold chave.
  destruct (List.length cells <? 3); [reflexivity|].
  destruct (Parser.isHeaderRow headerMap cells); [reflexivity|].
  destruct H as [-> | H]; [reflexivity|].
  apply Nat.ltb_ge in H. rewrite H.
  now rewrite andb_false_r.
Qed.

Lemma sefazRows_spec (headerMap : Parser.HeaderMap)
      (rows : list (list Parser.HtmlCell)) :
  Forall (fun r => exists cells,
              In cells rows /\ Parser.sefazRow headerMap cells = Some r)
         (Parser.sefazRows headerMap rows).
Proof.
  induction rows as [|cells rows IH]; simpl; [constructor|].
  assert (IH' : Forall (fun r => exists cells0,
                   (cells = cells0 \/ In cells0 rows) /\
                   Parser.sefazRow headerMap cells0 = Some r)
                  (Parser.sefazRows headerMap rows)).
  { eapply Forall_impl; [|exact IH].
    intros r (cells0 & Hin & Hr). eauto. }
  destruct (Parser.sefazRow headerMap cells) as [r|] eqn:E; [|exact IH'].
  constructor; [eauto | exact IH'].
Qed.

End AuthorityExtractor.

(** C6. Every record of a successful authority extraction comes from a
    row of the target table, and its key, the digits-only form of the
    trimmed text of the key cell of that row, is not empty and is longer
    than 20 characters.  A row whose key is empty or has at most 20
    characters produces no record. *)
Theorem authority_key_gate
        (tables : list Parser.HtmlTable) (records : list SefazRecord.t) :
  Parser.parseSefazHtml tables = Ok records ->
  exists targetTable headerMap,
    Parser.searchTables tables = Some (targetTable, headerMap) /\
    Forall
      (fun r =>
         exists cells,
           In cells targetTable /\
           Parser.sefazRow headerMap cells = Some r /\
           SefazRecord.chave r
           = normalizeKey (Some (Parser.getVal headerMap cells "chave")) /\
           SefazRecord.chave r <> "" /\
           20 < String.length (SefazRecord.chave r))
      records /\
    (forall cells,
        let chave :=
          normalizeKey (Some (Parser.getVal headerMap cells "chave")) in
        chave = "" \/ String.length chave <= 20 ->
        Parser.sefazRow headerMap cells = None).
Proof.
  unfold Parser.parseSefazHtml.
  destruct (Parser.searchTables tables) as [[targetTable headerMap]|];
    [|discriminate].
  intros [= <-].
  exists targetTable, headerMap. split; [reflexivity|]. split.
  - eapply Forall_impl; [|apply sefazRows_spec].
    intros r (cells & Hin & Hr).
    exists cells.
    pose proof (sefazRow_Some _ _ _ Hr) as (_ & _ & Hk & Hne & Hlen).
    auto.
  - intros cells. apply sefazRow_gate.
Qed.

Lemma parse_sample_page :
  Parser.parseSefazHtml Sample.page = Ok Sample.pageRecords.
Proof. vm_compute. reflexivity. Qed.

(** C6 on the sample page: the row with the 44-digit key gives the only
    record, the row with the 10-digit key gives none. *)
Lemma authority_key_gate_witness :
  List.map SefazRecord.chave Sample.pageRecords = [Sample.key44] /\
  Forall (fun r => 20 < String.length (SefazRecord.chave r))
         Sample.pageRecords /\
  exists headerMap,
    Parser.sefazRow headerMap
      [Sample.td "1234567890"; Sample.td "Autorizada"; Sample.td "101"]
    = None.
Proof.
  split; [reflexivity|].
  destruct (authority_key_gate Sample.page Sample.pageRecords
              parse_sample_page)
    as (targetTable & headerMap & Htarget & Hrecords & Hgate).
  split.
  - eapply Forall_impl; [|exact Hrecords].
    intros r (cells & _ & _ & _ & _ & Hlen). exact Hlen.
  - exists headerMap. apply Hgate.
    vm_compute in Htarget. injection Htarget as _ <-.
    right. vm_compute. repeat constructor.
Defined.

(* ================================================================= *)
(** ** Further properties of the utilities *)

Section CharacterFacts.

(** Facts about single code units are checked on all 256 of them. *)
Ltac each_char c :=
  destruct c as [[] [] [] [] [] [] [] []]; vm_compute;
  try reflexivity; try discriminate; auto.

Lemma tokenChar_fixed (c : ascii) :
  isTokenChar c = true ->
  Js.lowerChar c = c /\ stripAccent c = c /\ Js.isSpace c = false.
Proof. each_char c; intros _; repeat split. Qed.

Lemma alnum_not_underscore (c : ascii) :
  Js.isLowerAz c || Js.isDigit c = true -> Ascii.eqb c "_" = false.
Proof. each_char c. Qed.

Lemma not_alnum_token (c : ascii) :
  Js.isLowerAz c || Js.isDigit c = false -> isTokenChar c = true ->
  c = "_"%char.
Proof. each_char c. Qed.

Lemma isSpace_lowerChar (c : ascii) :
  Js.isSpace (Js.lowerChar c) = Js.isSpace c.
Proof. each_char c. Qed.

Lemma isSpace_stripAccent (c : ascii) :
  Js.isSpace (stripAccent c) = Js.isSpace c.
Proof. each_char c. Qed.

Lemma digit_not_space (c : ascii) :
  Js.isDigit c = true -> Js.isSpace c = false.
Proof. each_char c. Qed.

Lemma digit_not_special (c : ascii) :
  Js.isDigit c = true ->
  Ascii.eqb c "-" = false /\ Ascii.eqb c "+" = false /\
  Ascii.eqb c "." = false /\ Ascii.eqb c "," = false /\
  Ascii.eqb "I" c = false /\ Ascii.eqb "R" c = false.
Proof. each_char c; intros _; repeat split. Qed.

End CharacterFacts.

Section TrimFacts.

Lemma trimStart_first (s : string) (c : ascii) :
  firstChar (Js.trimStart s) = Some c -> Js.isSpace c = false.
Proof.
  induction s as [|d r IH]; simpl; [discriminate|].
  destruct (Js.isSpace d) eqn:E; [exact IH|].
  simpl. now intros [= <-].
Qed.

Lemma trimEnd_first (s : string) (c : ascii) :
  firstChar (Js.trimEnd s) = Some c -> firstChar s = Some c.
Proof.
  destruct s as [|d r]; simpl; [discriminate|].
  destruct (Js.isSpace d && Js.isEmpty (Js.trimEnd r)); [discriminate|].
  trivial.
Qed.

Lemma trimEnd_last (s : string) (c : ascii) :
  lastChar (Js.trimEnd s) = Some c -> Js.isSpace c = false.
Proof.
  induction s as [|d r IH]; simpl; [discriminate|].
  destruct (Js.trimEnd r) as [|e r'] eqn:E; simpl.
  - rewrite andb_true_r. destruct (Js.isSpace d) eqn:Ed; [discriminate|].
    simpl. now intros [= <-].
  - rewrite andb_false_r. simpl. exact IH.
Qed.

Lemma trim_trimmed (s : string) : trimmed (Js.trim s).
Proof.
  unfold trimmed, Js.trim. split; intros c H.
  - apply trimEnd_first in H. now apply trimStart_first in H.
  - now apply trimEnd_last in H.
Qed.

(** A string without white space is left as it is. *)
Lemma trim_no_space (s : string) :
  Js.all (fun c => negb (Js.isSpace c)) s = true -> Js.trim s = s.
Proof.
  intros H. unfold Js.trim.
  assert (Hs : Js.trimStart s = s).
  { destruct s as [|c r]; [reflexivity|]. simpl in *.
    apply andb_prop in H as [Hc _].
    apply negb_true_iff in Hc. now rewrite Hc. }
  rewrite Hs. clear Hs.
  induction s as [|c r IH]; [reflexivity|].
  simpl in *. apply andb_prop in H as [Hc Hr].
  apply negb_true_iff in Hc. rewrite Hc, (IH Hr). reflexivity.
Qed.

(** [trim] commutes with a character map that keeps white space white
    space and the rest the rest. *)
Lemma trim_mapStr (f : ascii -> ascii) (s : string) :
  (forall c, Js.isSpace (f c) = Js.isSpace c) ->
  Js.trim (Js.mapStr f s) = Js.mapStr f (Js.trim s).
Proof.
  intros Hf. unfold Js.trim.
  assert (Hs : Js.trimStart (Js.mapStr f s) = Js.mapStr f (Js.trimStart s)).
  { induction s as [|c r IH]; [reflexivity|]. simpl.
    rewrite Hf. destruct (Js.isSpace c); [exact IH | reflexivity]. }
  rewrite Hs. generalize (Js.trimStart s). clear Hs s.
  induction s as [|c r IH]; [reflexivity|]. simpl.
  rewrite IH, Hf.
  assert (He : Js.isEmpty (Js.mapStr f (Js.trimEnd r))
               = Js.isEmpty (Js.trimEnd r))
    by now destruct (Js.trimEnd r).
  rewrite He. now destruct (Js.isSpace c && Js.isEmpty (Js.trimEnd r)).
Qed.

End TrimFacts.

Section HeaderFacts.

Lemma all_mapStr_fixed (f : ascii -> ascii) (p : ascii -> bool) (s : string) :
  (forall c, p c = true -> f c = c) ->
  Js.all p s = true -> Js.mapStr f s = s.
Proof.
  intros Hf. induction s as [|c r IH]; simpl; [reflexivity|].
  intros H. apply andb_prop in H as [Hc Hr].
  now rewrite (Hf c Hc), (IH Hr).
Qed.

Lemma all_impl (p q : ascii -> bool) (s : string) :
  (forall c, p c = true -> q c = true) ->
  Js.all p s = true -> Js.all q s = true.
Proof.
  intros Hpq. induction s as [|c r IH]; simpl; [reflexivity|].
  intros H. apply andb_prop in H as [Hc Hr].
  now rewrite (Hpq c Hc), (IH Hr).
Qed.

Lemma collapseRuns_token (inRun : bool) (s : string) :
  Js.all isTokenChar (collapseRuns inRun s) = true.
Proof.
  revert inRun. induction s as [|c r IH]; intros inRun; simpl;
    [reflexivity|].
  destruct (Js.isLowerAz c || Js.isDigit c) eqn:E; simpl.
  - unfold isTokenChar at 1. rewrite E. simpl. apply IH.
  - destruct inRun; simpl; apply IH.
Qed.

Lemma collapseRuns_single (inRun : bool) (s : string) :
  singleUnderscores inRun (collapseRuns inRun s) = true.
Proof.
  revert inRun. induction s as [|c r IH]; intros inRun; simpl;
    [reflexivity|].
  destruct (Js.isLowerAz c || Js.isDigit c) eqn:E; simpl.
  - rewrite (alnum_not_underscore c E). apply IH.
  - destruct inRun; simpl; apply IH.
Qed.

(** A token is a fixed point of the last step of [normalizeHeader]. *)
Lemma collapseRuns_fixed (s : string) : forall inRun,
  Js.all isTokenChar s = true ->
  singleUnderscores inRun s = true ->
  collapseRuns inRun s = s.
Proof.
  induction s as [|c r IH]; intros inRun Hall Hsingle; [reflexivity|].
  simpl in *. apply andb_prop in Hall as [Hc Hr].
  destruct (Js.isLowerAz c || Js.isDigit c) eqn:E.
  - rewrite (alnum_not_underscore c E) in Hsingle.
    now rewrite (IH false Hr Hsingle).
  - pose proof (not_alnum_token c E Hc) as ->.
    simpl in Hsingle. destruct inRun; [discriminate|].
    simpl in Hsingle. now rewrite (IH true Hr Hsingle).
Qed.

(** [normalizeHeader] without its guard: the guard only shortcuts the
    empty string, which the steps map to the empty string as well. *)
Lemma normalizeHeader_steps (t : string) :
  normalizeHeader (Some t)
  = collapseRuns false (Js.mapStr stripAccent (Js.toLowerCase (Js.trim t))).
Proof. destruct t; reflexivity. Qed.

End HeaderFacts.

Section HeaderToken.

Lemma normalizeHeader_is_token (text : option string) :
  Js.all isTokenChar (normalizeHeader text) = true /\
  singleUnderscores false (normalizeHeader text) = true.
Proof.
  destruct text as [t|]; [|split; reflexivity].
  rewrite normalizeHeader_steps.
  split; [apply collapseRuns_token | apply collapseRuns_single].
Qed.

Lemma filter_twice_string (p : ascii -> bool) (s : string) :
  Js.filter p (Js.filter p s) = Js.filter p s.
Proof.
  induction s as [|c r IH]; simpl; [reflexivity|].
  destruct (p c) eqn:E; simpl; [rewrite E|]; congruence.
Qed.

Lemma mapStr_mapStr (f g : ascii -> ascii) (s : string) :
  Js.mapStr g (Js.mapStr f s) = Js.mapStr (fun c => g (f c)) s.
Proof. induction s as [|c r IH]; simpl; congruence. Qed.

End HeaderToken.

(** X1. [normalizeKey] is idempotent, and [extractDateFromKey] gives the
    same date for a key and for its normalized form (the extractors call
    it on keys that are already normalized). *)
Theorem normalizeKey_idempotent (key : option string) (s : string) :
  normalizeKey (Some (normalizeKey key)) = normalizeKey key /\
  extractDateFromKey (normalizeKey (Some s)) = extractDateFromKey s.
Proof.
  assert (H : forall k, normalizeKey (Some (normalizeKey k)) = normalizeKey k).
  { intros [k|]; [|reflexivity].
    rewrite !normalizeKey_filter. apply filter_twice_string. }
  split; [apply H|].
  unfold extractDateFromKey. now rewrite (H (Some s)).
Qed.

(** X2. Whatever the input, [normalizeHeader] returns a string made of
    the characters a-z, 0-9 and underscore only, in which no two
    underscores follow each other. *)
Theorem normalizeHeader_token (text : option string) :
  Js.all isTokenChar (normalizeHeader text) = true /\
  singleUnderscores false (normalizeHeader text) = true.
Proof. apply normalizeHeader_is_token. Qed.

(** X3. [normalizeHeader] is idempotent: normalizing a normalized header
    changes nothing. *)
Theorem normalizeHeader_idempotent (text : option string) :
  normalizeHeader (Some (normalizeHeader text)) = normalizeHeader text.
Proof.
  destruct (normalizeHeader_is_token text) as [Htok Hsingle].
  rewrite normalizeHeader_steps.
  rewrite trim_no_space.
  - unfold Js.toLowerCase.
    rewrite (all_mapStr_fixed Js.lowerChar isTokenChar);
      [|intros c Hc; apply (tokenChar_fixed c Hc) | exact Htok].
    rewrite (all_mapStr_fixed stripAccent isTokenChar);
      [|intros c Hc; apply (tokenChar_fixed c Hc) | exact Htok].
    now apply collapseRuns_fixed.
  - eapply all_impl; [|exact Htok].
    intros c Hc. apply negb_true_iff. apply (tokenChar_fixed c Hc).
Qed.

(** X4. Two header texts that differ only in letter case and in the
    accents of their letters have the same normalized form. *)
Theorem normalizeHeader_ignores_case_and_accents (a b : string) :
  Js.mapStr foldCase a = Js.mapStr foldCase b ->
  normalizeHeader (Some a) = normalizeHeader (Some b).
Proof.
  assert (H : forall t,
             normalizeHeader (Some t)
             = collapseRuns false (Js.trim (Js.mapStr foldCase t))).
  { intros t. rewrite normalizeHeader_steps. unfold Js.toLowerCase.
    rewrite mapStr_mapStr. fold foldCase.
    rewrite trim_mapStr; [reflexivity|].
    intros c. unfold foldCase.
    now rewrite isSpace_stripAccent, isSpace_lowerChar. }
  intros E. now rewrite !H, E.
Qed.

(** X4 on the header of the issue date, written with and without its
    tilde. *)
Lemma normalizeHeader_ignores_case_and_accents_witness :
  normalizeHeader (Some ("Emiss" ++ a_tilde ++ "o")%string)
  = normalizeHeader (Some "EMISSAO").
Proof.
  apply normalizeHeader_ignores_case_and_accents. reflexivity.
Defined.

(* ================================================================= *)
(** ** Further properties of the ledger extractor *)

Section LedgerColumns.

(** [findIndex] returns the first index at which the callback holds, and
    has then seen no hole before it. *)
Lemma findIndex_first (p : string -> bool) (headers : list (option string)) :
  forall i0 i,
    Parser.findIndex p headers i0 = Ok (Some i) ->
    exists j h,
      i = i0 + j /\
      nth_error headers j = Some (Some h) /\ p h = true /\
      forall j', j' < j ->
                 exists h', nth_error headers j' = Some (Some h') /\
                            p h' = false.
Proof.
  induction headers as [|[h|] headers IH]; intros i0 i H; simpl in H;
    try discriminate.
  destruct (p h) eqn:E.
  - injection H as <-. exists 0, h.
    split; [lia|]. split; [reflexivity|]. split; [exact E|].
    intros j' Hj. lia.
  - destruct (IH _ _ H) as (j & h1 & -> & Hn & Hp & Hbefore).
    exists (S j), h1.
    split; [lia|]. split; [exact Hn|]. split; [exact Hp|].
    intros [|j'] Hj; simpl; [eauto|]. apply Hbefore. lia.
Qed.

Lemma normalizeKey_twice (key : option string) :
  normalizeKey (Some (normalizeKey key)) = normalizeKey key.
Proof.
  destruct key as [k|]; [|reflexivity].
  rewrite !normalizeKey_filter. apply filter_twice_string.
Qed.

Lemma Forall2_Forall_r (A B : Type) (R : A -> B -> Prop) (Q : B -> Prop)
      (l : list A) (l' : list B) :
  (forall x y, R x y -> Q y) -> Forall2 R l l' -> Forall Q l'.
Proof. intros HRQ. induction 1; constructor; eauto. Qed.

(** A successful extraction with its four column searches. *)
Lemma parseAccountingFile_columns (jsonData : list (list Cell))
      (records : list AccountingRecord.t) :
  Parser.parseAccountingFile jsonData = Ok records ->
  exists row0 dataRows i idxNumero idxValor idxData,
    jsonData = row0 :: dataRows /\
    Parser.findIndex Parser.isChaveHeader (Parser.headersOf row0) 0
      = Ok (Some i) /\
    Parser.findIndex Parser.isNumeroHeader (Parser.headersOf row0) 0
      = Ok idxNumero /\
    Parser.findIndex Parser.isValorHeader (Parser.headersOf row0) 0
      = Ok idxValor /\
    Parser.findIndex Parser.isDataHeader (Parser.headersOf row0) 0
      = Ok idxData /\
    records
    = Parser.accountingRows (Some i) idxNumero idxValor idxData dataRows.
Proof.
  unfold Parser.parseAccountingFile.
  destruct jsonData as [|row0 dataRows]; [discriminate|].
  intros H.
  apply bind_Ok in H as (idxChave & E1 & H).
  apply bind_Ok in H as (idxNumero & E2 & H).
  apply bind_Ok in H as (idxValor & E3 & H).
  apply bind_Ok in H as (idxData & E4 & H).
  destruct idxChave as [i|]; [|discriminate].
  injection H as <-.
  exists row0, dataRows, i, idxNumero, idxValor, idxData. auto 10.
Qed.

Lemma orElse_None_empty (d : string) :
  Js.orElse (Some "") d = Js.orElse None d.
Proof. reflexivity. Qed.

Lemma orElse_nonempty (v : option string) (d : string) :
  d <> "" -> Js.orElse v d <> "".
Proof.
  intros Hd. destruct v as [[|c r]|]; simpl; auto. discriminate.
Qed.

Lemma extractDateFromKey_nonempty (key : string) :
  String.length (normalizeKey (Some key)) = 44 ->
  extractDateFromKey key <> "".
Proof.
  intros H. unfold extractDateFromKey.
  rewrite (proj2 (Nat.eqb_eq _ _) H). simpl negb. cbv iota.
  destruct (length_44_prefix _ H)
    as (c0 & c1 & c2 & c3 & c4 & c5 & rest & ->).
  unfold Js.substring. simpl. discriminate.
Qed.

(** The other fields of the record pushed for a row. *)
Lemma accountingRow_fields (i : nat) (idxNumero idxValor idxData : option nat)
      (row : list Cell) (r : AccountingRecord.t) :
  Parser.accountingRow (Some i) idxNumero idxValor idxData row = Some r ->
  AccountingRecord.id r = AccountingRecord.chave r /\
  AccountingRecord.sourceRow r = row /\
  AccountingRecord.numero r
  = match idxNumero with
    | Some _ => Parser.at_ row idxNumero
    | None => Some ""
    end /\
  AccountingRecord.dataEmissao r
  = Js.orElse (Parser.at_ row idxData)
              (extractDateFromKey (AccountingRecord.chave r)).
Proof.
  unfold Parser.accountingRow.
  destruct (List.length row =? 0); [discriminate|].
  destruct (Parser.at_ row (Some i)) as [raw|]; [|discriminate].
  destruct (Js.isEmpty raw); [discriminate|].
  intros [= <-]. simpl. repeat split.
  - now destruct idxNumero.
  - now destruct idxData.
Qed.

End LedgerColumns.

(** X5. In a successful ledger extraction the key column is the first
    column of row zero whose normalized header contains [chave]: every
    header before it is present and does not contain it.  The key of every
    record is the digits-only form of the cell of its source row in that
    column. *)
Theorem ledger_key_column_is_first_match
        (jsonData : list (list Cell)) (records : list AccountingRecord.t) :
  Parser.parseAccountingFile jsonData = Ok records ->
  exists row0 dataRows i h,
    jsonData = row0 :: dataRows /\
    nth_error (Parser.headersOf row0) i = Some (Some h) /\
    Js.includes h "chave" = true /\
    (forall j, j < i ->
               exists h', nth_error (Parser.headersOf row0) j = Some (Some h')
                          /\ Js.includes h' "chave" = false) /\
    Forall (fun r => exists raw,
                nth_error (AccountingRecord.sourceRow r) i = Some (Some raw)
                /\ AccountingRecord.chave r = normalizeKey (Some raw))
           records.
Proof.
  intros H.
  apply parseAccountingFile_columns in H
    as (row0 & dataRows & i & idxNumero & idxValor & idxData
        & -> & Hi & _ & _ & _ & ->).
  apply findIndex_first in Hi as (j & h & -> & Hn & Hp & Hbefore).
  simpl in *.
  exists row0, dataRows, j, h. split; [reflexivity|]. split; [exact Hn|].
  split.
  { unfold Parser.isChaveHeader in Hp.
    destruct (Js.includes h "chave") eqn:E; [reflexivity|].
    now rewrite (includes_chavenfe h E) in Hp. }
  split.
  { intros j' Hj. destruct (Hbefore j' Hj) as (h' & Hn' & Hp').
    exists h'. split; [exact Hn'|].
    unfold Parser.isChaveHeader in Hp'. now apply orb_false_elim in Hp'. }
  eapply Forall2_Forall_r; [|apply accountingRows_spec].
  intros row r Hr. simpl in Hr.
  pose proof (accountingRow_fields _ _ _ _ _ _ Hr) as (_ & Hrow & _).
  apply accountingRow_Some in Hr as (raw & Hraw & _ & Hk & _).
  exists raw. rewrite Hrow. auto.
Qed.

(** X5 on the sample sheet. *)
Lemma ledger_key_column_is_first_match_witness :
  exists row0 dataRows i h,
    Sample.sheet = row0 :: dataRows /\
    nth_error (Parser.headersOf row0) i = Some (Some h) /\
    Js.includes h "chave" = true.
Proof.
  destruct (ledger_key_column_is_first_match Sample.sheet Sample.sheetRecords
              parse_sample_sheet)
    as (row0 & dataRows & i & h & Heq & Hn & Hc & _).
  exists row0, dataRows, i, h. auto.
Defined.

(** X6. In a successful ledger extraction the issue date of every record
    is the text of the date cell of its row when the date column is
    resolved and the cell is present and not empty, and otherwise the date
    derived from its key; it is therefore never empty for a record with a
    44-digit key.  The [id] of a record is its key. *)
Theorem ledger_date_falls_back_to_key
        (jsonData : list (list Cell)) (records : list AccountingRecord.t) :
  Parser.parseAccountingFile jsonData = Ok records ->
  exists row0 dataRows i idxData,
    jsonData = row0 :: dataRows /\
    Parser.findIndex Parser.isChaveHeader (Parser.headersOf row0) 0
      = Ok (Some i) /\
    Parser.findIndex Parser.isDataHeader (Parser.headersOf row0) 0
      = Ok idxData /\
    Forall2
      (fun row r =>
         AccountingRecord.dataEmissao r
         = Js.orElse (Parser.at_ row idxData)
                     (extractDateFromKey (AccountingRecord.chave r)) /\
         (String.length (AccountingRecord.chave r) = 44 ->
          AccountingRecord.dataEmissao r <> "") /\
         AccountingRecord.id r = AccountingRecord.chave r)
      (List.filter (qualifies i) dataRows) records.
Proof.
  intros H.
  apply parseAccountingFile_columns in H
    as (row0 & dataRows & i & idxNumero & idxValor & idxData
        & -> & Hi & _ & _ & Hd & ->).
  exists row0, dataRows, i, idxData.
  split; [reflexivity|]. split; [exact Hi|]. split; [exact Hd|].
  eapply Forall2_impl; [|apply accountingRows_spec].
  intros row r Hr.
  pose proof (accountingRow_fields _ _ _ _ _ _ Hr) as (Hid & _ & _ & Hdate).
  apply accountingRow_Some in Hr as (raw & _ & _ & Hk & _).
  split; [exact Hdate|]. split; [|exact Hid].
  intros Hlen. rewrite Hdate. apply orElse_nonempty.
  apply extractDateFromKey_nonempty.
  rewrite Hk in Hlen |- *.
  now rewrite normalizeKey_twice.
Qed.

(** X6 on the sample sheet. *)
Lemma ledger_date_falls_back_to_key_witness :
  exists row0 dataRows i idxData,
    Sample.sheet = row0 :: dataRows /\
    Parser.findIndex Parser.isDataHeader (Parser.headersOf row0) 0
      = Ok idxData /\
    List.length (List.filter (qualifies i) dataRows)
    = List.length Sample.sheetRecords.
Proof.
  destruct (ledger_date_falls_back_to_key Sample.sheet Sample.sheetRecords
              parse_sample_sheet)
    as (row0 & dataRows & i & idxData & Heq & _ & Hd & Hrows).
  exists row0, dataRows, i, idxData.
  split; [exact Heq|]. split; [exact Hd|].
  exact (Forall2_length Hrows).
Defined.

Section LedgerValues.

Lemma append_empty_r (s : string) : (s ++ "")%string = s.
Proof. induction s as [|c r IH]; simpl; congruence. Qed.

(** A pattern whose first character does not occur is not found. *)
Lemma replaceFirst_absent (a : ascii) (pat rep s : string) :
  Js.all (fun c => negb (Ascii.eqb a c)) s = true ->
  Js.replaceFirst s (String a pat) rep = s.
Proof.
  induction s as [|c r IH]; simpl; [reflexivity|].
  intros H. apply andb_prop in H as [Hc Hr].
  apply negb_true_iff in Hc. rewrite Hc. simpl. now rewrite (IH Hr).
Qed.

Lemma filter_ext_all (q p1 p2 : ascii -> bool) (s : string) :
  (forall c, q c = true -> p1 c = p2 c) ->
  Js.all q s = true -> Js.filter p1 s = Js.filter p2 s.
Proof.
  intros Hq. induction s as [|c r IH]; simpl; [reflexivity|].
  intros H. apply andb_prop in H as [Hc Hr].
  now rewrite (Hq c Hc), (IH Hr).
Qed.

Lemma spanDigits_all (s : string) :
  Js.all Js.isDigit s = true -> Js.spanDigits s = (s, "").
Proof.
  induction s as [|c r IH]; simpl; [reflexivity|].
  intros H. apply andb_prop in H as [Hc Hr].
  now rewrite Hc, (IH Hr).
Qed.

(** [parseFloat] on a non-empty run of digits. *)
Lemma parseFloat_digits (d : string) :
  Js.all Js.isDigit d = true -> d <> "" ->
  Js.parseFloat d = Js.ofDecimal false (Js.digitsValue 0 d) 0.
Proof.
  intros Hall Hne. destruct d as [|c r]; [congruence|].
  pose proof Hall as Hall'. simpl in Hall'.
  apply andb_prop in Hall' as [Hc _].
  destruct (digit_not_special c Hc) as (Hmi & Hpl & _ & _ & HI & _).
  unfold Js.parseFloat. simpl Js.trimStart.
  rewrite (digit_not_space c Hc).
  unfold Js.takeSign. rewrite Hmi, Hpl.
  change (Js.startsWith (String c r) "Infinity")
    with (Ascii.eqb "I" c && Js.startsWith r "nfinity").
  rewrite HI. cbn [andb].
  rewrite (spanDigits_all _ Hall). cbn iota beta.
  cbn [Js.isEmpty andb]. rewrite append_empty_r. reflexivity.
Qed.

(** The text of a value cell made of digits and periods, as it reaches
    [parseFloat]. *)
Lemma parseValor_digits (s : string) :
  Js.all (fun c => Js.isDigit c || Ascii.eqb c ".") s = true ->
  Js.filter Js.isDigit s <> "" ->
  Parser.parseValor (Some s)
  = Js.ofDecimal false (Js.digitsValue 0 (Js.filter Js.isDigit s)) 0.
Proof.
  intros Hall Hne.
  unfold Parser.parseValor. simpl option_map.
  rewrite (replaceFirst_absent "R" "$" "" s).
  2:{ eapply all_impl; [|exact Hall].
      intros c Hc. apply negb_true_iff.
      apply orb_prop in Hc as [Hc | Hc].
      - apply (digit_not_special c Hc).
      - apply Ascii.eqb_eq in Hc. now subst c. }
  assert (Hrm : Parser.removePeriods s = Js.filter Js.isDigit s).
  { unfold Parser.removePeriods.
    eapply filter_ext_all; [|exact Hall].
    intros c Hc. apply orb_prop in Hc as [Hc | Hc].
    - rewrite Hc. now rewrite (proj1 (proj2 (proj2 (digit_not_special c Hc)))).
    - rewrite Hc. apply Ascii.eqb_eq in Hc. now subst c. }
  rewrite Hrm.
  rewrite (replaceFirst_absent "," "" "." (Js.filter Js.isDigit s)).
  2:{ eapply all_impl; [|apply filter_all].
      intros c Hc. apply negb_true_iff.
      rewrite Ascii.eqb_sym. apply (digit_not_special c Hc). }
  assert (Hor : Js.orElse (Some (Js.filter Js.isDigit s)) "0"
                = Js.filter Js.isDigit s).
  { simpl. destruct (Js.filter Js.isDigit s); [congruence | reflexivity]. }
  rewrite Hor. apply parseFloat_digits; [apply filter_all | exact Hne].
Qed.

End LedgerValues.

(** X7. A value cell made of digits and periods only is read as the whole
    number formed by its digits, rounded to a double: every period is
    dropped as a thousands separator, also the one of a text such as
    [1234.56], which is read as 123456.  The value is the double nearest
    to that whole number, and the whole number itself when it is below
    [2^53]; beyond, digits are lost: [9007199254740993] is read as
    9007199254740992. *)
Theorem ledger_value_periods_dropped (s : string) :
  Js.all (fun c => Js.isDigit c || Ascii.eqb c ".") s = true ->
  Js.filter Js.isDigit s <> "" ->
  let n := Js.digitsValue 0 (Js.filter Js.isDigit s) in
  Parser.parseValor (Some s) = Js.ofDecimal false n 0 /\
  ((Z.of_N n < 2 ^ 53)%Z ->
   Js.exactly false (Z.of_N n) 1 (Parser.parseValor (Some s))) /\
  ((0 < n)%N ->
   Js.nearest false (Z.of_N n) 1 (Parser.parseValor (Some s))).
Proof.
  intros Hall Hne n.
  pose proof (parseValor_digits s Hall Hne) as E. fold n in E.
  rewrite E. split; [reflexivity|]. split.
  - apply ofDecimal_integer.
  - intros Hn. pose proof (ofDecimal_nearest false n 0 Hn) as Hr.
    change (10 ^ Z.max 0 0)%Z with 1%Z in Hr.
    change (10 ^ Z.max 0 (- 0))%Z with 1%Z in Hr.
    now rewrite Z.mul_1_r in Hr.
Qed.

(** X7 on a number written with a decimal point, and on a whole number
    of seventeen digits. *)
Lemma ledger_value_periods_dropped_witness :
  Js.exactly false 123456 1 (Parser.parseValor (Some "1234.56")) /\
  Parser.parseValor (Some "9007199254740993")
  = Js.Num false 4503599627370496 1.
Proof.
  split.
  - pose proof (ledger_value_periods_dropped "1234.56"
                  eq_refl ltac:(discriminate)) as (_ & Hex & _).
    apply Hex. vm_compute. reflexivity.
  - pose proof (ledger_value_periods_dropped "9007199254740993"
                  eq_refl ltac:(discriminate)) as (E & _).
    rewrite E. vm_compute. reflexivity.
Defined.

(* ================================================================= *)
(** ** Further properties of the authority extractor *)

Section HeaderSearch.

Lemma searchRows_cons (cells : list Parser.HtmlCell)
      (rest : list (list Parser.HtmlCell)) (left : nat) :
  Parser.searchRows (cells :: rest) (S left)
  = if Parser.hasAll (cellTextsOf cells)
    then Some (Parser.buildHeaderMap [] (cellTextsOf cells) 0)
    else Parser.searchRows rest left.
Proof. reflexivity. Qed.

Lemma searchRows_None (rows : list (list Parser.HtmlCell)) : forall left,
  Parser.searchRows rows left = None <->
  Forall (fun cells => Parser.hasAll (cellTextsOf cells) = false)
         (firstn left rows).
Proof.
  induction rows as [|cells rows IH]; intros [|left];
    try (split; [constructor | reflexivity]).
  rewrite searchRows_cons. cbn [firstn].
  destruct (Parser.hasAll (cellTextsOf cells)) eqn:E.
  - split; [discriminate|]. intros H. inversion H; subst. congruence.
  - rewrite IH. split; [now constructor | intros H; now inversion H].
Qed.

Lemma searchRows_Some (rows : list (list Parser.HtmlCell)) :
  forall left headerMap,
    Parser.searchRows rows left = Some headerMap ->
    exists k cells,
      k < left /\ nth_error rows k = Some cells /\
      Parser.hasAll (cellTextsOf cells) = true /\
      headerMap = Parser.buildHeaderMap [] (cellTextsOf cells) 0 /\
      Forall (fun cells' => Parser.hasAll (cellTextsOf cells') = false)
             (firstn k rows).
Proof.
  induction rows as [|cells rows IH]; intros [|left] headerMap;
    try discriminate.
  rewrite searchRows_cons.
  destruct (Parser.hasAll (cellTextsOf cells)) eqn:E.
  - intros [= <-]. exists 0, cells.
    split; [lia|]. split; [reflexivity|]. split; [exact E|].
    split; [reflexivity | constructor].
  - intros H. destruct (IH _ _ H) as (k & cells' & Hk & Hn & Hh & Hm & Hb).
    exists (S k), cells'. split; [lia|]. split; [exact Hn|].
    split; [exact Hh|]. split; [exact Hm|]. cbn [firstn]. now constructor.
Qed.

Lemma searchTables_None (tables : list Parser.HtmlTable) :
  Parser.searchTables tables = None <->
  Forall (fun table => Parser.searchRows table 5 = None) tables.
Proof.
  induction tables as [|table tables IH]; simpl.
  - split; [constructor | reflexivity].
  - destruct (Parser.searchRows table 5) eqn:E.
    + split; [discriminate|]. intros H. inversion H; subst. congruence.
    + rewrite IH. split; [now constructor | intros H; now inversion H].
Qed.

Lemma searchTables_Some (tables : list Parser.HtmlTable)
      (table : Parser.HtmlTable) (headerMap : Parser.HeaderMap) :
  Parser.searchTables tables = Some (table, headerMap) ->
  exists before after,
    tables = before ++ table :: after /\
    Forall (fun t => Parser.searchRows t 5 = None) before /\
    Parser.searchRows table 5 = Some headerMap.
Proof.
  induction tables as [|t tables IH]; simpl; [discriminate|].
  destruct (Parser.searchRows t 5) as [hm|] eqn:E.
  - intros [= <- <-]. exists [], tables. auto.
  - intros H. destruct (IH H) as (before & after & -> & Hb & Hs).
    exists (t :: before), after. split; [reflexivity|]. auto.
Qed.

(** The assignment made for one header cell concerns the key role exactly
    when the cell text contains [chave]. *)
Lemma lookup_chave_assignRole (headerMap : Parser.HeaderMap) (txt : string)
      (idx : nat) :
  Parser.lookup "chave" (Parser.assignRole headerMap txt idx)
  = if Js.includes txt "chave" then Some idx
    else Parser.lookup "chave" headerMap.
Proof.
  unfold Parser.assignRole.
  destruct (Js.includes txt "chave"); [reflexivity|].
  destruct (Js.includes txt "situacao"); [reflexivity|].
  destruct (Js.includes txt "numero" || String.eqb txt "nota");
    [reflexivity|].
  destruct (Js.includes txt "serie"); [reflexivity|].
  destruct (Js.includes txt "emitente" && negb (Js.includes txt "cnpj"));
    [reflexivity|].
  destruct (Js.includes txt "data" || Js.includes txt "emissao");
    reflexivity.
Qed.

(** The key role ends up at the last cell whose text contains [chave]. *)
Lemma lookup_chave_build (cellTexts : list string) :
  forall headerMap idx0,
    (Forall (fun t => Js.includes t "chave" = false) cellTexts /\
     Parser.lookup "chave" (Parser.buildHeaderMap headerMap cellTexts idx0)
     = Parser.lookup "chave" headerMap)
    \/
    (exists j t,
        Parser.lookup "chave" (Parser.buildHeaderMap headerMap cellTexts idx0)
        = Some (idx0 + j) /\
        nth_error cellTexts j = Some t /\ Js.includes t "chave" = true /\
        forall j' t', j < j' -> nth_error cellTexts j' = Some t' ->
                      Js.includes t' "chave" = false).
Proof.
  induction cellTexts as [|txt rest IH]; intros headerMap idx0; simpl.
  - left. split; [constructor | reflexivity].
  - destruct (IH (Parser.assignRole headerMap txt idx0) (S idx0))
      as [[Hnone Hl] | (j & t & Hl & Hn & Hc & Hafter)].
    + rewrite lookup_chave_assignRole in Hl.
      destruct (Js.includes txt "chave") eqn:E.
      * right. exists 0, txt. rewrite Nat.add_0_r.
        split; [exact Hl|]. split; [reflexivity|]. split; [exact E|].
        intros [|j'] t' Hj Hn; [lia|]. simpl in Hn.
        rewrite Forall_forall in Hnone. apply Hnone.
        eapply nth_error_In; eauto.
      * left. split; [now constructor | exact Hl].
    + right. exists (S j), t.
      split; [now rewrite Hl, Nat.add_succ_r|].
      split; [exact Hn|]. split; [exact Hc|].
      intros [|j'] t' Hj Hn'; [lia|]. simpl in Hn'.
      eapply Hafter; [|exact Hn']. lia.
Qed.

Lemma hasAll_chave (cellTexts : list string) :
  Parser.hasAll cellTexts = true ->
  exists t, In t cellTexts /\ Js.includes t "chave" = true.
Proof.
  unfold Parser.hasAll, Parser.requiredHeaders. simpl.
  intros H. apply andb_prop in H as [H _].
  now apply existsb_exists in H.
Qed.

End HeaderSearch.

(** X8. The authority extraction is rejected exactly when no table has,
    among its first five rows, a row with a cell whose normalized text
    contains [chave] and a cell whose normalized text contains
    [situacao]; the error is then the one for a missing invoice table, and
    the extractor raises no other error. *)
Theorem authority_rejected_without_header_row
        (tables : list Parser.HtmlTable) :
  (Parser.parseSefazHtml tables = Throw (Error Parser.tableNotFoundMessage)
   <->
   forall table cells,
     In table tables -> In cells (firstn 5 table) ->
     Parser.hasAll (cellTextsOf cells) = false) /\
  (forall e, Parser.parseSefazHtml tables = Throw e ->
             e = Error Parser.tableNotFoundMessage).
Proof.
  unfold Parser.parseSefazHtml.
  destruct (Parser.searchTables tables) as [[table headerMap]|] eqn:E.
  - split; [|discriminate]. split; [discriminate|].
    intros H. exfalso.
    apply searchTables_Some in E as (before & after & -> & _ & Hs).
    apply searchRows_Some in Hs as (k & cells & Hk & Hn & Hh & _).
    rewrite (H table cells) in Hh; [discriminate| |].
    + apply in_or_app. right. now left.
    + apply nth_error_In with (n := k).
      rewrite nth_error_firstn.
      destruct (k <? 5) eqn:E5; [exact Hn|].
      apply Nat.ltb_ge in E5. lia.
  - split; [|now intros e [= <-]].
    split; [|reflexivity]. intros _ table cells Ht Hc.
    apply searchTables_None in E. rewrite Forall_forall in E.
    pose proof (proj1 (searchRows_None table 5) (E table Ht)) as Hrows.
    rewrite Forall_forall in Hrows. now apply Hrows.
Qed.

(** X8 on a page whose only table has its header in the sixth row. *)
Lemma authority_rejected_without_header_row_witness :
  Parser.parseSefazHtml
    [ [ [Sample.td "1"]; [Sample.td "2"]; [Sample.td "3"]; [Sample.td "4"];
        [Sample.td "5"];
        [Sample.td "Chave"; Sample.td "Situacao"; Sample.td "Numero"];
        [Sample.td Sample.key44; Sample.td "Autorizada"; Sample.td "1"] ] ]
  = Throw (Error Parser.tableNotFoundMessage).
Proof.
  apply authority_rejected_without_header_row.
  intros table cells [<- | []] Hc. simpl in Hc.
  destruct Hc as [<- | [<- | [<- | [<- | [<- | []]]]]];
    vm_compute; reflexivity.
Defined.

Section AuthorityRecords.

Lemma getVal_trimmed (headerMap : Parser.HeaderMap)
      (cells : list Parser.HtmlCell) (key : string) :
  trimmed (Parser.getVal headerMap cells key).
Proof.
  unfold Parser.getVal.
  destruct (Parser.cellAt cells (Parser.lookup key headerMap)) as [c|].
  - simpl. destruct (Js.isEmpty (Js.trim (Parser.textContent c))).
    + split; discriminate.
    + apply trim_trimmed.
  - split; discriminate.
Qed.

(** With the key role at column [i], [getVal] reads the trimmed text of
    cell [i], and the empty string when the row has no such cell. *)
Lemma getVal_chave (headerMap : Parser.HeaderMap)
      (cells : list Parser.HtmlCell) (i : nat) :
  Parser.lookup "chave" headerMap = Some i ->
  Parser.getVal headerMap cells "chave"
  = match nth_error cells i with
    | Some c => Js.trim (Parser.textContent c)
    | None => ""
    end.
Proof.
  intros H. unfold Parser.getVal. rewrite H. simpl.
  destruct (nth_error cells i) as [c|]; [|reflexivity].
  simpl. now destruct (Js.trim (Parser.textContent c)).
Qed.

(** The fields of the record pushed for a row. *)
Lemma sefazRow_fields (headerMap : Parser.HeaderMap)
      (cells : list Parser.HtmlCell) (r : SefazRecord.t) :
  Parser.sefazRow headerMap cells = Some r ->
  SefazRecord.id r = SefazRecord.chave r /\
  SefazRecord.numero r = Parser.getVal headerMap cells "numero" /\
  SefazRecord.serie r = Parser.getVal headerMap cells "serie" /\
  SefazRecord.situacao r = Parser.getVal headerMap cells "situacao" /\
  SefazRecord.emitente r = Parser.getVal headerMap cells "emitente" /\
  SefazRecord.data r
  = (if Js.isEmpty (Parser.getVal headerMap cells "data")
     then extractDateFromKey (SefazRecord.chave r)
     else Parser.getVal headerMap cells "data") /\
  SefazRecord.sourceRow r = List.map Parser.innerText cells.
Proof.
  unfold Parser.sefazRow.
  destruct (List.length cells <? 3); [discriminate|].
  destruct (Parser.isHeaderRow headerMap cells); [discriminate|].
  destruct (negb _ && _); [|discriminate].
  intros [= <-]. simpl. repeat split.
Qed.

Lemma orElse_same (d : string) : Js.orElse (Some d) d = d.
Proof. now destruct d. Qed.

Lemma orElse_orElse (v : option string) (d : string) :
  Js.orElse (Some (Js.orElse v d)) d = Js.orElse v d.
Proof. destruct v as [[|c r]|]; simpl; now destruct d. Qed.

Lemma orElse_Some_nonempty (s d : string) :
  Js.isEmpty s = false -> Js.orElse (Some s) d = s.
Proof. simpl. now intros ->. Qed.

(** A derived date is empty or begins and ends with a digit. *)
Lemma extractDateFromKey_trimmed (key : string) :
  trimmed (extractDateFromKey key).
Proof.
  pose proof (normalizeKey_all_digits (Some key)) as Hall.
  unfold extractDateFromKey. cbv zeta.
  remember (normalizeKey (Some key)) as k eqn:Hk. clear Hk.
  destruct (String.length k =? 44) eqn:E; cbn [negb];
    [|split; discriminate].
  apply Nat.eqb_eq in E.
  destruct (length_44_prefix _ E)
    as (c0 & c1 & c2 & c3 & c4 & c5 & rest & ->).
  simpl in Hall.
  apply andb_prop in Hall as [_ Hall]. apply andb_prop in Hall as [_ Hall].
  apply andb_prop in Hall as [_ Hall]. apply andb_prop in Hall as [D3 Hall].
  apply andb_prop in Hall as [D4 _].
  unfold Js.substring. simpl.
  assert (Hrest : String.substring 0 0 rest = "") by now destruct rest.
  rewrite Hrest. simpl.
  split; intros c [= <-]; now apply digit_not_space.
Qed.

End AuthorityRecords.

(** X9. In a successful authority extraction the target table is the
    first table that has a header row among its first five rows, the
    header row is the first such row of it, and the key column is the
    last cell of the header row whose normalized text contains [chave].
    The key of every record is the digits-only form of the trimmed text
    of the cell of one row of the target table in that column. *)
Theorem authority_key_column_is_last_match
        (tables : list Parser.HtmlTable) (records : list SefazRecord.t) :
  Parser.parseSefazHtml tables = Ok records ->
  exists before table after k header i t,
    tables = before ++ table :: after /\
    Forall (fun t' => Forall (fun cells =>
                                Parser.hasAll (cellTextsOf cells) = false)
                             (firstn 5 t')) before /\
    k < 5 /\ nth_error table k = Some header /\
    Parser.hasAll (cellTextsOf header) = true /\
    Forall (fun cells => Parser.hasAll (cellTextsOf cells) = false)
           (firstn k table) /\
    nth_error (cellTextsOf header) i = Some t /\
    Js.includes t "chave" = true /\
    (forall j' t', i < j' -> nth_error (cellTextsOf header) j' = Some t' ->
                   Js.includes t' "chave" = false) /\
    Forall (fun r => exists cells c,
                In cells table /\ nth_error cells i = Some c /\
                SefazRecord.chave r
                = normalizeKey (Some (Js.trim (Parser.textContent c))))
           records.
Proof.
  unfold Parser.parseSefazHtml.
  destruct (Parser.searchTables tables) as [[table headerMap]|] eqn:E;
    [|discriminate].
  intros [= <-].
  apply searchTables_Some in E as (before & after & -> & Hbefore & Hs).
  apply searchRows_Some in Hs as (k & header & Hk & Hn & Hh & Hm & Hrows).
  destruct (lookup_chave_build (cellTextsOf header) [] 0)
    as [[Hnone _] | (i & t & Hl & Hi & Hc & Hafter)].
  { exfalso. destruct (hasAll_chave _ Hh) as (t & Ht & Hc).
    rewrite Forall_forall in Hnone. rewrite (Hnone t Ht) in Hc.
    discriminate. }
  rewrite <- Hm in Hl. simpl in Hl.
  exists before, table, after, k, header, i, t.
  split; [reflexivity|].
  split.
  { eapply Forall_impl; [|exact Hbefore].
    intros t' Ht'. now apply searchRows_None. }
  do 7 (split; [assumption|]).
  eapply Forall_impl; [|apply sefazRows_spec].
  intros r (cells & Hin & Hr).
  pose proof (sefazRow_Some _ _ _ Hr) as (_ & _ & Hkey & Hne & _).
  rewrite (getVal_chave _ cells i Hl) in Hkey.
  destruct (nth_error cells i) as [c|] eqn:Hc'.
  - exists cells, c. auto.
  - exfalso. apply Hne. rewrite Hkey. reflexivity.
Qed.

(** X9 on the sample page. *)
Lemma authority_key_column_is_last_match_witness :
  exists before table after,
    Sample.page = before ++ table :: after /\ List.length before = 1.
Proof.
  destruct (authority_key_column_is_last_match Sample.page Sample.pageRecords
              parse_sample_page)
    as (before & table & after & k & header & i & t & Heq & Hb & Hk & Hn
        & Hh & _).
  exists before, table, after. split; [exact Heq|].
  destruct before as [|b0 [|b1 before]].
  - exfalso. simpl in Heq. injection Heq as <- _.
    destruct k as [|[|k]]; simpl in Hn; try discriminate Hn.
    injection Hn as <-. vm_compute in Hh. discriminate.
  - reflexivity.
  - exfalso. simpl in Heq. injection Heq as _ <- _.
    inversion Hb as [|? ? _ Hb1]; subst.
    inversion Hb1 as [|? ? Hrow _]; subst.
    simpl in Hrow. inversion Hrow as [|? ? Hhead _]; subst.
    vm_compute in Hhead. discriminate.
Defined.

(** X10. Every record of a successful authority extraction has its key as
    [id]; its key consists of digits only; its number, series, status and
    issuer texts neither begin nor end with white space; and its date is
    the trimmed text of the date cell when that is not empty and otherwise
    the date derived from the key, so that it is never empty for a record
    with a 44-digit key. *)
Theorem authority_record_fields
        (tables : list Parser.HtmlTable) (records : list SefazRecord.t) :
  Parser.parseSefazHtml tables = Ok records ->
  Forall
    (fun r =>
       SefazRecord.id r = SefazRecord.chave r /\
       Js.all Js.isDigit (SefazRecord.chave r) = true /\
       trimmed (SefazRecord.numero r) /\
       trimmed (SefazRecord.serie r) /\
       trimmed (SefazRecord.situacao r) /\
       trimmed (SefazRecord.emitente r) /\
       trimmed (SefazRecord.data r) /\
       (String.length (SefazRecord.chave r) = 44 ->
        SefazRecord.data r <> ""))
    records.
Proof.
  unfold Parser.parseSefazHtml.
  destruct (Parser.searchTables tables) as [[table headerMap]|];
    [|discriminate].
  intros [= <-].
  eapply Forall_impl; [|apply sefazRows_spec].
  intros r (cells & _ & Hr).
  pose proof (sefazRow_Some _ _ _ Hr) as (_ & _ & Hkey & _).
  pose proof (sefazRow_fields _ _ _ Hr)
    as (Hid & Hnum & Hser & Hsit & Hemi & Hdata & _).
  split; [exact Hid|].
  split; [rewrite Hkey; apply normalizeKey_all_digits|].
  split; [rewrite Hnum; apply getVal_trimmed|].
  split; [rewrite Hser; apply getVal_trimmed|].
  split; [rewrite Hsit; apply getVal_trimmed|].
  split; [rewrite Hemi; apply getVal_trimmed|].
  split.
  - rewrite Hdata.
    destruct (Js.isEmpty (Parser.getVal headerMap cells "data"));
      [|apply getVal_trimmed].
    apply extractDateFromKey_trimmed.
  - intros Hlen. rewrite Hdata.
    destruct (Js.isEmpty (Parser.getVal headerMap cells "data")) eqn:Ed.
    + apply extractDateFromKey_nonempty.
      rewrite Hkey in Hlen |- *. now rewrite normalizeKey_twice.
    + now apply isEmpty_false.
Qed.

(** X10 on the sample page. *)
Lemma authority_record_fields_witness :
  Forall (fun r => SefazRecord.id r = SefazRecord.chave r /\
                   trimmed (SefazRecord.situacao r))
         Sample.pageRecords.
Proof.
  eapply Forall_impl;
    [|exact (authority_record_fields Sample.page Sample.pageRecords
               parse_sample_page)].
  intros r (Hid & _ & _ & _ & Hsit & _). split; assumption.
Defined.

(** X11. The date fallbacks of [handleCompare] change nothing on records
    that come from the two extractors: the result built for an extracted
    authority record carries the date of that record, and the result built
    in part_002 for an extracted ledger record left in the map carries the
    issue date of that record. *)
Theorem compare_keeps_extracted_dates
        (tables : list Parser.HtmlTable) (authority : list SefazRecord.t)
        (jsonData : list (list Cell)) (ledger : list AccountingRecord.t) :
  Parser.parseSefazHtml tables = Ok authority ->
  Parser.parseAccountingFile jsonData = Ok ledger ->
  (forall s match_ status,
      In s authority ->
      ComparisonResult.data (sefazResult s match_ status)
      = SefazRecord.data s) /\
  (forall a,
      In a ledger ->
      ComparisonResult.data (Part002.remainingResult a)
      = AccountingRecord.dataEmissao a).
Proof.
  intros Hs Ha. split.
  - intros s match_ status Hin. simpl.
    unfold Parser.parseSefazHtml in Hs.
    destruct (Parser.searchTables tables) as [[table headerMap]|];
      [|discriminate].
    injection Hs as <-.
    pose proof (sefazRows_spec headerMap table) as Hall.
    rewrite Forall_forall in Hall.
    destruct (Hall s Hin) as (cells & _ & Hr).
    pose proof (sefazRow_fields _ _ _ Hr) as (_ & _ & _ & _ & _ & Hd & _).
    rewrite Hd.
    destruct (Js.isEmpty (Parser.getVal headerMap cells "data")) eqn:E.
    + apply orElse_same.
    + now apply orElse_Some_nonempty.
  - intros a Hin. simpl.
    apply parseAccountingFile_columns in Ha
      as (row0 & dataRows & i & idxNumero & idxValor & idxData
          & _ & _ & _ & _ & _ & ->).
    destruct (Forall2_In_r _ _ _ _ _ a
                (accountingRows_spec i idxNumero idxValor idxData dataRows)
                Hin) as (row & _ & Hr).
    pose proof (accountingRow_fields _ _ _ _ _ _ Hr) as (_ & _ & _ & Hd).
    rewrite Hd. apply orElse_orElse.
Qed.

(** X11 on the sample page and the sample sheet. *)
Lemma compare_keeps_extracted_dates_witness :
  Forall (fun s => ComparisonResult.data (sefazResult s None CANCELLED)
                   = SefazRecord.data s)
         Sample.pageRecords /\
  Forall (fun a => ComparisonResult.data (Part002.remainingResult a)
                   = AccountingRecord.dataEmissao a)
         Sample.sheetRecords.
Proof.
  destruct (compare_keeps_extracted_dates
              Sample.page Sample.pageRecords Sample.sheet Sample.sheetRecords
              parse_sample_page parse_sample_sheet) as [Hs Ha].
  split; apply Forall_forall; intros x Hx; auto.
Defined.

(* ================================================================= *)
(** ** Further properties of the reconciliation *)

Section Lookup.

(** A lookup in the map built from a ledger succeeds exactly for the
    non-empty keys of the ledger. *)
Lemma buildMapAccounting_found (acc : list AccountingRecord.t) (k : string) :
  (exists a, JsMap.get k (buildMapAccounting acc) = Some a) <->
  k <> "" /\ exists a, In a acc /\ chaveA a = k.
Proof.
  split.
  - intros (a & Ha). apply buildMapAccounting_get in Ha as (Hl & Hk & Hne).
    split; [exact Hne|]. exists a. split; [now apply lastWithKey_In | exact Hk].
  - intros (Hne & Hex).
    destruct (lastWithKey_exists acc k Hex) as (a' & Hl & Hk).
    exists a'. apply buildMapAccounting_get. auto.
Qed.

Lemma buildMapAccounting_not_found (acc : list AccountingRecord.t)
      (k : string) :
  JsMap.get k (buildMapAccounting acc) = None <->
  k = "" \/ forall a, In a acc -> chaveA a <> k.
Proof.
  split.
  - intros Hnone.
    destruct (String.eqb k "") eqn:E; [left; now apply String.eqb_eq|].
    apply String.eqb_neq in E. right. intros a Ha Hk.
    assert (Hex : exists a', JsMap.get k (buildMapAccounting acc) = Some a')
      by (apply buildMapAccounting_found; eauto).
    destruct Hex as (a' & Ha'). congruence.
  - intros H.
    destruct (JsMap.get k (buildMapAccounting acc)) as [a|] eqn:G;
      [|reflexivity].
    apply buildMapAccounting_get in G as (Hl & Hk & Hne).
    destruct H as [H | H]; [congruence|].
    exfalso. apply (H a); [now apply lastWithKey_In | exact Hk].
Qed.

(** A lookup among the pending entries. *)
Lemma get_pending (sef : list SefazRecord.t)
      (m : JsMap.t AccountingRecord.t) (k : string) :
  JsMap.get k (pending sef m) = if hit sef k then None else JsMap.get k m.
Proof.
  unfold pending. induction m as [|[k' v] m IH]; simpl.
  - now destruct (hit sef k).
  - destruct (hit sef k') eqn:Hk'; simpl.
    + rewrite IH. destruct (String.eqb k' k) eqn:E; [|reflexivity].
      apply String.eqb_eq in E. subst k'. now rewrite Hk'.
    + destruct (String.eqb k' k) eqn:E; [|exact IH].
      apply String.eqb_eq in E. subst k'. now rewrite Hk'.
Qed.

Lemma NoDup_delete (m : JsMap.t AccountingRecord.t) (k : string) :
  NoDup (JsMap.keys m) -> NoDup (JsMap.keys (JsMap.delete k m)).
Proof.
  intros H. rewrite delete_filter by exact H. now apply NoDup_keys_filter.
Qed.

(** part_002: the result pushed for the authority record that follows
    the records [pre]. *)
Lemma Part002_pass_at (pre post : list SefazRecord.t) (s : SefazRecord.t)
      (m : JsMap.t AccountingRecord.t) (c : list ComparisonResult.t) :
  NoDup (JsMap.keys m) ->
  exists rs_pre rs_post m',
    fold_left Part002.compareStep (pre ++ s :: post) (m, c)
    = (m', c ++ rs_pre
              ++ [sefazResult s (JsMap.get (chaveS s) (pending pre m))
                    (classify s (JsMap.get (chaveS s) (pending pre m)))]
              ++ rs_post) /\
    List.length rs_pre = List.length pre.
Proof.
  intros Hnd. rewrite fold_left_app.
  destruct (Part002_pass pre m c Hnd) as (rs_pre & -> & Hpre).
  cbn [fold_left]. rewrite Part002_step.
  set (r := sefazResult s (JsMap.get (chaveS s) (pending pre m))
              (classify s (JsMap.get (chaveS s) (pending pre m)))).
  set (m1 := if isCancelada s then pending pre m
             else if Parser.isSome (JsMap.get (chaveS s) (pending pre m))
                  then JsMap.delete (chaveS s) (pending pre m)
                  else pending pre m).
  assert (Hnd0 : NoDup (JsMap.keys (pending pre m)))
    by now apply NoDup_keys_filter.
  assert (Hnd1 : NoDup (JsMap.keys m1)).
  { subst m1. destruct (isCancelada s); [exact Hnd0|].
    destruct (Parser.isSome _); [now apply NoDup_delete | exact Hnd0]. }
  destruct (Part002_pass post m1 ((c ++ rs_pre) ++ [r]) Hnd1)
    as (rs_post & -> & _).
  exists rs_pre, rs_post, (pending post m1).
  split; [|symmetry; exact (Forall2_length Hpre)].
  f_equal. now rewrite <- !app_assoc.
Qed.

End Lookup.

(** X12. In src/App.tsx, when the comparison runs, the result at the
    position of an authority record refers back to the last ledger record
    with the same non-empty key, if there is one, also when the authority
    record is cancelled; it is [MATCHED] exactly when the record is not
    cancelled and the ledger has a record with the same non-empty key, and
    [MISSING_IN_ACCOUNTING] exactly when the record is not cancelled and
    its key is empty or is the key of no ledger record. *)
Theorem authority_only_classification
        (st : AppState) (i : nat) (s : SefazRecord.t) :
  accountingData st <> [] ->
  nth_error (sefazData st) i = Some s ->
  exists r,
    nth_error (results (AppTsx.handleCompare st)) i = Some r /\
    ComparisonResult.sefazRecord r = Some s /\
    (forall a,
        ComparisonResult.accountingRecord r = Some a <->
        lastWithKey (accountingData st) a /\
        AccountingRecord.chave a = SefazRecord.chave s /\
        SefazRecord.chave s <> "") /\
    (ComparisonResult.status r = MATCHED <->
     isCancelada s = false /\ SefazRecord.chave s <> "" /\
     exists a, In a (accountingData st) /\
               AccountingRecord.chave a = SefazRecord.chave s) /\
    (ComparisonResult.status r = MISSING_IN_ACCOUNTING <->
     isCancelada s = false /\
     (SefazRecord.chave s = "" \/
      forall a, In a (accountingData st) ->
                AccountingRecord.chave a <> SefazRecord.chave s)) /\
    ComparisonResult.status r <> MISSING_IN_SEFAZ.
Proof.
  intros Hacc Hi.
  assert (Hsef : sefazData st <> []) by (eapply nth_error_nonempty; eauto).
  unfold AppTsx.handleCompare. rewrite guard_passes by assumption.
  simpl results. rewrite AppTsx_pass. simpl app.
  set (m := buildMapAccounting (accountingData st)).
  exists (sefazResult s (JsMap.get (chaveS s) m)
            (classify s (JsMap.get (chaveS s) m))).
  split.
  { rewrite nth_error_map, Hi. reflexivity. }
  split; [reflexivity|]. simpl.
  split; [intros a; apply buildMapAccounting_get|].
  pose proof (buildMapAccounting_found (accountingData st) (chaveS s)) as Hf.
  pose proof (buildMapAccounting_not_found (accountingData st) (chaveS s))
    as Hn.
  fold m in Hf, Hn. unfold classify.
  destruct (isCancelada s).
  { repeat split; try discriminate; intros [H _]; discriminate. }
  destruct (JsMap.get (chaveS s) m) as [a|] eqn:G; simpl.
  - repeat split; try discriminate.
    + apply Hf. eauto.
    + apply Hf. eauto.
    + intros [_ H]. apply Hn in H. discriminate.
  - repeat split; try discriminate.
    + intros (_ & H). apply Hf in H as (a & Ha). discriminate.
    + now apply Hn.
Qed.

(** X12 on a booked invoice that the authority reports as cancelled: the
    result still refers back to the ledger record. *)
Lemma authority_only_classification_witness :
  exists r,
    nth_error (results (AppTsx.handleCompare Sample.cancelledAndBooked)) 0
      = Some r /\
    ComparisonResult.accountingRecord r
    = Some (Sample.ledger Sample.key44 "100" 50).
Proof.
  destruct (authority_only_classification Sample.cancelledAndBooked 0
              (Sample.authority Sample.key44 "CANCELADA pelo emitente"))
    as (r & Hr & _ & Hback & _).
  - simpl. discriminate.
  - reflexivity.
  - exists r. split; [exact Hr|]. apply Hback.
    split; [|split; [reflexivity | discriminate]].
    exists [], []. split; [reflexivity | constructor].
Defined.

(** X13. In part_002 a ledger record is matched at most once.  When the
    comparison runs, the result at the position of an authority record
    refers back to a ledger record exactly when that is the last ledger
    record with the same non-empty key and no earlier authority record
    with that key was matched (none is uncancelled); it is [MATCHED]
    exactly when, besides, the record is not cancelled.  A later
    uncancelled authority record with the same key is classified
    [MISSING_IN_ACCOUNTING], with value [0]. *)
Theorem repeated_authority_key_matched_once
        (st : AppState) (pre post : list SefazRecord.t) (s : SefazRecord.t) :
  accountingData st <> [] ->
  sefazData st = pre ++ s :: post ->
  exists r,
    nth_error (results (Part002.handleCompare st)) (List.length pre)
      = Some r /\
    ComparisonResult.sefazRecord r = Some s /\
    (forall a,
        ComparisonResult.accountingRecord r = Some a <->
        hit pre (SefazRecord.chave s) = false /\
        lastWithKey (accountingData st) a /\
        AccountingRecord.chave a = SefazRecord.chave s /\
        SefazRecord.chave s <> "") /\
    (ComparisonResult.status r = MATCHED <->
     isCancelada s = false /\ hit pre (SefazRecord.chave s) = false /\
     SefazRecord.chave s <> "" /\
     exists a, In a (accountingData st) /\
               AccountingRecord.chave a = SefazRecord.chave s) /\
    (isCancelada s = false -> hit pre (SefazRecord.chave s) = true ->
     ComparisonResult.status r = MISSING_IN_ACCOUNTING /\
     ComparisonResult.valor r = Js.zero /\
     ComparisonResult.accountingRecord r = None).
Proof.
  intros Hacc Hsef.
  assert (Hne : sefazData st <> [])
    by (rewrite Hsef; now destruct pre).
  unfold Part002.handleCompare. rewrite guard_passes by assumption.
  rewrite Hsef.
  set (m := buildMapAccounting (accountingData st)).
  destruct (Part002_pass_at pre post s m [] (buildMapAccounting_NoDup _))
    as (rs_pre & rs_post & m' & -> & Hlen).
  simpl results. rewrite push_all. simpl app at 1.
  set (mt := JsMap.get (chaveS s) (pending pre m)).
  exists (sefazResult s mt (classify s mt)).
  split.
  { rewrite <- app_assoc.
    rewrite nth_error_app2 by lia.
    rewrite Hlen, Nat.sub_diag. reflexivity. }
  split; [reflexivity|].
  assert (Hmt : mt = if hit pre (chaveS s) then None
                     else JsMap.get (chaveS s) m)
    by apply get_pending.
  pose proof (buildMapAccounting_found (accountingData st) (chaveS s)) as Hf.
  fold m in Hf.
  simpl. split; [|split].
  - intros a. rewrite Hmt.
    destruct (hit pre (chaveS s)).
    + split; [discriminate | intros [H _]; discriminate].
    + unfold m. rewrite buildMapAccounting_get. tauto.
  - unfold classify. rewrite Hmt.
    destruct (isCancelada s).
    { split; [discriminate | intros [H _]; discriminate]. }
    destruct (hit pre (chaveS s)); simpl.
    { split; [discriminate | intros (_ & H & _); discriminate]. }
    destruct (JsMap.get (chaveS s) m) as [a|] eqn:G; simpl.
    + split; [|reflexivity]. intros _.
      split; [reflexivity|]. split; [reflexivity|]. apply Hf. eauto.
    + split; [discriminate|]. intros (_ & _ & H).
      apply Hf in H as (a & Ha). discriminate.
  - intros Hc Hh. unfold classify. rewrite Hmt, Hc, Hh. simpl. auto.
Qed.

(** X13 on an authority list with the key of a ledger record twice, both
    times authorised: the second result is not matched. *)
Lemma repeated_authority_key_matched_once_witness :
  exists r,
    nth_error
      (results
         (Part002.handleCompare
            (Sample.state [Sample.ledger "3" "D" 4]
                          [Sample.authority "3" "Autorizada";
                           Sample.authority "3" "Autorizada"])))
      1 = Some r /\
    ComparisonResult.status r = MISSING_IN_ACCOUNTING /\
    ComparisonResult.valor r = Js.zero.
Proof.
  destruct (repeated_authority_key_matched_once
              (Sample.state [Sample.ledger "3" "D" 4]
                            [Sample.authority "3" "Autorizada";
                             Sample.authority "3" "Autorizada"])
              [Sample.authority "3" "Autorizada"] []
              (Sample.authority "3" "Autorizada"))
    as (r & Hr & _ & _ & _ & Hsecond).
  - simpl. discriminate.
  - reflexivity.
  - exists r. split; [exact Hr|].
    destruct Hsecond as (Hst & Hv & _); [reflexivity | reflexivity|].
    auto.
Defined.

(** X14. [handleCompare] compares only when both datasets are loaded.
    With an empty ledger or an empty authority list, both versions only
    set the error message: the previous results, the compared flag and
    the page stay as they were.  Otherwise both versions keep the
    datasets and the error as they were, set the compared flag, go back to
    page 1 and replace the results: src/App.tsx by one result per
    authority record, part_002 by one result per authority record and one
    per ledger record left in the map. *)
Theorem compare_needs_both_datasets (st : AppState) :
  (accountingData st = [] \/ sefazData st = [] ->
   AppTsx.handleCompare st = setError st (Some bothFilesMessage) /\
   Part002.handleCompare st = setError st (Some bothFilesMessage) /\
   results (setError st (Some bothFilesMessage)) = results st /\
   isCompared (setError st (Some bothFilesMessage)) = isCompared st) /\
  (accountingData st <> [] -> sefazData st <> [] ->
   (isCompared (AppTsx.handleCompare st) = true /\
    currentPage (AppTsx.handleCompare st) = 1 /\
    error (AppTsx.handleCompare st) = error st /\
    accountingData (AppTsx.handleCompare st) = accountingData st /\
    sefazData (AppTsx.handleCompare st) = sefazData st /\
    List.length (results (AppTsx.handleCompare st))
    = List.length (sefazData st)) /\
   (isCompared (Part002.handleCompare st) = true /\
    currentPage (Part002.handleCompare st) = 1 /\
    error (Part002.handleCompare st) = error st /\
    accountingData (Part002.handleCompare st) = accountingData st /\
    sefazData (Part002.handleCompare st) = sefazData st /\
    List.length (results (Part002.handleCompare st))
    = List.length (sefazData st)
      + List.length (pending (sefazData st)
                             (buildMapAccounting (accountingData st))))).
Proof.
  split.
  - intros H.
    assert (Hg : (List.length (accountingData st) =? 0)
                 || (List.length (sefazData st) =? 0) = true).
    { destruct H as [-> | ->]; [reflexivity | apply orb_true_r]. }
    unfold AppTsx.handleCompare, Part002.handleCompare. rewrite Hg.
    repeat split.
  - intros Hacc Hsef. split.
    + pose proof (AppTsx_results st Hacc Hsef) as Hres.
      apply Forall2_length in Hres.
      unfold AppTsx.handleCompare in *.
      rewrite guard_passes in * by assumption.
      repeat split. simpl in *. now rewrite Hres.
    + destruct (Part002_results st Hacc Hsef) as (rs & Heq & Hrs).
      apply Forall2_length in Hrs.
      assert (Hlen : List.length (results (Part002.handleCompare st))
                     = List.length (sefazData st)
                       + List.length
                           (pending (sefazData st)
                              (buildMapAccounting (accountingData st)))).
      { rewrite Heq, length_app, length_map. unfold JsMap.values.
        rewrite length_map. lia. }
      split; [|split; [|split; [|split; [|split; [|exact Hlen]]]]];
        unfold Part002.handleCompare;
        rewrite guard_passes by assumption;
        destruct (fold_left Part002.compareStep _ _); reflexivity.
Qed.

(** X14 with an authority list and no ledger. *)
Lemma compare_needs_both_datasets_witness :
  results (AppTsx.handleCompare
             (Sample.state [] [Sample.authority "9" "Autorizada"])) = [] /\
  error (Part002.handleCompare
           (Sample.state [] [Sample.authority "9" "Autorizada"]))
  = Some bothFilesMessage.
Proof.
  destruct (compare_needs_both_datasets
              (Sample.state [] [Sample.authority "9" "Autorizada"]))
    as [Hempty _].
  destruct Hempty as (Ha & Hb & _); [left; reflexivity|].
  rewrite Ha, Hb. split; reflexivity.
Defined.

(* ================================================================= *)
(** ** Statistics, filter and export *)

Section Counting.

Lemma status_value_eqb (a b : MatchStatus) :
  String.eqb (MatchStatus_value a) (MatchStatus_value b) = true <-> a = b.
Proof.
  destruct a, b; vm_compute; split; congruence.
Qed.

Lemma status_value_not_all (a : MatchStatus) :
  String.eqb (MatchStatus_value a) "all" = false.
Proof. destruct a; vm_compute; reflexivity. Qed.

Lemma includes_empty (s : string) : Js.includes s "" = true.
Proof. rewrite includes_unfold. now destruct s. Qed.

Lemma matchesText_empty (r : ComparisonResult.t) : matchesText "" r = true.
Proof.
  unfold matchesText.
  rewrite (includes_empty (ComparisonResult.chave r)).
  now rewrite orb_true_r.
Qed.

Lemma countStatus_cons (st : MatchStatus) (r : ComparisonResult.t)
      (rs : list ComparisonResult.t) :
  countStatus st (r :: rs)
  = (if String.eqb (MatchStatus_value (ComparisonResult.status r))
                   (MatchStatus_value st) then 1 else 0)
    + countStatus st rs.
Proof.
  unfold countStatus. simpl.
  now destruct (String.eqb _ _).
Qed.

Lemma countStatus_app (st : MatchStatus) (a b : list ComparisonResult.t) :
  countStatus st (a ++ b) = countStatus st a + countStatus st b.
Proof. unfold countStatus. now rewrite filter_app, length_app. Qed.

(** The counters after the loop of [stats], from any starting values. *)
Lemma fold_countResult (rs : list ComparisonResult.t) : forall s,
  fold_left countResult rs s
  = mkStats (total s)
            (matched s + countStatus MATCHED rs)
            (missingInAccounting s + countStatus MISSING_IN_ACCOUNTING rs)
            (cancelled s + countStatus CANCELLED rs)
            (others s + countStatus MISSING_IN_SEFAZ rs).
Proof.
  induction rs as [|r rs IH]; intros s.
  - destruct s. simpl. unfold countStatus. simpl.
    now rewrite !Nat.add_0_r.
  - cbn [fold_left]. rewrite IH, !countStatus_cons.
    unfold countResult.
    destruct (ComparisonResult.status r); simpl; f_equal; lia.
Qed.

Lemma countStatus_total (rs : list ComparisonResult.t) :
  countStatus MATCHED rs + countStatus MISSING_IN_ACCOUNTING rs
  + countStatus CANCELLED rs + countStatus MISSING_IN_SEFAZ rs
  = List.length rs.
Proof.
  induction rs as [|r rs IH]; [reflexivity|].
  rewrite !countStatus_cons. simpl List.length.
  destruct (ComparisonResult.status r); simpl; lia.
Qed.

Lemma stats_counts (rs : list ComparisonResult.t) :
  stats rs
  = mkStats (List.length rs) (countStatus MATCHED rs)
            (countStatus MISSING_IN_ACCOUNTING rs)
            (countStatus CANCELLED rs) (countStatus MISSING_IN_SEFAZ rs).
Proof. unfold stats. now rewrite fold_countResult. Qed.

(** The statuses of the results pushed for the authority records. *)
Lemma resultOf_counts (m : JsMap.t AccountingRecord.t)
      (sef : list SefazRecord.t) (rs : list ComparisonResult.t) :
  Forall2 (resultOf m) sef rs ->
  countStatus MISSING_IN_SEFAZ rs = 0 /\
  countStatus CANCELLED rs = List.length (List.filter isCancelada sef).
Proof.
  induction 1 as [|s r sef rs (mt & -> & _) _ [IH1 IH2]]; [split; reflexivity|].
  rewrite !countStatus_cons, IH1, IH2. simpl.
  unfold classify.
  destruct (isCancelada s); [split; reflexivity|].
  destruct (Parser.isSome mt); split; reflexivity.
Qed.

Lemma remainingResult_counts (l : list AccountingRecord.t) :
  countStatus MISSING_IN_SEFAZ (List.map Part002.remainingResult l)
  = List.length l /\
  countStatus CANCELLED (List.map Part002.remainingResult l) = 0.
Proof.
  induction l as [|a l [IH1 IH2]]; [split; reflexivity|].
  simpl List.map. rewrite !countStatus_cons, IH1, IH2. split; reflexivity.
Qed.

(** On a result of the authority pass, and on a result built for a ledger
    record left in the map, the test of the pending report only looks at
    the status. *)
Lemma isPending_resultOf (m : JsMap.t AccountingRecord.t) (s : SefazRecord.t)
      (r : ComparisonResult.t) :
  resultOf m s r ->
  isPending r
  = String.eqb (MatchStatus_value (ComparisonResult.status r))
               (MatchStatus_value MISSING_IN_ACCOUNTING) /\
  (isPending r = true ->
   ComparisonResult.valor r = Js.zero /\
   ComparisonResult.accountingRecord r = None /\
   ComparisonResult.sefazRecord r = Some s /\ isCancelada s = false).
Proof.
  intros (mt & -> & _). unfold isPending, classify. simpl.
  fold (isCancelada s).
  destruct (isCancelada s) eqn:Ec; [split; [reflexivity | discriminate]|].
  destruct mt; simpl; [split; [reflexivity | discriminate]|].
  split; [reflexivity | auto].
Qed.

Lemma filter_ext_Forall (A : Type) (f g : A -> bool) (P : A -> Prop)
      (l : list A) :
  Forall P l -> (forall x, P x -> f x = g x) ->
  List.filter f l = List.filter g l.
Proof.
  intros H Hfg. induction H as [|x l Hx _ IH]; [reflexivity|].
  simpl. now rewrite (Hfg x Hx), IH.
Qed.

End Counting.

(** X15. For every result list, the statistics count each result once:
    the total is the length of the list and equals the sum of the four
    counters, and each counter is the number of results with its status,
    [others] counting the results with status [MISSING_IN_SEFAZ]. *)
Theorem stats_partition (rs : list ComparisonResult.t) :
  total (stats rs) = List.length rs /\
  total (stats rs)
  = matched (stats rs) + missingInAccounting (stats rs)
    + cancelled (stats rs) + others (stats rs) /\
  matched (stats rs) = countStatus MATCHED rs /\
  missingInAccounting (stats rs) = countStatus MISSING_IN_ACCOUNTING rs /\
  cancelled (stats rs) = countStatus CANCELLED rs /\
  others (stats rs) = countStatus MISSING_IN_SEFAZ rs.
Proof.
  rewrite stats_counts. simpl. repeat split.
  now rewrite countStatus_total.
Qed.

(** X16. After a comparison, the cancelled counter is the number of
    authority records whose status text contains "cancelada".  In
    src/App.tsx the [others] counter is 0 and the total is the number of
    authority records.  In part_002 the three displayed counters add up to
    the number of authority records and [others] is the number of ledger
    records left in the map, so that the total exceeds the sum of the
    displayed counters by that number. *)
Theorem stats_after_compare (st : AppState) :
  accountingData st <> [] ->
  sefazData st <> [] ->
  (let s := stats (results (AppTsx.handleCompare st)) in
   total s = List.length (sefazData st) /\
   others s = 0 /\
   cancelled s = List.length (List.filter isCancelada (sefazData st))) /\
  (let s := stats (results (Part002.handleCompare st)) in
   matched s + missingInAccounting s + cancelled s
   = List.length (sefazData st) /\
   others s
   = List.length (pending (sefazData st)
                          (buildMapAccounting (accountingData st))) /\
   cancelled s = List.length (List.filter isCancelada (sefazData st))).
Proof.
  intros Hacc Hsef. split.
  - pose proof (AppTsx_results st Hacc Hsef) as Hres.
    destruct (resultOf_counts _ _ _ Hres) as [Ho Hc].
    cbv zeta. rewrite stats_counts. simpl.
    split; [symmetry; exact (Forall2_length Hres)|]. auto.
  - destruct (Part002_results st Hacc Hsef) as (rs & Heq & Hrs).
    destruct (resultOf_counts _ _ _ Hrs) as [Ho Hc].
    pose proof (Forall2_length Hrs) as Hlen.
    pose proof (countStatus_total rs) as Htot.
    cbv zeta. rewrite stats_counts, Heq. simpl.
    rewrite !countStatus_app.
    set (left := JsMap.values
                   (pending (sefazData st)
                            (buildMapAccounting (accountingData st)))).
    destruct (remainingResult_counts left) as [Lo Lc].
    assert (Lm : countStatus MATCHED (List.map Part002.remainingResult left)
                 = 0).
    { pose proof (countStatus_total (List.map Part002.remainingResult left))
        as Ht. rewrite length_map in Ht. lia. }
    assert (Ln : countStatus MISSING_IN_ACCOUNTING
                   (List.map Part002.remainingResult left) = 0).
    { pose proof (countStatus_total (List.map Part002.remainingResult left))
        as Ht. rewrite length_map in Ht. lia. }
    rewrite Lo, Lc, Lm, Ln, Ho, Hc.
    unfold left, JsMap.values. rewrite length_map.
    repeat split; lia.
Qed.

(** X16 on a booked invoice that the authority reports as cancelled:
    part_002 counts one cancelled result and one other result. *)
Lemma stats_after_compare_witness :
  cancelled (stats (results (Part002.handleCompare Sample.cancelledAndBooked)))
  = 1 /\
  others (stats (results (Part002.handleCompare Sample.cancelledAndBooked)))
  = 1 /\
  others (stats (results (AppTsx.handleCompare Sample.cancelledAndBooked)))
  = 0.
Proof.
  destruct (stats_after_compare Sample.cancelledAndBooked)
    as [(_ & Ha & _) (_ & Hb & Hc)].
  - simpl. discriminate.
  - simpl. discriminate.
  - cbv zeta in *. rewrite Ha, Hb, Hc. repeat split.
Defined.

(** X17. After a comparison, in both versions, the pending report (the
    rows passed to [exportToPdf] when only the pending ones are asked
    for) holds exactly the results that the table shows under the status
    filter of the not-booked status with an empty search text: the test
    on the status text never excludes a result.  Every row of the report
    has value [0], refers to no ledger record, and refers to an authority
    record that is not cancelled. *)
Theorem pending_report_rows (st : AppState) :
  accountingData st <> [] ->
  sefazData st <> [] ->
  (fst (handleExportPDF (results (AppTsx.handleCompare st)) true)
   = filteredResults (results (AppTsx.handleCompare st)) ""
                     (MatchStatus_value MISSING_IN_ACCOUNTING) /\
   fst (handleExportPDF (results (Part002.handleCompare st)) true)
   = filteredResults (results (Part002.handleCompare st)) ""
                     (MatchStatus_value MISSING_IN_ACCOUNTING)) /\
  Forall
    (fun r =>
       ComparisonResult.status r = MISSING_IN_ACCOUNTING /\
       ComparisonResult.valor r = Js.zero /\
       ComparisonResult.accountingRecord r = None /\
       exists s, ComparisonResult.sefazRecord r = Some s /\
                 isCancelada s = false)
    (fst (handleExportPDF (results (AppTsx.handleCompare st)) true)
     ++ fst (handleExportPDF (results (Part002.handleCompare st)) true)).
Proof.
  intros Hacc Hsef.
  set (m := buildMapAccounting (accountingData st)).
  (* what holds of every result of a comparison *)
  set (P := fun r : ComparisonResult.t =>
              (exists s, resultOf m s r)
              \/ exists a, r = Part002.remainingResult a).
  assert (HA : Forall P (results (AppTsx.handleCompare st))).
  { apply Forall_forall. intros r Hr.
    destruct (Forall2_In_r _ _ _ _ _ r (AppTsx_results st Hacc Hsef) Hr)
      as (s & _ & Hs).
    left. now exists s. }
  assert (HB : Forall P (results (Part002.handleCompare st))).
  { destruct (Part002_results st Hacc Hsef) as (rs & -> & Hrs).
    apply Forall_forall. intros r Hr.
    apply in_app_or in Hr as [Hr | Hr].
    - destruct (Forall2_In_r _ _ _ _ _ r Hrs Hr) as (s & _ & Hs).
      left. now exists s.
    - apply in_map_iff in Hr as (a & <- & _). right. now exists a. }
  assert (Htest : forall r, P r ->
            isPending r
            = matchesText "" r
              && matchesStatus (MatchStatus_value MISSING_IN_ACCOUNTING) r).
  { intros r Hr. rewrite matchesText_empty. unfold matchesStatus. simpl.
    destruct Hr as [(s & Hs) | (a & ->)].
    - apply (isPending_resultOf m s r Hs).
    - reflexivity. }
  assert (Hrow : forall r, P r -> isPending r = true ->
            ComparisonResult.status r = MISSING_IN_ACCOUNTING /\
            ComparisonResult.valor r = Js.zero /\
            ComparisonResult.accountingRecord r = None /\
            exists s, ComparisonResult.sefazRecord r = Some s /\
                      isCancelada s = false).
  { intros r Hr Hp.
    destruct Hr as [(s & Hs) | (a & ->)]; [|discriminate].
    destruct (isPending_resultOf m s r Hs) as [Heq Hfields].
    rewrite Heq in Hp. apply status_value_eqb in Hp.
    destruct Hfields as (Hv & Hb & Hs' & Hc);
      [rewrite Heq; now apply status_value_eqb|].
    split; [exact Hp|]. split; [exact Hv|]. split; [exact Hb|].
    now exists s. }
  unfold handleExportPDF, filteredResults. simpl fst.
  split; [split|].
  - eapply filter_ext_Forall; [exact HA | exact Htest].
  - eapply filter_ext_Forall; [exact HB | exact Htest].
  - apply Forall_app.
    split; apply Forall_forall; intros r Hr;
      apply filter_In in Hr as [Hin Hp]; apply Hrow; try exact Hp.
    + rewrite Forall_forall in HA. now apply HA.
    + rewrite Forall_forall in HB. now apply HB.
Qed.

(** X17 on the sample with a repeated ledger key: the report of part_002
    holds the one authority record, which is not booked. *)
Lemma pending_report_rows_witness :
  List.map ComparisonResult.chave
           (fst (handleExportPDF
                   (results (Part002.handleCompare Sample.repeatedLedgerKey))
                   true))
  = ["9"] /\
  List.length
    (filteredResults (results (Part002.handleCompare Sample.repeatedLedgerKey))
                     "" (MatchStatus_value MISSING_IN_ACCOUNTING))
  = 1.
Proof.
  destruct (pending_report_rows Sample.repeatedLedgerKey)
    as [[_ Hb] _].
  - simpl. discriminate.
  - simpl. discriminate.
  - rewrite <- Hb. split; reflexivity.
Defined.

(** X18. With an empty search text, the status filter [all] shows every
    result, and the filter of a status shows exactly the results with
    that status, as many as the statistics count for it. *)
Theorem filter_agrees_with_stats (rs : list ComparisonResult.t) :
  filteredResults rs "" "all" = rs /\
  (forall st r,
      In r (filteredResults rs "" (MatchStatus_value st)) <->
      In r rs /\ ComparisonResult.status r = st) /\
  List.length (filteredResults rs "" (MatchStatus_value MATCHED))
  = matched (stats rs) /\
  List.length (filteredResults rs "" (MatchStatus_value MISSING_IN_ACCOUNTING))
  = missingInAccounting (stats rs) /\
  List.length (filteredResults rs "" (MatchStatus_value CANCELLED))
  = cancelled (stats rs).
Proof.
  assert (Hf : forall st,
             filteredResults rs "" (MatchStatus_value st)
             = List.filter
                 (fun r => String.eqb
                             (MatchStatus_value (ComparisonResult.status r))
                             (MatchStatus_value st)) rs).
  { intros st. unfold filteredResults. apply filter_ext. intros r.
    rewrite matchesText_empty. unfold matchesStatus.
    rewrite status_value_not_all. reflexivity. }
  split; [|split].
  - unfold filteredResults. apply filter_true. intros r _.
    now rewrite matchesText_empty.
  - intros st r. rewrite Hf, filter_In, status_value_eqb. reflexivity.
  - rewrite !Hf, stats_counts. repeat split.
Qed.

(** X19. Whatever the search text, a result with status
    [MISSING_IN_SEFAZ] passes the filter only under the option [all] of
    the status select: no option selects the ledger records that part_002
    reports as missing at the authority.  Under a status option, every
    result shown has the status of the option. *)
Theorem missing_at_authority_only_under_all
        (rs : list ComparisonResult.t) (filterText option : string)
        (r : ComparisonResult.t) :
  In option statusOptions ->
  In r (filteredResults rs filterText option) ->
  (ComparisonResult.status r = MISSING_IN_SEFAZ -> option = "all") /\
  (option <> "all" ->
   MatchStatus_value (ComparisonResult.status r) = option).
Proof.
  intros Hopt Hr.
  apply filter_In in Hr as [_ Hr]. apply andb_prop in Hr as [_ Hs].
  unfold matchesStatus in Hs.
  destruct (String.eqb option "all") eqn:E.
  - apply String.eqb_eq in E. split; [auto | congruence].
  - simpl in Hs. apply String.eqb_eq in Hs. split; [|auto].
    intros Hst. rewrite Hst in Hs. subst option.
    simpl in Hopt.
    destruct Hopt as [H | [H | [H | [H | []]]]]; vm_compute in H;
      discriminate H.
Qed.

(** X19 on a result that part_002 builds for a ledger record: the option
    of the matched status does not show it. *)
Lemma missing_at_authority_only_under_all_witness :
  In (MatchStatus_value MATCHED) statusOptions /\
  ~ In (Part002.remainingResult (Sample.ledger "7" "C" 3))
       (filteredResults [Part002.remainingResult (Sample.ledger "7" "C" 3)]
                        "" (MatchStatus_value MATCHED)).
Proof.
  assert (Hopt : In (MatchStatus_value MATCHED) statusOptions)
    by (right; left; reflexivity).
  split; [exact Hopt|]. intros Hin.
  destruct (missing_at_authority_only_under_all _ _ _ _ Hopt Hin) as [H _].
  specialize (H eq_refl). vm_compute in H. discriminate H.
Defined.

(* ================================================================= *)
(** ** Pages *)

Section Pages.

Lemma firstn_add (A : Type) (a b : nat) (l : list A) :
  firstn (a + b) l = firstn a l ++ firstn b (skipn a l).
Proof.
  revert l. induction a as [|a IH]; intros l; [reflexivity|].
  destruct l as [|x l]; simpl.
  - now rewrite firstn_nil.
  - now rewrite IH.
Qed.

Lemma firstn_skipn_clamped (A : Type) (n a : nat) (l : list A) :
  firstn (Nat.min n (List.length l - Nat.min a (List.length l)))
         (skipn (Nat.min a (List.length l)) l)
  = firstn n (skipn a l).
Proof.
  destruct (Nat.le_gt_cases (List.length l) a) as [H | H].
  - replace (Nat.min a (List.length l)) with (List.length l) by lia.
    rewrite !skipn_all2 by lia. now rewrite !firstn_nil.
  - replace (Nat.min a (List.length l)) with a by lia.
    destruct (Nat.le_gt_cases n (List.length l - a)) as [Hn | Hn].
    + now replace (Nat.min n (List.length l - a)) with n by lia.
    + replace (Nat.min n (List.length l - a)) with (List.length l - a)
        by lia.
      rewrite !firstn_all2; [reflexivity | |]; rewrite length_skipn; lia.
Qed.

(** From page 1 on, a page is the next hundred elements after the pages
    before it. *)
Lemma paginatedData_nat (l : list ComparisonResult.t) (p : nat) :
  1 <= p ->
  paginatedData l p
  = firstn itemsPerPage (skipn ((p - 1) * itemsPerPage) l).
Proof.
  intros Hp. unfold paginatedData, slice, itemsPerPage.
  set (len := List.length l).
  destruct (Z.ltb_spec ((Z.of_nat p - 1) * Z.of_nat 100) 0) as [H | _];
    [lia|].
  destruct (Z.ltb_spec (Z.of_nat p * Z.of_nat 100) 0) as [H | _]; [lia|].
  replace (Z.to_nat (Z.min ((Z.of_nat p - 1) * Z.of_nat 100) (Z.of_nat len)))
    with (Nat.min ((p - 1) * 100) len) by lia.
  replace (Z.to_nat
             (Z.min (Z.of_nat p * Z.of_nat 100) (Z.of_nat len)
              - Z.min ((Z.of_nat p - 1) * Z.of_nat 100) (Z.of_nat len)))
    with (Nat.min 100 (len - Nat.min ((p - 1) * 100) len)) by lia.
  apply firstn_skipn_clamped.
Qed.

Lemma pagesUpTo_firstn (l : list ComparisonResult.t) (n : nat) :
  pagesUpTo l n = firstn (n * itemsPerPage) l.
Proof.
  induction n as [|n IH]; [reflexivity|].
  cbn [pagesUpTo]. rewrite IH, paginatedData_nat by lia.
  replace (S n - 1) with n by lia.
  replace (S n * itemsPerPage) with (n * itemsPerPage + itemsPerPage)
    by (unfold itemsPerPage; lia).
  now rewrite firstn_add.
Qed.

(** The arithmetic of [totalPages]. *)
Lemma totalPages_bounds (len : nat) :
  len <= totalPages len * itemsPerPage /\
  totalPages len * itemsPerPage < len + itemsPerPage.
Proof.
  unfold totalPages, itemsPerPage. simpl Nat.sub.
  pose proof (Nat.div_mod_eq (len + 99) 100) as Hd.
  pose proof (Nat.mod_upper_bound (len + 99) 100) as Hm.
  lia.
Qed.

End Pages.

(** X20. The pages 1 to [totalPages] of a list, one after the other, are
    the list: no element is lost or shown twice.  Each of these pages is
    non-empty and has at most 100 elements, every later page is empty,
    and there is no page exactly when the list is empty. *)
Theorem pages_cover_the_list (l : list ComparisonResult.t) :
  pagesUpTo l (totalPages (List.length l)) = l /\
  (forall p, 1 <= p <= totalPages (List.length l) ->
             paginatedData l p <> [] /\
             List.length (paginatedData l p) <= itemsPerPage) /\
  (forall p, totalPages (List.length l) < p -> paginatedData l p = []) /\
  (totalPages (List.length l) = 0 <-> l = []).
Proof.
  pose proof (totalPages_bounds (List.length l)) as [Hlo Hhi].
  split; [|split; [|split]].
  - rewrite pagesUpTo_firstn. apply firstn_all2. exact Hlo.
  - intros p Hp. rewrite paginatedData_nat by lia.
    assert (Hlen : List.length
                     (firstn itemsPerPage
                             (skipn ((p - 1) * itemsPerPage) l))
                   = Nat.min itemsPerPage
                             (List.length l - (p - 1) * itemsPerPage))
      by now rewrite length_firstn, length_skipn.
    unfold itemsPerPage in *.
    split; [|lia].
    intros E. apply (f_equal (@List.length _)) in E.
    rewrite Hlen in E. cbn [List.length] in E. lia.
  - intros p Hp. rewrite paginatedData_nat by lia.
    rewrite skipn_all2; [apply firstn_nil|].
    unfold itemsPerPage in *. lia.
  - unfold itemsPerPage in *. split.
    + intros E. rewrite E in Hlo. destruct l; [reflexivity|].
      simpl in Hlo. lia.
    + intros ->. reflexivity.
Qed.

(** X21. On a page between 1 and [totalPages], the two record indices
    shown above the table are the positions, counted from 1, of the first
    and of the last element of the page; and both page buttons lead to a
    page between 1 and [totalPages] again. *)
Theorem page_indices_and_buttons
        (l : list ComparisonResult.t) (p : nat) :
  1 <= p <= totalPages (List.length l) ->
  (startRecordIndex p <= endRecordIndex (List.length l) p)%Z /\
  Z.of_nat (List.length (paginatedData l p))
  = (endRecordIndex (List.length l) p - startRecordIndex p + 1)%Z /\
  (forall j, j < List.length (paginatedData l p) ->
             nth_error (paginatedData l p) j
             = nth_error l (Z.to_nat (startRecordIndex p) - 1 + j)) /\
  (1 <= previousPage (Z.of_nat p)
   <= Z.of_nat (totalPages (List.length l)))%Z /\
  (1 <= nextPage (Z.of_nat (totalPages (List.length l))) (Z.of_nat p)
   <= Z.of_nat (totalPages (List.length l)))%Z.
Proof.
  intros Hp.
  pose proof (totalPages_bounds (List.length l)) as [Hlo Hhi].
  assert (Hlen : List.length (paginatedData l p)
                 = Nat.min itemsPerPage
                           (List.length l - (p - 1) * itemsPerPage)).
  { rewrite paginatedData_nat by lia.
    now rewrite length_firstn, length_skipn. }
  unfold startRecordIndex, endRecordIndex, previousPage, nextPage.
  unfold itemsPerPage in *.
  assert (Hbefore : (p - 1) * 100 < List.length l) by lia.
  split; [lia|]. split; [lia|]. split; [|lia].
  intros j Hj. rewrite paginatedData_nat by lia. unfold itemsPerPage.
  rewrite nth_error_firstn.
  destruct (j <? 100) eqn:E; [|apply Nat.ltb_ge in E; lia].
  rewrite nth_error_skipn. f_equal. lia.
Qed.

(** X21 on the second page of a list of 150 results: it shows the
    records 101 to 150. *)
Lemma page_indices_and_buttons_witness :
  startRecordIndex 2 = 101%Z /\
  endRecordIndex 150 2 = 150%Z /\
  List.length
    (paginatedData
       (List.repeat (Part002.remainingResult (Sample.ledger "7" "C" 3)) 150)
       2) = 50.
Proof.
  split; [reflexivity|]. split; [reflexivity|].
  destruct (page_indices_and_buttons
              (List.repeat
                 (Part002.remainingResult (Sample.ledger "7" "C" 3)) 150) 2)
    as (_ & Hlen & _).
  - rewrite repeat_length. vm_compute. split; lia.
  - rewrite repeat_length in Hlen.
    apply Nat2Z.inj. rewrite Hlen. reflexivity.
Defined.

(** X20 on a list of 150 results: two pages, the second with the last 50
    results. *)
Lemma pages_cover_the_list_witness :
  totalPages 150 = 2 /\
  pagesUpTo
    (List.repeat (Part002.remainingResult (Sample.ledger "7" "C" 3)) 150) 2
  = List.repeat (Part002.remainingResult (Sample.ledger "7" "C" 3)) 150 /\
  paginatedData
    (List.repeat (Part002.remainingResult (Sample.ledger "7" "C" 3)) 150) 3
  = [].
Proof.
  split; [reflexivity|].
  destruct (pages_cover_the_list
              (List.repeat
                 (Part002.remainingResult (Sample.ledger "7" "C" 3)) 150))
    as (Hall & _ & Hlater & _).
  rewrite repeat_length in Hall, Hlater.
  split; [exact Hall|].
  apply Hlater. vm_compute. lia.
Defined.

(* ================================================================= *)
(** ** Sorting state and the PDF table *)

Section SortKeys.

Lemma ResultKey_eqb_eq (a b : ResultKey) :
  ResultKey_eqb a b = true <-> a = b.
Proof. destruct a, b; simpl; split; congruence. Qed.

Lemma ResultKey_eqb_refl (a : ResultKey) : ResultKey_eqb a a = true.
Proof. now destruct a. Qed.

End SortKeys.

(** X22. A click on a column header always sorts by that column.  The
    direction is descending exactly when the table was sorted by the same
    column in ascending direction, and ascending in every other case:
    repeated clicks on one column alternate between the two directions,
    and a click on another column starts again with ascending. *)
Theorem handleSort_alternates
        (c : option SortConfig) (key other : ResultKey) :
  (exists d, handleSort c key = Some (mkSort key d)) /\
  (handleSort c key = Some (mkSort key desc) <-> c = Some (mkSort key asc)) /\
  handleSort (handleSort c key) key
  = Some (mkSort key (match handleSort c key with
                      | Some (mkSort _ asc) => desc
                      | _ => asc
                      end)) /\
  handleSort (handleSort (handleSort c key) key) key = handleSort c key /\
  (other <> key ->
   handleSort (handleSort c other) key = Some (mkSort key asc)).
Proof.
  assert (H1 : handleSort c key = Some (mkSort key desc)
               <-> c = Some (mkSort key asc)).
  { unfold handleSort. destruct c as [[k d]|]; simpl.
    - destruct (ResultKey_eqb k key) eqn:E; simpl.
      + apply ResultKey_eqb_eq in E. subst k.
        destruct d; split; congruence.
      + assert (k <> key) by (intros ->; now rewrite ResultKey_eqb_refl in E).
        split; [discriminate | congruence].
    - split; discriminate. }
  split; [unfold handleSort; eauto|].
  split; [exact H1|].
  assert (H2 : forall c', handleSort (handleSort c' key) key
               = Some (mkSort key (match handleSort c' key with
                                   | Some (mkSort _ asc) => desc
                                   | _ => asc
                                   end))).
  { intros c'. unfold handleSort at 1 3. simpl.
    rewrite ResultKey_eqb_refl. simpl.
    unfold handleSort. destruct c' as [[k d]|]; simpl; [|reflexivity].
    now destruct (ResultKey_eqb k key && _). }
  split; [apply H2|]. split.
  - rewrite H2, H2. unfold handleSort.
    destruct c as [[k d]|]; simpl; [|reflexivity].
    now destruct (ResultKey_eqb k key && _).
  - intros Hne. unfold handleSort. simpl.
    destruct (ResultKey_eqb other key) eqn:E; [|reflexivity].
    apply ResultKey_eqb_eq in E. congruence.
Qed.

(** X22: a click on the date column after two clicks on the number
    column. *)
Lemma handleSort_alternates_witness :
  handleSort (handleSort (handleSort None k_numero) k_numero) k_data
  = Some (mkSort k_data asc).
Proof.
  destruct (handleSort_alternates (handleSort None k_numero) k_data k_numero)
    as (_ & _ & _ & _ & H).
  apply H. discriminate.
Defined.

(** X23. In the PDF table the sixth cell of the row of a result is the
    text of its status, and the hook colours that cell green for
    [MATCHED], red for [MISSING_IN_ACCOUNTING] and orange for
    [CANCELLED]; it sets no colour for [MISSING_IN_SEFAZ], for a cell of
    another column, whatever its text, or for a cell outside the body. *)
Theorem pdf_status_colours (r : ComparisonResult.t)
        (section : PdfService.TableSection) (columnIndex : nat)
        (raw : option string) :
  List.length (PdfService.tableRow r) = 6 /\
  nth_error (PdfService.tableRow r) 5
  = Some (Some (MatchStatus_value (ComparisonResult.status r))) /\
  PdfService.didParseCell PdfService.body 5
    (Some (MatchStatus_value (ComparisonResult.status r)))
  = match ComparisonResult.status r with
    | MATCHED => Some (46, 125, 50)
    | MISSING_IN_ACCOUNTING => Some (198, 40, 40)
    | CANCELLED => Some (239, 108, 0)
    | MISSING_IN_SEFAZ => None
    end /\
  (columnIndex <> 5 \/ section <> PdfService.body ->
   PdfService.didParseCell section columnIndex raw = None).
Proof.
  split; [reflexivity|]. split; [reflexivity|]. split.
  - destruct (ComparisonResult.status r); vm_compute; reflexivity.
  - intros H. unfold PdfService.didParseCell.
    destruct section; simpl; try reflexivity.
    destruct (columnIndex =? 5) eqn:E; [|reflexivity].
    apply Nat.eqb_eq in E. destruct H as [H | H]; congruence.
Qed.

(** X23 on the status text of a cancelled authority record in the fifth
    cell: it is not coloured. *)
Lemma pdf_status_colours_witness :
  PdfService.didParseCell PdfService.body 4 (Some "Cancelada") = None.
Proof.
  apply (pdf_status_colours
           (Part002.remainingResult (Sample.ledger "7" "C" 3))).
  left. discriminate.
Defined.

(* ================================================================= *)
(** ** Roles of the header cells *)

Section Roles.

(** The assignment made for one header cell concerns the status role
    exactly when the cell text contains [situacao] and not [chave]. *)
Lemma lookup_situacao_assignRole (headerMap : Parser.HeaderMap)
      (txt : string) (idx : nat) :
  Parser.lookup "situacao" (Parser.assignRole headerMap txt idx)
  = if negb (Js.includes txt "chave") && Js.includes txt "situacao"
    then Some idx
    else Parser.lookup "situacao" headerMap.
Proof.
  unfold Parser.assignRole.
  destruct (Js.includes txt "chave"); [reflexivity|].
  destruct (Js.includes txt "situacao"); [reflexivity|].
  destruct (Js.includes txt "numero" || String.eqb txt "nota");
    [reflexivity|].
  destruct (Js.includes txt "serie"); [reflexivity|].
  destruct (Js.includes txt "emitente" && negb (Js.includes txt "cnpj"));
    [reflexivity|].
  destruct (Js.includes txt "data" || Js.includes txt "emissao");
    reflexivity.
Qed.

Lemma lookup_situacao_build (cellTexts : list string) :
  forall headerMap idx,
    Forall (fun t => negb (Js.includes t "chave") && Js.includes t "situacao"
                     = false) cellTexts ->
    Parser.lookup "situacao" (Parser.buildHeaderMap headerMap cellTexts idx)
    = Parser.lookup "situacao" headerMap.
Proof.
  induction cellTexts as [|txt rest IH]; intros headerMap idx H;
    [reflexivity|].
  inversion H as [|? ? Htxt Hrest]; subst. simpl.
  rewrite (IH _ _ Hrest), lookup_situacao_assignRole. now rewrite Htxt.
Qed.

Lemma findIndex_head (p : string -> bool) (h : string)
      (rest : list (option string)) :
  p h = true -> Parser.findIndex p (Some h :: rest) 0 = Ok (Some 0).
Proof. simpl. now intros ->. Qed.

End Roles.

(** X24. In the authority extractor a header cell has one role only, and
    the key role is tested first.  When, in every row that the header
    search examines, each cell whose normalized text contains [situacao]
    also contains [chave], the status column stays unresolved: every
    record of a successful extraction has the empty status text, which
    the reconciliation never takes for cancelled. *)
Theorem authority_status_column_unresolved
        (tables : list Parser.HtmlTable) (records : list SefazRecord.t) :
  (forall table cells,
      In table tables -> In cells (firstn 5 table) ->
      Forall (fun t => Js.includes t "situacao" = true ->
                       Js.includes t "chave" = true)
             (cellTextsOf cells)) ->
  Parser.parseSefazHtml tables = Ok records ->
  Forall (fun r => SefazRecord.situacao r = "" /\ isCancelada r = false)
         records.
Proof.
  intros Hcells. unfold Parser.parseSefazHtml.
  destruct (Parser.searchTables tables) as [[table headerMap]|] eqn:E;
    [|discriminate].
  intros [= <-].
  apply searchTables_Some in E as (before & after & -> & _ & Hs).
  apply searchRows_Some in Hs as (k & header & Hk & Hn & _ & Hm & _).
  assert (Hl : Parser.lookup "situacao" headerMap = None).
  { rewrite Hm. rewrite lookup_situacao_build; [reflexivity|].
    eapply Forall_impl; [|apply (Hcells table header)].
    - intros t Ht. simpl in Ht.
      destruct (Js.includes t "situacao") eqn:Es; [|apply andb_false_r].
      now rewrite (Ht eq_refl).
    - apply in_or_app. right. now left.
    - apply nth_error_In with (n := k). rewrite nth_error_firstn.
      destruct (k <? 5) eqn:E5; [exact Hn|].
      apply Nat.ltb_ge in E5. lia. }
  eapply Forall_impl; [|apply sefazRows_spec].
  intros r (cells & _ & Hr).
  pose proof (sefazRow_fields _ _ _ Hr) as (_ & _ & _ & Hsit & _).
  assert (Hempty : SefazRecord.situacao r = "").
  { rewrite Hsit. unfold Parser.getVal. now rewrite Hl. }
  split; [exact Hempty|]. unfold isCancelada. now rewrite Hempty.
Qed.

(** X24 on a page whose header has the key and the status in one cell. *)
Lemma authority_status_column_unresolved_witness :
  exists records,
    Parser.parseSefazHtml
      [ [ [Sample.td "Chave / Situacao"; Sample.td "Numero";
           Sample.td "Serie"];
          [Sample.td Sample.key44; Sample.td "100"; Sample.td "1"] ] ]
    = Ok records /\
    List.length records = 1 /\
    Forall (fun r => SefazRecord.situacao r = "") records.
Proof.
  eexists. split; [vm_compute; reflexivity|]. split; [reflexivity|].
  eapply Forall_impl;
    [|eapply (authority_status_column_unresolved
                [ [ [Sample.td "Chave / Situacao"; Sample.td "Numero";
                     Sample.td "Serie"];
                    [Sample.td Sample.key44; Sample.td "100";
                     Sample.td "1"] ] ])].
  - intros r [H _]. exact H.
  - intros table cells [<- | []] Hc. simpl in Hc.
    destruct Hc as [<- | [<- | []]]; vm_compute;
      repeat constructor; discriminate.
  - vm_compute. reflexivity.
Defined.

(** X25. In the ledger extractor the four roles are resolved one by one
    over all headers, so one column can have several roles.  When the
    first header of row zero contains both [chave] and [nota], it is the
    key column and the number column: the number of every record is the
    unnormalized text of its key cell. *)
Theorem ledger_column_with_two_roles
        (h : string) (rest : list Cell) (dataRows : list (list Cell))
        (records : list AccountingRecord.t) :
  Js.includes (normalizeHeader (Some h)) "chave" = true ->
  Js.includes (normalizeHeader (Some h)) "nota" = true ->
  Parser.parseAccountingFile ((Some h :: rest) :: dataRows) = Ok records ->
  Forall (fun r => exists raw,
              nth_error (AccountingRecord.sourceRow r) 0 = Some (Some raw) /\
              AccountingRecord.chave r = normalizeKey (Some raw) /\
              AccountingRecord.numero r = Some raw)
         records.
Proof.
  intros Hc Hn H.
  apply parseAccountingFile_columns in H
    as (row0 & dataRows' & i & idxNumero & idxValor & idxData
        & Heq & Hi & Hnum & _ & _ & ->).
  injection Heq as <- <-.
  assert (Hh : Parser.headersOf (Some h :: rest)
               = Some (normalizeHeader (Some h)) :: Parser.headersOf rest)
    by reflexivity.
  rewrite Hh in Hi, Hnum.
  rewrite findIndex_head in Hi
    by (unfold Parser.isChaveHeader; now rewrite Hc).
  rewrite findIndex_head in Hnum
    by (unfold Parser.isNumeroHeader; rewrite Hn; apply orb_true_r).
  injection Hi as <-. injection Hnum as <-.
  eapply Forall2_Forall_r; [|apply accountingRows_spec].
  intros row r Hr. simpl in Hr.
  pose proof (accountingRow_fields _ _ _ _ _ _ Hr) as (_ & Hrow & Hnumero & _).
  apply accountingRow_Some in Hr as (raw & Hraw & _ & Hk & _).
  exists raw. rewrite Hrow. split; [exact Hraw|]. split; [exact Hk|].
  rewrite Hnumero. now apply at_Some.
Qed.

(** X25 on a sheet whose first column is headed "Chave da Nota". *)
Lemma ledger_column_with_two_roles_witness :
  exists records,
    Parser.parseAccountingFile
      [ [Some "Chave da Nota"; Some "Valor"];
        [Some "3524-0312"; Some "1,00"] ]
    = Ok records /\
    List.map AccountingRecord.numero records = [Some "3524-0312"] /\
    Forall (fun r => exists raw, AccountingRecord.numero r = Some raw)
           records.
Proof.
  eexists. split; [vm_compute; reflexivity|]. split; [reflexivity|].
  eapply Forall_impl;
    [|eapply (ledger_column_with_two_roles "Chave da Nota" [Some "Valor"]
                [[Some "3524-0312"; Some "1,00"]])].
  - intros r (raw & _ & _ & H). now exists raw.
  - vm_compute. reflexivity.
  - vm_compute. reflexivity.
  - vm_compute. reflexivity.
Defined.

(* ================================================================= *)
(** ** The two versions of the reconciliation, side by side *)

Section Versions.

Lemma get_delete_other (m : JsMap.t AccountingRecord.t) (k k' : string) :
  k <> k' -> JsMap.get k (JsMap.delete k' m) = JsMap.get k m.
Proof.
  intros Hne. induction m as [|[k0 v] m IH]; simpl; [reflexivity|].
  destruct (String.eqb k0 k') eqn:E'; simpl.
  - apply String.eqb_eq in E'. subst k0.
    destruct (String.eqb k' k) eqn:E; [|reflexivity].
    apply String.eqb_eq in E. congruence.
  - now rewrite IH.
Qed.

(** part_002 on authority records with distinct keys: every lookup finds
    what it would find in the map the pass started from. *)
Lemma Part002_pass_distinct (sef : list SefazRecord.t) :
  forall (m m0 : JsMap.t AccountingRecord.t) (c : list ComparisonResult.t),
    NoDup (List.map chaveS sef) ->
    (forall s, In s sef ->
               JsMap.get (chaveS s) m = JsMap.get (chaveS s) m0) ->
    snd (fold_left Part002.compareStep sef (m, c))
    = c ++ List.map (fun s => sefazResult s (JsMap.get (chaveS s) m0)
                                (classify s (JsMap.get (chaveS s) m0))) sef.
Proof.
  induction sef as [|s sef IH]; intros m m0 c Hnd Hget.
  - simpl. now rewrite app_nil_r.
  - change (fold_left Part002.compareStep (s :: sef) (m, c))
      with (fold_left Part002.compareStep sef
              (Part002.compareStep (m, c) s)).
    rewrite Part002_step.
    inversion Hnd as [|? ? Hnotin Hnd']; subst.
    rewrite (IH _ m0 _ Hnd').
    + rewrite (Hget s (or_introl eq_refl)).
      rewrite <- app_assoc. reflexivity.
    + intros s' Hs'.
      assert (Hne : chaveS s' <> chaveS s).
      { intros E. apply Hnotin. rewrite <- E. now apply in_map. }
      rewrite <- (Hget s' (or_intror Hs')).
      destruct (isCancelada s); [reflexivity|].
      destruct (Parser.isSome _); [|reflexivity].
      now apply get_delete_other.
Qed.

End Versions.

(** X26. When the keys of the authority records are pairwise distinct and
    the comparison runs, part_002 produces the results of src/App.tsx,
    in the same order, followed by the results of the ledger records left
    in the map. *)
Theorem versions_agree_on_distinct_keys (st : AppState) :
  accountingData st <> [] ->
  sefazData st <> [] ->
  NoDup (List.map SefazRecord.chave (sefazData st)) ->
  results (Part002.handleCompare st)
  = results (AppTsx.handleCompare st)
    ++ List.map Part002.remainingResult
         (JsMap.values (pending (sefazData st)
                                (buildMapAccounting (accountingData st)))).
Proof.
  intros Hacc Hsef Hnd.
  set (m := buildMapAccounting (accountingData st)).
  pose proof (Part002_pass_distinct (sefazData st) m m [] Hnd
                (fun s _ => eq_refl)) as Hsnd.
  destruct (Part002_pass (sefazData st) m [] (buildMapAccounting_NoDup _))
    as (rs & Hfold & _).
  rewrite Hfold in Hsnd. simpl in Hsnd.
  unfold Part002.handleCompare, AppTsx.handleCompare.
  rewrite guard_passes by assumption.
  fold m. rewrite Hfold. simpl results.
  rewrite push_all, AppTsx_pass. simpl app. now rewrite Hsnd.
Qed.

(** X26 on the sample with a repeated ledger key. *)
Lemma versions_agree_on_distinct_keys_witness :
  results (Part002.handleCompare Sample.repeatedLedgerKey)
  = results (AppTsx.handleCompare Sample.repeatedLedgerKey)
    ++ [Part002.remainingResult (Sample.ledger "7" "C" 3)].
Proof.
  rewrite (versions_agree_on_distinct_keys Sample.repeatedLedgerKey).
  - reflexivity.
  - simpl. discriminate.
  - simpl. discriminate.
  - simpl. repeat constructor. intros [].
Defined.

(* ================================================================= *)
(** ** Amounts in the Brazilian format *)

Section Amounts.

Lemma all_app (p : ascii -> bool) (x y : string) :
  Js.all p (x ++ y)%string = Js.all p x && Js.all p y.
Proof.
  induction x as [|c r IH]; simpl; [reflexivity|].
  now rewrite IH, andb_assoc.
Qed.

Lemma filter_app_string (p : ascii -> bool) (x y : string) :
  Js.filter p (x ++ y)%string = (Js.filter p x ++ Js.filter p y)%string.
Proof.
  induction x as [|c r IH]; simpl; [reflexivity|].
  destruct (p c); simpl; now rewrite IH.
Qed.

Lemma filter_keeps_all (q p : ascii -> bool) (s : string) :
  (forall c, q c = true -> p c = true) ->
  Js.all q s = true -> Js.filter p s = s.
Proof.
  intros Hq. induction s as [|c r IH]; simpl; [reflexivity|].
  intros H. apply andb_prop in H as [Hc Hr].
  now rewrite (Hq c Hc), (IH Hr).
Qed.

(** The first occurrence of a one-character pattern, after a text
    without that character. *)
Lemma replaceFirst_found (a : ascii) (rep d r : string) :
  Js.all (fun c => negb (Ascii.eqb a c)) d = true ->
  Js.replaceFirst (d ++ String a r) (String a "") rep
  = (d ++ rep ++ r)%string.
Proof.
  induction d as [|c d IH]; intros H.
  - simpl append.
    destruct r; simpl; rewrite Ascii.eqb_refl; reflexivity.
  - simpl in H. apply andb_prop in H as [Hc Hd].
    apply negb_true_iff in Hc. simpl. rewrite Hc. simpl.
    now rewrite (IH Hd).
Qed.

Lemma spanDigits_app (d : string) (c : ascii) (r : string) :
  Js.all Js.isDigit d = true -> Js.isDigit c = false ->
  Js.spanDigits (d ++ String c r) = (d, String c r).
Proof.
  intros Hd Hc. induction d as [|x d IH]; simpl.
  - now rewrite Hc.
  - simpl in Hd. apply andb_prop in Hd as [Hx Hd].
    now rewrite Hx, (IH Hd).
Qed.

(** [parseFloat] on digits, a period and digits. *)
Lemma parseFloat_decimal (d b : string) :
  Js.all Js.isDigit d = true -> d <> "" -> Js.all Js.isDigit b = true ->
  Js.parseFloat (d ++ String "." b)
  = Js.ofDecimal false (Js.digitsValue 0 (d ++ b))
                 (- Z.of_nat (String.length b)).
Proof.
  intros Hd Hne Hb. destruct d as [|c r]; [congruence|].
  pose proof Hd as Hd'. simpl in Hd'. apply andb_prop in Hd' as [Hc _].
  destruct (digit_not_special c Hc) as (Hmi & Hpl & _ & _ & HI & _).
  unfold Js.parseFloat.
  change (String c r ++ String "." b)%string
    with (String c (r ++ String "." b)).
  simpl Js.trimStart. rewrite (digit_not_space c Hc).
  unfold Js.takeSign. rewrite Hmi, Hpl.
  change (Js.startsWith (String c (r ++ String "." b)) "Infinity")
    with (Ascii.eqb "I" c
          && Js.startsWith (r ++ String "." b)%string "nfinity").
  rewrite HI. cbn [andb].
  change (String c (r ++ String "." b))
    with (String c r ++ String "." b)%string.
  rewrite (spanDigits_app _ "." b Hd eq_refl). cbn iota beta.
  rewrite Ascii.eqb_refl, (spanDigits_all _ Hb). cbn iota beta.
  cbn [Js.isEmpty andb Js.exponentPart]. reflexivity.
Qed.

(** The text of an amount in the Brazilian format, as it reaches
    [parseFloat]. *)
Lemma parseValor_brazilian (a b : string) :
  Js.all (fun c => Js.isDigit c || Ascii.eqb c ".") a = true ->
  Js.filter Js.isDigit a <> "" ->
  Js.all Js.isDigit b = true ->
  Parser.parseValor (Some (a ++ String "," b)%string)
  = Js.ofDecimal false (Js.digitsValue 0 (Js.filter Js.isDigit a ++ b))
                 (- Z.of_nat (String.length b)).
Proof.
  intros Ha Hne Hb.
  unfold Parser.parseValor. simpl option_map.
  (* no [R$] in the text *)
  rewrite (replaceFirst_absent "R" "$" "").
  2:{ rewrite all_app. apply andb_true_intro. split.
      - eapply all_impl; [|exact Ha].
        intros c Hc. apply negb_true_iff.
        apply orb_prop in Hc as [Hc | Hc].
        + apply (digit_not_special c Hc).
        + apply Ascii.eqb_eq in Hc. now subst c.
      - simpl. eapply all_impl; [|exact Hb].
        intros c Hc. apply negb_true_iff. apply (digit_not_special c Hc). }
  (* the periods go, the comma and the fraction stay *)
  assert (Hrm : Parser.removePeriods (a ++ String "," b)
                = (Js.filter Js.isDigit a ++ String "," b)%string).
  { unfold Parser.removePeriods. rewrite filter_app_string. f_equal.
    - eapply filter_ext_all; [|exact Ha].
      intros c Hc. apply orb_prop in Hc as [Hc | Hc].
      + rewrite Hc.
        now rewrite (proj1 (proj2 (proj2 (digit_not_special c Hc)))).
      + rewrite Hc. apply Ascii.eqb_eq in Hc. now subst c.
    - simpl. f_equal. eapply filter_keeps_all; [|exact Hb].
      intros c Hc.
      now rewrite (proj1 (proj2 (proj2 (digit_not_special c Hc)))). }
  rewrite Hrm.
  rewrite (replaceFirst_found "," "." (Js.filter Js.isDigit a) b).
  2:{ eapply all_impl; [|apply filter_all].
      intros c Hc. apply negb_true_iff.
      rewrite Ascii.eqb_sym. apply (digit_not_special c Hc). }
  assert (Hor : forall t, Js.orElse
                            (Some (Js.filter Js.isDigit a ++ t)%string) "0"
                          = (Js.filter Js.isDigit a ++ t)%string).
  { intros t. simpl.
    destruct (Js.filter Js.isDigit a); [congruence | reflexivity]. }
  rewrite Hor. simpl append.
  apply parseFloat_decimal; [apply filter_all | exact Hne | exact Hb].
Qed.

End Amounts.

(** X27. An amount in the Brazilian format is read as the double nearest
    to it.  For a text made of an integer part of digits and periods with
    at least one digit, a comma, and a fraction of digits, the value is
    the Number value of the decimal whose digits are those of the integer
    part followed by those of the fraction, with as many decimal places
    as the fraction has digits: the double nearest to that decimal, and
    [0] when all its digits are zeros. *)
Theorem ledger_value_brazilian_format (a b : string) :
  Js.all (fun c => Js.isDigit c || Ascii.eqb c ".") a = true ->
  Js.filter Js.isDigit a <> "" ->
  Js.all Js.isDigit b = true ->
  let n := Js.digitsValue 0 (Js.filter Js.isDigit a ++ b) in
  let k := Z.of_nat (String.length b) in
  let v := Parser.parseValor (Some (a ++ String "," b)%string) in
  v = Js.ofDecimal false n (- k) /\
  ((0 < n)%N -> Js.nearest false (Z.of_N n) (10 ^ k) v) /\
  (n = 0%N -> v = Js.zero).
Proof.
  intros Ha Hne Hb n k v.
  pose proof (parseValor_brazilian a b Ha Hne Hb) as E.
  fold n k v in E. rewrite E. split; [reflexivity|]. split.
  - intros Hn. pose proof (ofDecimal_nearest false n (- k) Hn) as Hr.
    replace (Z.max 0 (- k)) with 0%Z in Hr by lia.
    replace (Z.max 0 (- - k)) with k in Hr by lia.
    now rewrite Z.pow_0_r, Z.mul_1_r in Hr.
  - intros ->. reflexivity.
Qed.

(** X27 on an amount with two thousands separators: the value is the
    double nearest to 1234567.89. *)
Lemma ledger_value_brazilian_format_witness :
  Parser.parseValor (Some "1.234.567,89")
  = Js.Num false 5302428712241725 (-32) /\
  Js.nearest false 123456789 100
             (Parser.parseValor (Some "1.234.567,89")).
Proof.
  pose proof (ledger_value_brazilian_format "1.234.567" "89"
                eq_refl ltac:(discriminate) eq_refl) as (E & Hn & _).
  split; [|exact (Hn eq_refl)].
  transitivity (Js.ofDecimal false 123456789 (-2));
    [exact E | vm_compute; reflexivity].
Defined.
